(** * Catalog merge and join pipeline: a shallow embedding of [solution.py]

    The program has three stages: [find_json_files] walks a directory tree,
    [merge_json_files] loads the JSON files into one pandas frame, normalises
    and deduplicates it, and [join_csv_files] left-joins the catalog onto an
    external CSV.  [main] locates the inputs, runs the stages and writes the
    two tables.

    Modelling decisions.
    - Python values are the inductive [pyval]; a dict is an association list in
      insertion order.  A float is a binary64 number of the Standard Library's
      [spec_float]; [float(int)] rounds to nearest, ties to even, and [repr]
      prints the shortest decimal that reads back.  Integers are unbounded.
    - A pandas frame is its list of column labels and its rows, each row an
      association list from label to cell.  The operations follow pandas 2:
      the frame built from records stores a column of integers and missing
      values, or of numbers with a float, as floats; [astype(str)] is
      Python's [str] on every cell; the hash tables behind [drop_duplicates]
      and [merge] compare cells by Python equality with NaN equal to NaN,
      cells that are lists or dicts included; [merge] refuses suffixes that
      produce a repeated label, and turns the integer columns of the right
      frame into floats when some left row has no match.
    - A column has no dtype of its own in the model.  Where [merge] decides
      by dtype, the model decides by the cells: a column holding integers
      only is taken to be an integer column, although pandas can hold such
      cells in an object column.  How pandas types a column with integers
      beyond 64 bits is modelled in outline: the column keeps its objects.
    - Exceptions are values of [exn]; code that may raise returns [result].
    - [print] is modelled by a log of [diag] events, oldest first.
    - The file system is a parameter: a function from a path to what the
      program finds there.  Symbolic links are not represented.
    - Strings are byte strings holding UTF-8; [/] and [.] are single bytes
      and the byte order of UTF-8 text is the code point order Python
      compares by.
    - The Unicode database is not represented.  [repr] of a string needs to
      know which characters outside ASCII are printable: that table is the
      parameter [isprintable] of the development.  [lower] maps the ASCII
      letters and the Kelvin sign, the only characters whose lowercase form
      holds one of the letters s, k, u; the other characters are left alone,
      which does not change whether the lowercase form contains [sku].
    - [sort_values] is modelled by a stable sort.  pandas' default sort may
      put rows of equal category in another order; no statement below
      depends on the order among rows of equal category. *)

From Stdlib Require Import List String Ascii ZArith NArith Lia Bool.
From Stdlib Require Import Sorting.Sorted Sorting.Permutation.
From Stdlib Require Import Numbers.DecimalString.
From Stdlib Require Import Floats.SpecFloat.
Import ListNotations.
Local Open Scope string_scope.
Local Open Scope list_scope.
Set Warnings "-register-all".

(** ** Exceptions, results and diagnostics *)

Inductive exn : Type :=
| KeyError (key : string)
| TypeError
| OSError
| JSONDecodeError
| MergeError.

Inductive result (A : Type) : Type :=
| Ok (a : A)
| Raise (e : exn).
Arguments Ok {A} a.
Arguments Raise {A} e.

Definition bind {A B : Type} (r : result A) (k : A -> result B) : result B :=
  match r with
  | Ok a => k a
  | Raise e => Raise e
  end.

Notation "x <- r ;; k" := (bind r (fun x => k))
  (at level 61, r at next level, right associativity).

Inductive diag : Type :=
| WarnNoDirectory (base_dir : string)
| Processed (file_path : string) (n : nat)
| ErrorProcessing (file_path : string) (e : exn)
| WarnMissingColumn (col : string)
| UsingColumn (col : string)
| WarnNoProductSku
| AvailableColumns (cols : list string).

(** ** Python strings *)

Definition str_of_Z (z : Z) : string := NilZero.string_of_int (Z.to_int z).

Module Str.

Definition endswith (s suffix : string) : bool :=
  let n := String.length s in
  let m := String.length suffix in
  if Nat.leb m n then String.eqb (substring (n - m) m s) suffix else false.

(** [sub in s] *)
Fixpoint contains (sub s : string) : bool :=
  if prefix sub s then true
  else match s with
       | EmptyString => false
       | String _ rest => contains sub rest
       end.

Definition lower_char (c : ascii) : ascii :=
  let n := nat_of_ascii c in
  if Nat.leb 65 n && Nat.leb n 90 then ascii_of_nat (n + 32) else c.

(** [s.lower()] as far as the letters s, k and u go: the ASCII letters, and
    the Kelvin sign U+212A (the bytes E2 84 AA), which lowers to [k]. *)
Fixpoint lower (s : string) : string :=
  match s with
  | EmptyString => EmptyString
  | String "226" (String "132" (String "170" rest)) => String "k" (lower rest)
  | String c rest => String (lower_char c) (lower rest)
  end.

(** [s.rfind(c)]: index of the last occurrence, [-1] when there is none. *)
Fixpoint rfind_from (c : ascii) (s : string) (i last : Z) : Z :=
  match s with
  | EmptyString => last
  | String a rest => rfind_from c rest (i + 1) (if Ascii.eqb a c then i else last)
  end.

Definition rfind (c : ascii) (s : string) : Z := rfind_from c s 0 (-1).

(** [s[i:]] and [s[:i]] for [0 <= i]. *)
Definition slice_from (s : string) (i : Z) : string :=
  substring (Z.to_nat i) (String.length s - Z.to_nat i) s.

Definition slice_to (s : string) (i : Z) : string :=
  substring 0 (Z.to_nat i) s.

Fixpoint all_char (c : ascii) (s : string) : bool :=
  match s with
  | EmptyString => true
  | String a rest => Ascii.eqb a c && all_char c rest
  end.

Fixpoint join (sep : string) (l : list string) : string :=
  match l with
  | [] => EmptyString
  | [x] => x
  | x :: rest => x ++ sep ++ join sep rest
  end.

Fixpoint zeros (n : nat) : string :=
  match n with
  | O => EmptyString
  | S n' => String "0" (zeros n')
  end.

End Str.

(** ** UTF-8 *)

Module Utf8.

Definition byte (c : ascii) : N := N_of_ascii c.

Definition continuation (c : ascii) : bool :=
  (128 <=? byte c)%N && (byte c <? 192)%N.

(** The code point that starts a string and the number of bytes it takes.  A
    byte that does not start a well-formed sequence is returned as it is. *)
Definition head (s : string) : N * nat :=
  match s with
  | EmptyString => (0%N, 0%nat)
  | String b0 rest =>
      let n0 := byte b0 in
      match rest with
      | String b1 rest1 =>
          if (192 <=? n0)%N && (n0 <? 224)%N && continuation b1
          then (((n0 - 192) * 64 + (byte b1 - 128))%N, 2%nat)
          else
            match rest1 with
            | String b2 rest2 =>
                if (224 <=? n0)%N && (n0 <? 240)%N && continuation b1 && continuation b2
                then (((n0 - 224) * 4096 + (byte b1 - 128) * 64 + (byte b2 - 128))%N,
                      3%nat)
                else
                  match rest2 with
                  | String b3 _ =>
                      if (240 <=? n0)%N && (n0 <? 248)%N && continuation b1
                         && continuation b2 && continuation b3
                      then (((n0 - 240) * 262144 + (byte b1 - 128) * 4096
                             + (byte b2 - 128) * 64 + (byte b3 - 128))%N, 4%nat)
                      else (n0, 1%nat)
                  | EmptyString => (n0, 1%nat)
                  end
            | EmptyString => (n0, 1%nat)
            end
      | EmptyString => (n0, 1%nat)
      end
  end.

(** [str.isprintable] on the characters of Latin-1 outside ASCII: U+00A1
    to U+00FF without the soft hyphen U+00AD. *)
Definition latin1_printable (cp : N) : bool :=
  (160 <? cp)%N && (cp <? 256)%N && negb (cp =? 173)%N.

Definition hex_digit (n : N) : ascii :=
  if (n <? 10)%N then ascii_of_N (48 + n) else ascii_of_N (87 + n).

(** [width] lowercase hexadecimal digits of [n]. *)
Fixpoint hex (width : nat) (n : N) : string :=
  match width with
  | O => EmptyString
  | S w => (hex w (n / 16) ++ String (hex_digit (n mod 16)) EmptyString)%string
  end.

End Utf8.

(** ** [os.path] (posixpath) *)

Module Path.

Definition sep : ascii := "/"%char.
Definition extsep : ascii := "."%char.

(** [i = p.rfind('/') + 1; return p[i:]] *)
Definition basename (p : string) : string :=
  Str.slice_from p (Str.rfind sep p + 1).

(** [genericpath._splitext]: the extension starts at the last dot of the
    last component, unless that component has only dots before it. *)
Definition splitext (p : string) : string * string :=
  let sepIndex := Str.rfind sep p in
  let dotIndex := Str.rfind extsep p in
  if Z.ltb sepIndex dotIndex then
    let stem := substring (Z.to_nat (sepIndex + 1))
                          (Z.to_nat (dotIndex - (sepIndex + 1))) p in
    if Str.all_char extsep stem then (p, EmptyString)
    else (Str.slice_to p dotIndex, Str.slice_from p dotIndex)
  else (p, EmptyString).

(** [os.path.join(a, b)] *)
Definition join (a b : string) : string :=
  if prefix "/" b then b
  else if String.eqb a "" || Str.endswith a "/" then a ++ b
  else a ++ "/" ++ b.

End Path.

(** ** Floats *)

Module Float.

Definition prec : Z := 53.
Definition emax : Z := 1024.

(** [float(z)]: the nearest double, ties to even. *)
Definition of_Z (z : Z) : spec_float := binary_normalize prec emax z 0 false.

(** Comparison of [a * 2^e2] with [b * 10^e10], for positive [a] and [b]. *)
Definition compare_scaled (a e2 b e10 : Z) : comparison :=
  let a' := (if 0 <=? e2 then a * 2 ^ e2 else a)%Z in
  let b' := (if 0 <=? e2 then b else b * 2 ^ (- e2))%Z in
  let a'' := (if 0 <=? e10 then a' else a' * 10 ^ (- e10))%Z in
  let b'' := (if 0 <=? e10 then b' * 10 ^ e10 else b')%Z in
  Z.compare a'' b''.

(** The greatest [t] with [10^t <= m * 2^e], from an estimate. *)
Fixpoint adjust_up (fuel : nat) (m e t : Z) : Z :=
  match fuel with
  | O => t
  | S fuel' =>
      match compare_scaled m e 1 (t + 1) with
      | Lt => t
      | _ => adjust_up fuel' m e (t + 1)
      end
  end.

Fixpoint adjust_down (fuel : nat) (m e t : Z) : Z :=
  match fuel with
  | O => t
  | S fuel' =>
      match compare_scaled m e 1 t with
      | Lt => adjust_down fuel' m e (t - 1)
      | _ => t
      end
  end.

Definition floor_log10 (m e : Z) : Z :=
  let t0 := ((Z.log2 m + e) * 1233 / 4096)%Z in
  adjust_up 4 m e (adjust_down 4 m e t0).

(** [floor (m * 2^e / 10^k)] *)
Definition floor_scaled (m e k : Z) : Z :=
  let num := ((if 0 <=? e then m * 2 ^ e else m)
              * (if 0 <=? k then 1 else 10 ^ (- k)))%Z in
  let den := ((if 0 <=? e then 1 else 2 ^ (- e))
              * (if 0 <=? k then 10 ^ k else 1))%Z in
  (num / den)%Z.

(** Whether the decimal [c * 10^k] reads back as the double [m * 2^e]: it
    lies between the midpoints to the neighbouring doubles, the midpoints
    themselves included when [m] is even. *)
Definition reads_back (m e c k : Z) : bool :=
  let below := (if (m =? 2 ^ (prec - 1)) && (- 1074 <? e)
                then 4 * m - 1 else 4 * m - 2)%Z in
  let above := (4 * m + 2)%Z in
  let inside (x : comparison) :=
    match x with Lt => true | Eq => Z.even m | Gt => false end in
  (0 <? c)%Z
  && inside (compare_scaled below (e - 2) c k)
  && inside (CompOpp (compare_scaled above (e - 2) c k)).

(** The shortest decimal that reads back, the nearest one when two of that
    length do: the digits as an integer and the exponent of the last digit. *)
Fixpoint shortest (fuel : nat) (p : Z) (m e t : Z) : Z * Z :=
  let k := (t - p + 1)%Z in
  let lo := floor_scaled m e k in
  let hi := (lo + 1)%Z in
  match fuel with
  | O => (lo, k)
  | S fuel' =>
      match reads_back m e lo k, reads_back m e hi k with
      | true, false => (lo, k)
      | false, true => (hi, k)
      | true, true =>
          match compare_scaled (2 * m) e (2 * lo + 1) k with
          | Lt => (lo, k)
          | Gt => (hi, k)
          | Eq => if Z.even lo then (lo, k) else (hi, k)
          end
      | false, false => shortest fuel' (p + 1) m e t
      end
  end.

Fixpoint strip_zeros (fuel : nat) (c k : Z) : Z * Z :=
  match fuel with
  | O => (c, k)
  | S fuel' =>
      if (c mod 10 =? 0)%Z then strip_zeros fuel' (c / 10) (k + 1) else (c, k)
  end.

(** The digits as [float_repr_style = 'short'] lays them out: an exponent
    when the decimal point would be more than 16 places right of the first
    digit or more than 4 places left of it. *)
Definition format_digits (c k : Z) : string :=
  let ds := str_of_Z c in
  let n := Z.of_nat (String.length ds) in
  let decpt := (n + k)%Z in
  if (decpt <=? -4)%Z || (16 <? decpt)%Z then
    let x := (decpt - 1)%Z in
    let mantissa :=
      match ds with
      | String d (String d' rest) => String d ("." ++ String d' rest)
      | _ => ds
      end in
    let xs := str_of_Z (Z.abs x) in
    mantissa ++ "e" ++ (if (x <? 0)%Z then "-" else "+")
             ++ (if (Z.abs x <? 10)%Z then "0" ++ xs else xs)
  else if (decpt <=? 0)%Z then "0." ++ Str.zeros (Z.to_nat (- decpt)) ++ ds
  else if (n <=? decpt)%Z then ds ++ Str.zeros (Z.to_nat (decpt - n)) ++ ".0"
  else substring 0 (Z.to_nat decpt) ds ++ "."
       ++ substring (Z.to_nat decpt) (Z.to_nat (n - decpt)) ds.

(** [repr(x)], which is also [str(x)]. *)
Definition repr (x : spec_float) : string :=
  match x with
  | S754_nan => "nan"
  | S754_infinity false => "inf"
  | S754_infinity true => "-inf"
  | S754_zero false => "0.0"
  | S754_zero true => "-0.0"
  | S754_finite s m e =>
      match binary_normalize prec emax (Z.pos m) e false with
      | S754_finite _ m' e' =>
          let '(c, k) := shortest 17 1 (Z.pos m') e' (floor_log10 (Z.pos m') e') in
          let '(c, k) := strip_zeros 20 c k in
          (if s then "-" else "") ++ format_digits c k
      | S754_zero _ => if s then "-0.0" else "0.0"
      | _ => if s then "-inf" else "inf"
      end
  end.

(** A number [m * 2^e] with the factors of two moved to the exponent. *)
Fixpoint odd_part (m : positive) (e : Z) : positive * Z :=
  match m with
  | xO p => odd_part p (e + 1)
  | _ => (m, e)
  end.

End Float.

(** ** Sorting

    [sorted] and the model of [sort_values] are a stable insertion sort by a
    boolean order. *)

Section Sorting.

Context {A : Type} (leb : A -> A -> bool).

Fixpoint insert_sorted (x : A) (l : list A) : list A :=
  match l with
  | [] => [x]
  | y :: rest => if leb x y then x :: l else y :: insert_sorted x rest
  end.

Fixpoint sort_by (l : list A) : list A :=
  match l with
  | [] => []
  | x :: rest => insert_sorted x (sort_by rest)
  end.

Definition le_of : A -> A -> Prop := fun a b => leb a b = true.

End Sorting.


(** [c in s] for one character. *)
Fixpoint has_char (c : ascii) (s : string) : bool :=
  match s with
  | EmptyString => false
  | String a rest => Ascii.eqb a c || has_char c rest
  end.

(** ** Python values *)

Inductive pyval : Type :=
| PNone
| PBool (b : bool)
| PInt (z : Z)
| PFloat (x : spec_float)
| PStr (s : string)
| PList (items : list pyval)
| PDict (fields : list (string * pyval)).

Abbreviation PNaN := (PFloat S754_nan).

(** A Python dict with string keys, in insertion order. *)
Definition pydict : Type := list (string * pyval).

Fixpoint dict_get (k : string) (d : pydict) : option pyval :=
  match d with
  | [] => None
  | (k', v) :: rest => if String.eqb k' k then Some v else dict_get k rest
  end.

(** [d[k] = v]: an existing key keeps its place, a new one goes last. *)
Fixpoint dict_set (k : string) (v : pyval) (d : pydict) : pydict :=
  match d with
  | [] => [(k, v)]
  | (k', v') :: rest =>
      if String.eqb k' k then (k', v) :: rest else (k', v') :: dict_set k v rest
  end.

Definition mem (k : string) (l : list string) : bool :=
  existsb (String.eqb k) l.

(** What pandas' hash tables compare a cell by: Python equality, with NaN
    equal to NaN.  A number is its value, whether it is a bool, an int or a
    float: an integer value is [HNum], any other finite value is [HFrac]
    with an odd mantissa.  A list is equal to a list of equal items, a dict
    to a dict with equal values under the same keys, in whatever order.
    [json.load] gives the one object [json.decoder.NaN] for every NaN it
    reads, so NaN is equal to NaN inside lists and dicts as well. *)
Inductive hkey : Type :=
| HNone
| HNaN
| HInf (negative : bool)
| HNum (z : Z)
| HFrac (negative : bool) (m : positive) (e : Z)
| HStr (s : string)
| HList (items : list hkey)
| HDict (fields : list (string * hkey)).

Definition float_key (x : spec_float) : hkey :=
  match x with
  | S754_nan => HNaN
  | S754_infinity s => HInf s
  | S754_zero _ => HNum 0
  | S754_finite s m e =>
      let '(m', e') := Float.odd_part m e in
      if (0 <=? e')%Z
      then HNum ((if s then Z.neg m' else Z.pos m') * 2 ^ e')
      else HFrac s m' e'
  end.

Definition field_leb (a b : string * hkey) : bool := String.leb (fst a) (fst b).

Fixpoint hash_key (v : pyval) : hkey :=
  match v with
  | PNone => HNone
  | PBool b => HNum (if b then 1 else 0)
  | PInt z => HNum z
  | PFloat x => float_key x
  | PStr s => HStr s
  | PList items => HList (map hash_key items)
  | PDict fields =>
      HDict (sort_by field_leb (map (fun '(k, x) => (k, hash_key x)) fields))
  end.

Fixpoint hkey_eqb (a b : hkey) : bool :=
  match a, b with
  | HNone, HNone => true
  | HNaN, HNaN => true
  | HInf s, HInf s' => Bool.eqb s s'
  | HNum x, HNum y => Z.eqb x y
  | HFrac s m e, HFrac s' m' e' => Bool.eqb s s' && Pos.eqb m m' && Z.eqb e e'
  | HStr x, HStr y => String.eqb x y
  | HList l, HList l' =>
      (fix each (l l' : list hkey) : bool :=
         match l, l' with
         | [], [] => true
         | x :: r, y :: r' => hkey_eqb x y && each r r'
         | _, _ => false
         end) l l'
  | HDict l, HDict l' =>
      (fix each (l l' : list (string * hkey)) : bool :=
         match l, l' with
         | [], [] => true
         | (k, x) :: r, (k', y) :: r' => String.eqb k k' && hkey_eqb x y && each r r'
         | _, _ => false
         end) l l'
  | _, _ => false
  end.

Definition same_key (a b : pyval) : bool := hkey_eqb (hash_key a) (hash_key b).

Section Pipeline.

(** [str.isprintable] of one character given by its code point: the table
    of the Unicode database that [repr] consults outside ASCII. *)
Variable isprintable : N -> bool.

Definition dquote : ascii := "034"%char.

(** The body of [repr] of a string.  [skip] counts the bytes left of a
    character already handled, kept when it was copied and dropped when it
    was escaped. *)
Fixpoint escape (quote : ascii) (skip : nat) (keep : bool) (s : string) : string :=
  match s with
  | EmptyString => EmptyString
  | String c rest =>
      match skip with
      | S n => if keep then String c (escape quote n keep rest)
               else escape quote n keep rest
      | O =>
          let '(cp, len) := Utf8.head s in
          if Ascii.eqb c quote || Ascii.eqb c "\"
          then String "\" (String c (escape quote 0 true rest))
          else if Ascii.eqb c "009" then "\t" ++ escape quote 0 true rest
          else if Ascii.eqb c "010" then "\n" ++ escape quote 0 true rest
          else if Ascii.eqb c "013" then "\r" ++ escape quote 0 true rest
          else if (cp <? 32)%N || (cp =? 127)%N
          then "\x" ++ Utf8.hex 2 cp ++ escape quote 0 true rest
          else if (cp <? 127)%N then String c (escape quote 0 true rest)
          else if isprintable cp then String c (escape quote (len - 1) true rest)
          else (if (cp <=? 255)%N then "\x" ++ Utf8.hex 2 cp
                else if (cp <=? 65535)%N then "\u" ++ Utf8.hex 4 cp
                else "\U" ++ Utf8.hex 8 cp)
               ++ escape quote (len - 1) false rest
      end
  end.

(** [repr(s)]: double quotes when the string holds a single quote and no
    double quote, single quotes otherwise. *)
Definition str_repr (s : string) : string :=
  let quote := if has_char "'" s && negb (has_char dquote s) then dquote else "'"%char in
  String quote (escape quote 0 true s ++ String quote EmptyString).

Fixpoint py_repr (v : pyval) : string :=
  match v with
  | PNone => "None"
  | PBool true => "True"
  | PBool false => "False"
  | PInt z => str_of_Z z
  | PFloat x => Float.repr x
  | PStr s => str_repr s
  | PList items => "[" ++ Str.join ", " (map py_repr items) ++ "]"
  | PDict fields =>
      "{" ++ Str.join ", "
               (map (fun '(k, x) => (str_repr k ++ ": " ++ py_repr x)%string) fields) ++ "}"
  end.

(** [str(v)] *)
Definition py_str (v : pyval) : string :=
  match v with
  | PStr s => s
  | _ => py_repr v
  end.

(** ** File discovery *)

(** A directory tree as [os.walk] sees it: the children of a directory in
    scan order, each a plain file or a directory. *)
Inductive entry : Type :=
| File
| Dir (children : list (string * entry)).

Definition exclude_dirs : list string := ["_MACOSX"; ".DS_Store"].

Definition is_file (e : entry) : bool :=
  match e with File => true | Dir _ => false end.

(** The loop over [os.walk(root)]: the JSON files of [root] itself, then the
    walk of every subdirectory that the pruning of [dirs] keeps. *)
Fixpoint walk (root : string) (e : entry) : list string :=
  match e with
  | File => []
  | Dir children =>
      let files := map fst (filter (fun c => is_file (snd c)) children) in
      map (Path.join root) (filter (fun file => Str.endswith file ".json") files)
      ++ flat_map (fun '(d, sub) =>
                     match sub with
                     | File => []
                     | Dir _ => if mem d exclude_dirs then []
                                else walk (Path.join root d) sub
                     end) children
  end.

Definition find_json_files (fs : string -> option entry) (base_dir : string)
  : list diag * list string :=
  match fs base_dir with
  | None => ([WarnNoDirectory base_dir], [])
  | Some e => ([], sort_by String.leb (walk base_dir e))
  end.

(** ** pandas frames *)

Definition row : Type := list (string * pyval).

Record DataFrame : Type := mkFrame {
  columns : list string;
  rows : list row
}.

(** The cell of a row under a label; a missing cell reads as NaN. *)
Definition cell (col : string) (r : row) : pyval :=
  match dict_get col r with
  | Some v => v
  | None => PNaN
  end.

Definition column (col : string) (df : DataFrame) : list pyval :=
  map (cell col) (rows df).

Definition has_column (col : string) (df : DataFrame) : bool :=
  mem col (columns df).

(** The labels of [pd.DataFrame(records)]: the keys of the records in order
    of first appearance. *)
Fixpoint union_keys (seen : list string) (records : list pydict) : list string :=
  match records with
  | [] => seen
  | r :: rest =>
      union_keys
        (fold_left (fun acc k => if mem k acc then acc else acc ++ [k]) (map fst r) seen)
        rest
  end.

(** How pandas stores a column. *)
Inductive dtype : Type :=
| dtype_object
| dtype_bool
| dtype_int
| dtype_float64.

Definition is_object (v : pyval) : bool :=
  match v with
  | PStr _ | PList _ | PDict _ => true
  | _ => false
  end.

Definition is_bool (v : pyval) : bool :=
  match v with PBool _ => true | _ => false end.

Definition is_int (v : pyval) : bool :=
  match v with PInt _ => true | _ => false end.

Definition is_float (v : pyval) : bool :=
  match v with PFloat _ => true | _ => false end.

Definition is_none (v : pyval) : bool :=
  match v with PNone => true | _ => false end.

Definition fits_int64 (v : pyval) : bool :=
  match v with
  | PInt z => (- 2 ^ 63 <=? z)%Z && (z <? 2 ^ 63)%Z
  | _ => true
  end.

Definition fits_uint64 (v : pyval) : bool :=
  match v with
  | PInt z => (0 <=? z)%Z && (z <? 2 ^ 64)%Z
  | _ => true
  end.

(** Type inference of one column of objects ([lib.maybe_convert_objects]).
    A string, a list or a dict makes an object column, and so does a bool
    beside anything that is not a bool, or integers that fit neither int64
    nor uint64.  Numbers with a float among them, and integers beside
    [None], are floats.  A column of [None] alone stays as it is. *)
Definition infer_dtype (cells : list pyval) : dtype :=
  if existsb is_object cells then dtype_object
  else if existsb is_bool cells
  then (if forallb is_bool cells then dtype_bool else dtype_object)
  else if negb (forallb fits_int64 cells || forallb fits_uint64 cells)
  then dtype_object
  else if existsb is_float cells || (existsb is_none cells && existsb is_int cells)
  then dtype_float64
  else if existsb is_int cells then dtype_int
  else dtype_object.

(** An integer stored in a float column. *)
Definition float_cell (v : pyval) : pyval :=
  match v with
  | PInt z => PFloat (Float.of_Z z)
  | _ => v
  end.

(** A value as a column of the given dtype stores it: in a float column an
    integer is rounded to the nearest double and [None] is NaN. *)
Definition stored (dt : dtype) (v : pyval) : pyval :=
  match dt with
  | dtype_float64 =>
      match v with
      | PNone => PNaN
      | _ => float_cell v
      end
  | _ => v
  end.

Definition DataFrame_of_records (records : list pydict) : DataFrame :=
  let cols := union_keys [] records in
  let dt := fun c => infer_dtype (map (cell c) records) in
  mkFrame cols
    (map (fun r => map (fun c => (c, stored (dt c) (cell c r))) cols) records).

(** [df.rename(columns={old: new})] *)
Definition rename_label (old new c : string) : string :=
  if String.eqb c old then new else c.

Definition rename_column (old new : string) (df : DataFrame) : DataFrame :=
  mkFrame (map (rename_label old new) (columns df))
          (map (map (fun '(c, v) => (rename_label old new c, v))) (rows df)).

(** The sort key of a cell of a string column. *)
Definition str_key (v : pyval) : string :=
  match v with
  | PStr s => s
  | _ => EmptyString
  end.

Definition row_leb (by_ : string) (a b : row) : bool :=
  String.leb (str_key (cell by_ a)) (str_key (cell by_ b)).

(** [df.sort_values(by)] for a column of strings, ascending.  pandas'
    default sort is not guaranteed to keep the order of equal keys; the model
    sorts stably. *)
Definition sort_values (by_ : string) (df : DataFrame) : result DataFrame :=
  if has_column by_ df
  then Ok (mkFrame (columns df) (sort_by (row_leb by_) (rows df)))
  else Raise (KeyError by_).

(** [keep='last']: a row stays when no later row has the same key. *)
Fixpoint keep_last (subset : string) (rs : list row) : list row :=
  match rs with
  | [] => []
  | r :: rest =>
      if existsb (fun r' => same_key (cell subset r) (cell subset r')) rest
      then keep_last subset rest
      else r :: keep_last subset rest
  end.

(** [df.drop_duplicates(subset=subset, keep='last')]: an empty frame is
    returned as it is; a missing label raises [KeyError].  The hash table of
    the column takes every cell, a list or a dict as well. *)
Definition drop_duplicates (subset : string) (df : DataFrame) : result DataFrame :=
  match rows df, columns df with
  | [], _ | _, [] => Ok df
  | _, _ =>
      if negb (has_column subset df) then Raise (KeyError subset)
      else Ok (mkFrame (columns df) (keep_last subset (rows df)))
  end.

(** [df[col] = value] for a new label. *)
Definition add_column (col : string) (v : pyval) (df : DataFrame) : DataFrame :=
  mkFrame (columns df ++ [col]) (map (fun r => r ++ [(col, v)]) (rows df)).

(** [df[cols]] *)
Fixpoint first_missing (cols : list string) (df : DataFrame) : option string :=
  match cols with
  | [] => None
  | c :: rest => if has_column c df then first_missing rest df else Some c
  end.

Definition select_columns (cols : list string) (df : DataFrame) : result DataFrame :=
  match first_missing cols df with
  | Some c => Raise (KeyError c)
  | None => Ok (mkFrame cols (map (fun r => map (fun c => (c, cell c r)) cols) (rows df)))
  end.

(** [df[col] = df[col].astype(str)] *)
Definition astype_row (col : string) (r : row) : row :=
  map (fun '(c, v) => if String.eqb c col then (c, PStr (py_str v)) else (c, v)) r.

Definition astype_str (col : string) (df : DataFrame) : DataFrame :=
  mkFrame (columns df) (map (astype_row col) (rows df)).

(** A left join of rows: every left row, in order, once for each right row it
    matches, or once with the cells of [unmatched] when it matches none. *)
Definition join_one (matches : row -> row -> bool)
           (matched : row -> row -> row) (unmatched : row -> row)
           (right : list row) (l : row) : list row :=
  match filter (matches l) right with
  | [] => [unmatched l]
  | ms => map (matched l) ms
  end.

Definition left_join_rows (matches : row -> row -> bool)
           (matched : row -> row -> row) (unmatched : row -> row)
           (left right : list row) : list row :=
  flat_map (join_one matches matched unmatched right) left.

(** The labels [pd.merge] takes from the right frame: when both keys have the
    same label the right key column is dropped. *)
Definition right_labels (left_on right_on : string) (right : DataFrame) : list string :=
  if String.eqb left_on right_on
  then filter (fun c => negb (String.eqb c right_on)) (columns right)
  else columns right.

(** A label present on both sides gets the suffix [_x] on the left and [_y]
    on the right. *)
Definition suffixed (suffix : string) (left_cols right_cols : list string)
           (c : string) : string :=
  if mem c left_cols && mem c right_cols then (c ++ suffix)%string else c.

(** [Index.duplicated()]: every occurrence of a label after its first. *)
Fixpoint duplicated (seen labels : list string) : list bool :=
  match labels with
  | [] => []
  | c :: rest => mem c seen :: duplicated (c :: seen) rest
  end.

(** Whether the suffixes repeat a label that was not repeated before: on
    either side, a label that is a duplicate after the renaming at a place
    where it was not one before. *)
Definition new_duplicates (labels renamed : list string) : bool :=
  existsb (fun '(now, before) => now && negb before)
          (combine (duplicated [] renamed) (duplicated [] labels)).

Definition suffix_clash (left_cols right_cols : list string) : bool :=
  new_duplicates left_cols (map (suffixed "_x" left_cols right_cols) left_cols)
  || new_duplicates right_cols (map (suffixed "_y" left_cols right_cols) right_cols).

Definition left_cells (left_cols right_cols : list string) (l : row) : row :=
  map (fun c => (suffixed "_x" left_cols right_cols c, cell c l)) left_cols.

Definition right_cells (left_cols right_cols : list string) (r : row) : row :=
  map (fun c => (suffixed "_y" left_cols right_cols c, cell c r)) right_cols.

Definition null_cells (left_cols right_cols : list string) : row :=
  map (fun c => (suffixed "_y" left_cols right_cols c, PNaN)) right_cols.

Definition merged_labels (left_cols right_cols : list string) : list string :=
  map (suffixed "_x" left_cols right_cols) left_cols
  ++ map (suffixed "_y" left_cols right_cols) right_cols.

(** The columns of a frame that hold integers only. *)
Definition int_columns (df : DataFrame) : list string :=
  filter (fun c => match infer_dtype (column c df) with
                   | dtype_int => true
                   | _ => false
                   end) (columns df).

(** A row with its cells under the given labels stored as floats. *)
Definition promote (cols : list string) (r : row) : row :=
  map (fun '(c, v) => if mem c cols then (c, float_cell v) else (c, v)) r.

(** [pd.merge(left, right, left_on=left_on, right_on=right_on, how='left')]
    for key columns of strings.  A key label that is not a column raises
    [KeyError]; suffixes that repeat a label raise [MergeError].  Rows keep
    the order of [left]; a left row without a match gets NaN under every
    right label, and when there is such a row the integer columns of
    [right] come out as floats.  Keys are compared as the hash table
    compares them. *)
Definition pd_merge_left (left right : DataFrame) (left_on right_on : string)
  : result DataFrame :=
  if negb (has_column right_on right) then Raise (KeyError right_on)
  else if negb (has_column left_on left) then Raise (KeyError left_on)
  else
    let left_cols := columns left in
    let right_cols := right_labels left_on right_on right in
    if suffix_clash left_cols right_cols then Raise MergeError
    else
      let matches := fun l r => same_key (cell left_on l) (cell right_on r) in
      let float_cols :=
        if forallb (fun l => existsb (matches l) (rows right)) (rows left)
        then [] else int_columns right in
      Ok (mkFrame
            (merged_labels left_cols right_cols)
            (left_join_rows
               matches
               (fun l r => left_cells left_cols right_cols l
                           ++ right_cells left_cols right_cols (promote float_cols r))
               (fun l => left_cells left_cols right_cols l
                         ++ null_cells left_cols right_cols)
               (rows left) (rows right))).

(** ** Merge and normalise *)

(** [item['category'] = category]: only a dict supports item assignment. *)
Definition set_category (category : string) (item : pyval) : result pydict :=
  match item with
  | PDict d => Ok (dict_set "category" (PStr category) d)
  | _ => Raise TypeError
  end.

Fixpoint tag_all (category : string) (items : list pyval) : result (list pydict) :=
  match items with
  | [] => Ok []
  | item :: rest =>
      d <- set_category category item ;;
      ds <- tag_all category rest ;;
      Ok (d :: ds)
  end.

(** [for item in data: item['category'] = category], followed by what
    [all_records.extend(data)] will add.  A list is tagged item by item.  An
    empty dict and an empty string iterate over nothing.  A non-empty dict or
    string iterates over strings, which refuse item assignment; any other
    value is not iterable. *)
Definition tag_items (category : string) (data : pyval) : result (list pydict) :=
  match data with
  | PList items => tag_all category items
  | PDict [] => Ok []
  | PStr EmptyString => Ok []
  | _ => Raise TypeError
  end.

Definition category_of (file_path : string) : string :=
  let filename := Path.basename file_path in
  fst (Path.splitext filename).

(** The body of the [try] for one file.  [load] is the outcome of
    [open(file_path)] followed by [json.load]. *)
Definition ingest_file (load : string -> result pyval) (file_path : string)
  : result (list pydict) :=
  data <- load file_path ;;
  tag_items (category_of file_path) data.

(** The loop over [json_files]: the log and [all_records]. *)
Fixpoint collect (load : string -> result pyval) (json_files : list string)
  : list diag * list pydict :=
  match json_files with
  | [] => ([], [])
  | file_path :: rest =>
      let (log, records) := collect load rest in
      match ingest_file load file_path with
      | Ok data => (Processed file_path (List.length data) :: log, data ++ records)
      | Raise e => (ErrorProcessing file_path e :: log, records)
      end
  end.

Definition all_records (load : string -> result pyval) (json_files : list string)
  : list pydict :=
  snd (collect load json_files).

Definition required_columns : list string := ["sku"; "name"; "brand"; "category"].

(** [pd.DataFrame(all_records)] and the rename of [id] to [sku]. *)
Definition ingested_frame (records : list pydict) : DataFrame :=
  let df := DataFrame_of_records records in
  if has_column "id" df && negb (has_column "sku" df)
  then rename_column "id" "sku" df
  else df.

(** The loop that creates each missing required column. *)
Fixpoint ensure_columns (cols : list string) (df : DataFrame) : list diag * DataFrame :=
  match cols with
  | [] => ([], df)
  | col :: rest =>
      if has_column col df then ensure_columns rest df
      else
        let (log, df') := ensure_columns rest (add_column col (PStr "") df) in
        (WarnMissingColumn col :: log, df')
  end.

Definition merge_json_files (load : string -> result pyval) (json_files : list string)
  : list diag * result DataFrame :=
  let (log, records) := collect load json_files in
  let df := ingested_frame records in
  match (sorted <- sort_values "category" df ;;
         drop_duplicates "sku" sorted) with
  | Raise e => (log, Raise e)
  | Ok df =>
      let (warnings, df) := ensure_columns required_columns df in
      (log ++ warnings, select_columns required_columns df)
  end.

(** ** Join *)

Definition resolve_join_column (cols : list string) : string * list diag :=
  if mem "product_sku" cols then ("product_sku", [])
  else
    match filter (fun col => Str.contains "sku" (Str.lower col)) cols with
    | candidate :: _ => (candidate, [UsingColumn candidate])
    | [] => ("product_sku", [WarnNoProductSku; AvailableColumns cols])
    end.

(** A call of [join_csv_files]: what it printed, the caller's catalog frame
    as the call leaves it, and the frame returned or the exception raised. *)
Record join_run : Type := mkRun {
  join_log : list diag;
  merged_df_after : DataFrame;
  joined : result DataFrame
}.

Definition join_csv_files (read_csv : string -> result DataFrame)
           (merged_df : DataFrame) (input_csv_path : string) : join_run :=
  match read_csv input_csv_path with
  | Raise e => mkRun [] merged_df (Raise e)
  | Ok input_df =>
      let (join_column, log) := resolve_join_column (columns input_df) in
      let input_df :=
        if has_column join_column input_df
        then astype_str join_column input_df else input_df in
      let merged_df :=
        if has_column "sku" merged_df
        then astype_str "sku" merged_df else merged_df in
      mkRun log merged_df (pd_merge_left input_df merged_df join_column "sku")
  end.

(** ** The driver *)

(** What [main] prints: the lines of the stages it calls and its own. *)
Inductive event : Type :=
| Stage (d : diag)
| WarnInputNotFound (path : string)
| FoundInput (path : string)
| FoundJsonFiles (n : nat)
| ListedFile (file_path : string)
| NoJsonFiles
| MergedSaved (path : string)
| JoinedSaved (path : string)
| RowCounts (input_rows output_rows : nat).

(** The first result of [f] over a list, as a loop with [break] finds it. *)
Definition first_some {A B : Type} (f : A -> option B) : list A -> option B :=
  fix go (l : list A) : option B :=
    match l with
    | [] => None
    | x :: rest =>
        match f x with
        | Some b => Some b
        | None => go rest
        end
    end.

(** The search loop of [main]: [os.walk(root)] top-down, no pruning, stopped
    at the first directory whose files include [name]. *)
Fixpoint locate (name root : string) (e : entry) : option string :=
  match e with
  | File => None
  | Dir children =>
      if mem name (map fst (filter (fun c => is_file (snd c)) children))
      then Some (Path.join root name)
      else first_some (fun '(d, sub) =>
                         match sub with
                         | File => None
                         | Dir _ => locate name (Path.join root d) sub
                         end) children
  end.

(** Where [main] will read the external CSV from. *)
Definition resolve_input_csv (fs : string -> option entry) : string * list event :=
  let input_csv_path := "input.csv" in
  match fs input_csv_path with
  | Some _ => (input_csv_path, [])
  | None =>
      match match fs "." with
            | Some e => locate "input.csv" "." e
            | None => None
            end with
      | Some found => (found, [WarnInputNotFound input_csv_path; FoundInput found])
      | None => (input_csv_path, [WarnInputNotFound input_csv_path])
      end
  end.

(** The JSON files [main] will merge: those of the data directory, or, when
    there are none, those of the whole working directory. *)
Definition discover (fs : string -> option entry) : list event * list string :=
  let (log, all_json_files) := find_json_files fs "data" in
  match all_json_files with
  | [] =>
      let (log', all_json_files') := find_json_files fs "." in
      (map Stage (log ++ log'), all_json_files')
  | _ => (map Stage log, all_json_files)
  end.

(** A run of [main]: what it printed, the frames it wrote with [to_csv], oldest
    first, and the exception that ended it, if any.  Writing is taken to
    succeed. *)
Record main_run : Type := mkMain {
  main_log : list event;
  written : list (string * DataFrame);
  main_raised : option exn
}.

Definition main (fs : string -> option entry) (load : string -> result pyval)
           (read_csv : string -> result DataFrame) : main_run :=
  let merged_output_path := "merged_output.csv" in
  let joined_output_path := "joined_output.csv" in
  let (input_csv_path, log0) := resolve_input_csv fs in
  let (log1, all_json_files) := discover fs in
  match all_json_files with
  | [] => mkMain (log0 ++ log1 ++ [NoJsonFiles]) [] None
  | _ :: _ =>
      let log2 := log0 ++ log1
                  ++ FoundJsonFiles (List.length all_json_files)
                     :: map ListedFile all_json_files in
      let (merge_log, merged) := merge_json_files load all_json_files in
      match merged with
      | Raise e => mkMain (log2 ++ map Stage merge_log) [] (Some e)
      | Ok merged_df =>
          let log3 := log2 ++ map Stage merge_log ++ [MergedSaved merged_output_path] in
          let run := join_csv_files read_csv merged_df input_csv_path in
          match joined run with
          | Raise e =>
              mkMain (log3 ++ map Stage (join_log run))
                     [(merged_output_path, merged_df)] (Some e)
          | Ok joined_df =>
              let log4 := log3 ++ map Stage (join_log run)
                          ++ [JoinedSaved joined_output_path] in
              match read_csv input_csv_path with
              | Raise e =>
                  mkMain log4 [(merged_output_path, merged_df);
                               (joined_output_path, joined_df)] (Some e)
              | Ok input_df =>
                  mkMain (log4 ++ [RowCounts (List.length (rows input_df))
                                             (List.length (rows joined_df))])
                         [(merged_output_path, merged_df);
                          (joined_output_path, joined_df)] None
              end
          end
      end
  end.

(** ** Statements of the specification *)

(** The paths the discovery contract asks for: a file whose name ends in
    [.json], reached from the base directory without entering a directory
    named [_MACOSX] or [.DS_Store]. *)
Inductive json_under : string -> entry -> string -> Prop :=
| json_here root children name :
    In (name, File) children ->
    Str.endswith name ".json" = true ->
    name <> ".DS_Store" ->
    json_under root (Dir children) (Path.join root name)
| json_below root children d sub p :
    In (d, Dir sub) children ->
    d <> "_MACOSX" ->
    d <> ".DS_Store" ->
    json_under (Path.join root d) (Dir sub) p ->
    json_under root (Dir children) p.

(** Every row of a frame carries exactly the labels of the frame. *)
Definition wf_frame (df : DataFrame) : Prop :=
  Forall (fun r => map fst r = columns df) (rows df).

(** The row of the catalog table made from a row [r] of the frame [df]: the
    cells under the four required labels, a label that [df] lacks read as
    the empty string. *)
Definition output_row (df : DataFrame) (r : row) : row :=
  map (fun c => (c, if has_column c df then cell c r else PStr ""))
      required_columns.

(** The frame after [added] has been created, each label filled with [""]. *)
Definition extend_frame (added : list string) (df : DataFrame) : DataFrame :=
  mkFrame (columns df ++ added)
          (map (fun r => r ++ map (fun c => (c, PStr "")) added) (rows df)).

(** Deduplication by [sku] as the specification words it, between the
    frame [df] that enters the sort and the catalog table [out]: one row for
    each sku of [df], no sku twice, and the row kept for a sku is a row of
    [df] whose category is greatest among the rows of [df] with that sku.
    Two cells are the same sku when [same_key] says so.  The last two parts
    are the groups of the rows without a sku value: at most one row whose
    sku is NaN, the cell of a record with no sku field, and at most one
    whose sku is [None]. *)
Definition keeps_greatest_per_sku (df out : DataFrame) : Prop :=
  columns out = required_columns
  /\ NoDup (map (fun o => hash_key (cell "sku" o)) (rows out))
  /\ (forall r, In r (rows df) ->
       exists o, In o (rows out) /\ same_key (cell "sku" r) (cell "sku" o) = true)
  /\ (forall o, In o (rows out) ->
       exists r, In r (rows df) /\ o = output_row df r
                 /\ forall r', In r' (rows df) ->
                               same_key (cell "sku" r') (cell "sku" r) = true ->
                               exists c' c, cell "category" r' = PStr c'
                                            /\ cell "category" r = PStr c
                                            /\ String.leb c' c = true)
  /\ (forall o1 o2, In o1 (rows out) -> In o2 (rows out) ->
                    cell "sku" o1 = PNaN -> cell "sku" o2 = PNaN -> o1 = o2)
  /\ (forall o1 o2, In o1 (rows out) -> In o2 (rows out) ->
                    cell "sku" o1 = PNone -> cell "sku" o2 = PNone -> o1 = o2).

(** When two cells are the same sku: two strings when they are the same
    string, two integers when they are the same integer, a string and an
    integer never; [None] only with [None] and NaN only with NaN; two lists
    when they have the same length and the same items, place by place. *)
Definition same_key_is_equality : Prop :=
  (forall a b : string, same_key (PStr a) (PStr b) = true <-> a = b)
  /\ (forall a b : Z, same_key (PInt a) (PInt b) = true <-> a = b)
  /\ (forall (s : string) (z : Z), same_key (PStr s) (PInt z) = false)
  /\ (forall v, same_key PNone v = true <-> v = PNone)
  /\ (forall v, same_key PNaN v = true <-> v = PNaN)
  /\ (forall l l' : list pyval,
         same_key (PList l) (PList l') = true
         <-> Forall2 (fun a b => same_key a b = true) l l').

(** What [merge_json_files] does once the loop has collected the records:
    the warnings it prints and what it returns. *)
Definition finish (records : list pydict) : list diag * result DataFrame :=
  let df := ingested_frame records in
  match (sorted <- sort_values "category" df ;;
         drop_duplicates "sku" sorted) with
  | Raise e => ([], Raise e)
  | Ok df =>
      let (warnings, df) := ensure_columns required_columns df in
      (warnings, select_columns required_columns df)
  end.

(** The files of property P3. *)
Definition p3_load (file_path : string) : result pyval :=
  if String.eqb file_path "data/electronics.json"
  then Ok (PList [PDict [("id", PInt 1); ("name", PStr "X")]])
  else if String.eqb file_path "data/home.json"
  then Ok (PList [PDict [("id", PInt 1); ("name", PStr "Y")]])
  else Raise OSError.

Definition p3_files : list string := ["data/electronics.json"; "data/home.json"].

(** Inputs with nothing to merge: one file is malformed, the other holds an
    empty list. *)
Definition empty_load (file_path : string) : result pyval :=
  if String.eqb file_path "data/broken.json" then Raise JSONDecodeError
  else if String.eqb file_path "data/none.json" then Ok (PList [])
  else Raise OSError.

(** A file whose records have neither [sku] nor [id]. *)
Definition no_sku_load (file_path : string) : result pyval :=
  if String.eqb file_path "data/tools.json"
  then Ok (PList [PDict [("name", PStr "Hammer"); ("brand", PStr "Acme")]])
  else Raise OSError.

(** Inputs of property P8: the catalog holds the sku ["100"] as a string, the
    external CSV holds the key [100] as an integer. *)
Definition p8_catalog : DataFrame :=
  mkFrame required_columns
          [[("sku", PStr "100"); ("name", PStr "Widget"); ("brand", PStr "Acme");
            ("category", PStr "tools")]].

Definition p8_csv (input_csv_path : string) : result DataFrame :=
  if String.eqb input_csv_path "input.csv"
  then Ok (mkFrame ["product_sku"; "qty"]
                   [[("product_sku", PInt 100); ("qty", PInt 2)]])
  else Raise OSError.

(** An external CSV without any column that looks like a sku. *)
Definition no_key_csv (input_csv_path : string) : result DataFrame :=
  if String.eqb input_csv_path "input.csv"
  then Ok (mkFrame ["code"; "qty"] [[("code", PInt 100); ("qty", PInt 2)]])
  else Raise OSError.

(** Two files whose skus differ as values, the integer [1] and the string
    ["1"], and an external CSV with the single key [1]. *)
Definition mixed_load (file_path : string) : result pyval :=
  if String.eqb file_path "data/a.json"
  then Ok (PList [PDict [("sku", PInt 1); ("name", PStr "A"); ("brand", PStr "P")]])
  else if String.eqb file_path "data/b.json"
  then Ok (PList [PDict [("sku", PStr "1"); ("name", PStr "B"); ("brand", PStr "Q")]])
  else Raise OSError.

Definition one_key_csv (input_csv_path : string) : result DataFrame :=
  if String.eqb input_csv_path "input.csv"
  then Ok (mkFrame ["product_sku"] [[("product_sku", PInt 1)]])
  else Raise OSError.

(** The comparison of keys as the specification words it: an external row
    and a catalog row match when the text of the external key is the text of
    the catalog's sku. *)
Definition text_keys_match (join_column : string) (l r : row) : bool :=
  String.eqb (py_str (cell join_column l)) (py_str (cell "sku" r)).

(** The same loaded value with every record's own [category] field, where
    it has one, set to [v]. *)
Definition with_own_category (v : pyval) (data : pyval) : pyval :=
  match data with
  | PList items =>
      PList (map (fun item =>
                    match item with
                    | PDict d => if mem "category" (map fst d)
                                 then PDict (dict_set "category" v d) else item
                    | _ => item
                    end) items)
  | _ => data
  end.

Definition load_with_own_category (v : pyval) (load : string -> result pyval)
           (file_path : string) : result pyval :=
  match load file_path with
  | Ok data => Ok (with_own_category v data)
  | Raise e => Raise e
  end.

(** A source record that brings a category of its own. *)
Definition legacy_load (file_path : string) : result pyval :=
  if String.eqb file_path "data/electronics.json"
  then Ok (PList [PDict [("id", PInt 7); ("category", PStr "legacy");
                         ("name", PStr "Radio")]])
  else Raise OSError.

(** Three files, the second of which holds an object instead of a list. *)
Definition shape_load (file_path : string) : result pyval :=
  if String.eqb file_path "data/a.json"
  then Ok (PList [PDict [("id", PInt 1); ("name", PStr "Widget")]])
  else if String.eqb file_path "data/bad.json"
  then Ok (PDict [("products", PList [])])
  else if String.eqb file_path "data/c.json"
  then Ok (PList [PDict [("id", PInt 2); ("name", PStr "Gadget")]])
  else Raise OSError.

(** The end-to-end example of the specification: two files with one product
    each and an external CSV with the keys 1, 2 and 3. *)
Definition e2e_load (file_path : string) : result pyval :=
  if String.eqb file_path "data/a.json"
  then Ok (PList [PDict [("id", PInt 1); ("name", PStr "Widget");
                         ("brand", PStr "Acme")]])
  else if String.eqb file_path "data/b.json"
  then Ok (PList [PDict [("id", PInt 2); ("name", PStr "Gadget");
                         ("brand", PStr "Zenith")]])
  else Raise OSError.

Definition e2e_csv (input_csv_path : string) : result DataFrame :=
  if String.eqb input_csv_path "input.csv"
  then Ok (mkFrame ["product_sku"]
                   [[("product_sku", PInt 1)]; [("product_sku", PInt 2)];
                    [("product_sku", PInt 3)]])
  else Raise OSError.

(** A record whose sku is a list. *)
Definition nested_sku_load (file_path : string) : result pyval :=
  if String.eqb file_path "data/kits.json"
  then Ok (PList [PDict [("sku", PList [PInt 1; PInt 2]); ("name", PStr "Kit")]])
  else Raise OSError.

(** Two files, each with a record whose sku is the list [1, 2]. *)
Definition kits_load (file_path : string) : result pyval :=
  if String.eqb file_path "data/a.json"
  then Ok (PList [PDict [("sku", PList [PInt 1; PInt 2]); ("name", PStr "Kit")]])
  else if String.eqb file_path "data/b.json"
  then Ok (PList [PDict [("sku", PList [PInt 1; PInt 2]); ("name", PStr "Set")]])
  else Raise OSError.

(** One file with three records: a sku, a null sku and no sku field. *)
Definition null_sku_load (file_path : string) : result pyval :=
  if String.eqb file_path "data/a.json"
  then Ok (PList [PDict [("sku", PStr "A"); ("name", PStr "x")];
                  PDict [("sku", PNone); ("name", PStr "y")];
                  PDict [("name", PStr "z")]])
  else Raise OSError.

(** Two records whose ids differ by one above 2^53, and one without id. *)
Definition big_id_load (file_path : string) : result pyval :=
  if String.eqb file_path "data/a.json"
  then Ok (PList [PDict [("id", PInt 9007199254740993); ("name", PStr "p")];
                  PDict [("id", PInt 9007199254740992); ("name", PStr "q")];
                  PDict [("name", PStr "r")]])
  else Raise OSError.

(** A file whose record has an id and a file whose record has none. *)
Definition partial_id_load (file_path : string) : result pyval :=
  if String.eqb file_path "data/a.json"
  then Ok (PList [PDict [("id", PInt 1)]])
  else if String.eqb file_path "data/b.json"
  then Ok (PList [PDict [("name", PStr "B")]])
  else Raise OSError.

(** An external CSV that has both [name] and [name_x]. *)
Definition clash_csv (input_csv_path : string) : result DataFrame :=
  if String.eqb input_csv_path "input.csv"
  then Ok (mkFrame ["product_sku"; "name"; "name_x"]
                   [[("product_sku", PInt 100); ("name", PStr "n");
                     ("name_x", PStr "m")]])
  else Raise OSError.

(** A directory and a file name in it that [find_json_files] is to return:
    a file whose name ends in [.json], in a directory reached from the base
    directory without entering [_MACOSX] or [.DS_Store]. *)
Inductive json_file_in : string -> entry -> string -> string -> Prop :=
| json_file_here root children name :
    In (name, File) children ->
    Str.endswith name ".json" = true ->
    json_file_in root (Dir children) root name
| json_file_below root children d sub dir name :
    In (d, Dir sub) children ->
    mem d exclude_dirs = false ->
    json_file_in (Path.join root d) (Dir sub) dir name ->
    json_file_in root (Dir children) dir name.

(** A file named [name] somewhere in a directory tree, with its path. *)
Inductive file_under (name : string) : string -> entry -> string -> Prop :=
| file_here root children :
    In (name, File) children ->
    file_under name root (Dir children) (Path.join root name)
| file_below root children d sub p :
    In (d, Dir sub) children ->
    file_under name (Path.join root d) (Dir sub) p ->
    file_under name root (Dir children) p.

(** A working directory without [input.csv] at its top, with one in a
    subdirectory, and with JSON files under [data]. *)
Definition nested_fs (path : string) : option entry :=
  if String.eqb path "."
  then Some (Dir [("notes.txt", File);
                  ("incoming", Dir [("input.csv", File)]);
                  ("data", Dir [("a.json", File); ("b.json", File)])])
  else if String.eqb path "data"
  then Some (Dir [("a.json", File); ("b.json", File)])
  else None.

(** A working directory in which nothing exists. *)
Definition empty_fs (path : string) : option entry := None.

(** Two directory trees that hold the same entries, listed in a different
    order at any depth. *)
Inductive reordered : entry -> entry -> Prop :=
| reordered_file : reordered File File
| reordered_dir children1 children2 :
    reordered_children children1 children2 ->
    reordered (Dir children1) (Dir children2)
with reordered_children : list (string * entry) -> list (string * entry) -> Prop :=
| reordered_nil : reordered_children [] []
| reordered_skip name e1 e2 l1 l2 :
    reordered e1 e2 ->
    reordered_children l1 l2 ->
    reordered_children ((name, e1) :: l1) ((name, e2) :: l2)
| reordered_swap a b l :
    reordered_children (a :: b :: l) (b :: a :: l)
| reordered_trans l1 l2 l3 :
    reordered_children l1 l2 ->
    reordered_children l2 l3 ->
    reordered_children l1 l3.

Scheme reordered_mut := Minimality for reordered Sort Prop
  with reordered_children_mut := Minimality for reordered_children Sort Prop.

(** What one child of [root] adds to the walk. *)
Definition contribution (root : string) (c : string * entry) : list string :=
  match snd c with
  | File => if Str.endswith (fst c) ".json" then [Path.join root (fst c)] else []
  | Dir _ => if mem (fst c) exclude_dirs then []
             else walk (Path.join root (fst c)) (snd c)
  end.

(** The same working directory as [nested_fs], listed in another order. *)
Definition shuffled_fs (path : string) : option entry :=
  if String.eqb path "data"
  then Some (Dir [("b.json", File); ("a.json", File)])
  else nested_fs path.
(** * Facts *)

(** ** The model on the examples of the specification *)

Example category_of_examples :
  category_of "data/electronics.json" = "electronics"
  /\ category_of "./data/sub.dir/home.json" = "home"
  /\ category_of "a.b.json" = "a.b"
  /\ category_of ".json" = ".json"
  /\ category_of "noext" = "noext".
Proof. repeat split; reflexivity. Qed.

Example py_str_examples :
  py_str (PInt 100) = "100" /\ py_str (PInt (-5)) = "-5" /\ py_str (PInt 0) = "0"
  /\ py_str (PStr "100") = "100" /\ py_str PNaN = "nan" /\ py_str PNone = "None"
  /\ py_str (PBool true) = "True"
  /\ py_str (PFloat (Float.of_Z 1)) = "1.0"
  /\ py_str (PFloat (Float.of_Z 100)) = "100.0"
  /\ py_str (PFloat (Float.of_Z (10 ^ 16))) = "1e+16"
  /\ py_str (PFloat (S754_finite false 3 (-1))) = "1.5"
  /\ py_str (PList [PInt 1; PStr "it's"; PNone]) = ("[1, " ++ String dquote "it's" ++ String dquote ", None]")%string.
Proof. repeat split; vm_compute; reflexivity. Qed.

(** The frame of records stores a column of integers and missing values as
    floats: the id 1 beside a record without id is the float 1.0, and the
    ids 2^53 + 1 and 2^53 are the same float. *)
Example DataFrame_of_records_floats :
  column "id" (DataFrame_of_records [[("id", PInt 1)]; [("name", PStr "B")]])
  = [PFloat (Float.of_Z 1); PNaN]
  /\ column "name" (DataFrame_of_records [[("id", PInt 1)]; [("name", PStr "B")]])
     = [PNaN; PStr "B"]
  /\ column "id" (DataFrame_of_records [[("id", PInt 1)]; [("id", PInt 2)]])
     = [PInt 1; PInt 2]
  /\ column "id" (DataFrame_of_records [[("id", PInt 1)]; [("id", PNone)]])
     = [PFloat (Float.of_Z 1); PNaN]
  /\ column "id" (DataFrame_of_records [[("id", PStr "1")]; [("id", PNone)]; []])
     = [PStr "1"; PNone; PNaN]
  /\ Float.of_Z (2 ^ 53 + 1) = Float.of_Z (2 ^ 53)
  /\ same_key (PInt 1) (PFloat (Float.of_Z 1)) = true
  /\ same_key (PBool true) (PInt 1) = true
  /\ same_key (PList [PInt 1; PInt 2]) (PList [PInt 1; PFloat (Float.of_Z 2)]) = true
  /\ same_key (PList [PInt 1; PInt 2]) (PList [PInt 2; PInt 1]) = false
  /\ same_key (PDict [("a", PInt 1); ("b", PNaN)]) (PDict [("b", PNaN); ("a", PInt 1)])
     = true.
Proof. repeat split; vm_compute; reflexivity. Qed.

Example e2e_pipeline :
  merge_json_files e2e_load ["data/a.json"; "data/b.json"]
  = ([Processed "data/a.json" 1; Processed "data/b.json" 1],
     Ok (mkFrame required_columns
           [[("sku", PInt 1); ("name", PStr "Widget"); ("brand", PStr "Acme");
             ("category", PStr "a")];
            [("sku", PInt 2); ("name", PStr "Gadget"); ("brand", PStr "Zenith");
             ("category", PStr "b")]]))
  /\ forall catalog,
       snd (merge_json_files e2e_load ["data/a.json"; "data/b.json"]) = Ok catalog ->
       joined (join_csv_files e2e_csv catalog "input.csv")
       = Ok (mkFrame
               ["product_sku"; "sku"; "name"; "brand"; "category"]
               [[("product_sku", PStr "1"); ("sku", PStr "1"); ("name", PStr "Widget");
                 ("brand", PStr "Acme"); ("category", PStr "a")];
                [("product_sku", PStr "2"); ("sku", PStr "2"); ("name", PStr "Gadget");
                 ("brand", PStr "Zenith"); ("category", PStr "b")];
                [("product_sku", PStr "3"); ("sku", PNaN); ("name", PNaN);
                 ("brand", PNaN); ("category", PNaN)]]).
Proof.
  split; [reflexivity|].
  intros catalog H. injection H as <-. reflexivity.
Qed.

(** ** Sorting *)

Section SortingFacts.

Context {A : Type} (leb : A -> A -> bool).
Hypothesis leb_total : forall a b, leb a b = true \/ leb b a = true.
Hypothesis leb_trans : forall a b c, leb a b = true -> leb b c = true -> leb a c = true.

Lemma insert_sorted_perm x l : Permutation (x :: l) (insert_sorted leb x l).
Proof.
  induction l as [|y rest IH]; simpl.
  - apply Permutation_refl.
  - destruct (leb x y).
    + apply Permutation_refl.
    + eapply perm_trans; [apply perm_swap|]. now apply perm_skip.
Qed.

Lemma sort_by_perm l : Permutation l (sort_by leb l).
Proof.
  induction l as [|x rest IH]; simpl.
  - constructor.
  - eapply perm_trans; [apply perm_skip, IH|]. apply insert_sorted_perm.
Qed.

Lemma insert_sorted_strongly x l :
  StronglySorted (le_of leb) l -> StronglySorted (le_of leb) (insert_sorted leb x l).
Proof.
  induction 1 as [|y rest Hs IH Hall]; simpl.
  - repeat constructor.
  - destruct (leb x y) eqn:E.
    + constructor; [constructor; assumption|].
      constructor; [exact E|].
      eapply Forall_impl; [|exact Hall].
      intros z Hz. unfold le_of in *. eauto.
    + constructor; [exact IH|].
      assert (Hyx : leb y x = true)
        by (destruct (leb_total x y) as [H|H]; [congruence|exact H]).
      eapply Permutation_Forall; [apply insert_sorted_perm|].
      constructor; assumption.
Qed.

Lemma sort_by_strongly l : StronglySorted (le_of leb) (sort_by leb l).
Proof.
  induction l as [|x rest IH]; simpl.
  - constructor.
  - now apply insert_sorted_strongly.
Qed.

Lemma sort_by_In l x : In x (sort_by leb l) <-> In x l.
Proof.
  split; intro H.
  - eapply Permutation_in; [apply Permutation_sym, sort_by_perm|exact H].
  - eapply Permutation_in; [apply sort_by_perm|exact H].
Qed.

End SortingFacts.

Lemma ascii_compare_trans_lt a b c :
  Ascii.compare a b = Lt -> Ascii.compare b c = Lt -> Ascii.compare a c = Lt.
Proof.
  unfold Ascii.compare. rewrite !N.compare_lt_iff. lia.
Qed.

Lemma string_compare_trans_lt s1 : forall s2 s3,
  String.compare s1 s2 = Lt -> String.compare s2 s3 = Lt -> String.compare s1 s3 = Lt.
Proof.
  induction s1 as [|a s1 IH]; intros [|b s2] [|c s3]; simpl; try congruence.
  destruct (Ascii.compare a b) eqn:Hab; try discriminate;
    destruct (Ascii.compare b c) eqn:Hbc; try discriminate; intros H1 H2.
  - apply Ascii.compare_eq_iff in Hab, Hbc. subst.
    assert (Hcc : Ascii.compare c c = Eq)
      by (unfold Ascii.compare; apply N.compare_refl).
    rewrite Hcc. eauto.
  - apply Ascii.compare_eq_iff in Hab. subst. now rewrite Hbc.
  - apply Ascii.compare_eq_iff in Hbc. subst. now rewrite Hab.
  - now rewrite (ascii_compare_trans_lt _ _ _ Hab Hbc).
Qed.

Lemma string_compare_refl s : String.compare s s = Eq.
Proof.
  induction s as [|a s IH]; simpl; [reflexivity|].
  assert (Haa : Ascii.compare a a = Eq) by (unfold Ascii.compare; apply N.compare_refl).
  now rewrite Haa.
Qed.

Lemma string_leb_trans a b c :
  String.leb a b = true -> String.leb b c = true -> String.leb a c = true.
Proof.
  unfold String.leb.
  destruct (String.compare a b) eqn:Hab; try discriminate;
    destruct (String.compare b c) eqn:Hbc; try discriminate; intros _ _.
  - apply String.compare_eq_iff in Hab, Hbc. subst. now rewrite string_compare_refl.
  - apply String.compare_eq_iff in Hab. subst. now rewrite Hbc.
  - apply String.compare_eq_iff in Hbc. subst. now rewrite Hab.
  - now rewrite (string_compare_trans_lt _ _ _ Hab Hbc).
Qed.

Lemma string_leb_refl s : String.leb s s = true.
Proof. unfold String.leb. now rewrite string_compare_refl. Qed.

(** ** Membership tests *)

Lemma mem_In k l : mem k l = true <-> In k l.
Proof.
  unfold mem. rewrite existsb_exists. split.
  - intros [x [Hx Heq]]. apply String.eqb_eq in Heq. now subst.
  - intro H. exists k. split; [exact H|apply String.eqb_refl].
Qed.

Lemma mem_not_In k l : mem k l = false <-> ~ In k l.
Proof.
  rewrite <- mem_In. destruct (mem k l); split; congruence.
Qed.

(** ** File discovery *)

Section EntryInduction.

Variable P : entry -> Prop.
Hypothesis P_file : P File.
Hypothesis P_dir :
  forall children, Forall (fun c => P (snd c)) children -> P (Dir children).

Fixpoint entry_induction (e : entry) : P e :=
  match e with
  | File => P_file
  | Dir children =>
      P_dir children
        ((fix each (l : list (string * entry)) : Forall (fun c => P (snd c)) l :=
            match l with
            | [] => Forall_nil _
            | c :: rest => Forall_cons c (entry_induction (snd c)) (each rest)
            end) children)
  end.

End EntryInduction.

Lemma walk_sound e : forall root p, In p (walk root e) -> json_under root e p.
Proof.
  induction e as [|children IH] using entry_induction; intros root p Hin.
  - destruct Hin.
  - simpl in Hin. apply in_app_or in Hin. destruct Hin as [Hin|Hin].
    + apply in_map_iff in Hin. destruct Hin as [name [<- Hname]].
      apply filter_In in Hname. destruct Hname as [Hname Hext].
      apply in_map_iff in Hname. destruct Hname as [[n e] [Hn Hc]].
      simpl in Hn. subst n.
      apply filter_In in Hc. destruct Hc as [Hc Hfile].
      destruct e; [|discriminate].
      apply json_here; [exact Hc|exact Hext|].
      intro Heq. subst name. discriminate Hext.
    + apply in_flat_map in Hin. destruct Hin as [[d sub] [Hc Hp]].
      destruct sub as [|ch]; cbv beta iota in Hp; [destruct Hp|].
      match type of Hp with
      | In _ (if ?b then _ else _) => destruct b eqn:Hex
      end; [destruct Hp|].
      apply orb_false_iff in Hex. destruct Hex as [H1 H2].
      apply orb_false_iff in H2. destruct H2 as [H2 _].
      apply String.eqb_neq in H1, H2.
      rewrite Forall_forall in IH. specialize (IH _ Hc). simpl in IH.
      eapply json_below; [exact Hc|exact H1|exact H2|apply IH; exact Hp].
Qed.

Lemma walk_complete root e p : json_under root e p -> In p (walk root e).
Proof.
  induction 1 as [root children name Hc Hext _|root children d sub p Hc H1 H2 _ IH];
    simpl; apply in_or_app.
  - left. apply in_map. apply filter_In. split; [|exact Hext].
    apply in_map_iff. exists (name, File). split; [reflexivity|].
    apply filter_In. split; [exact Hc|reflexivity].
  - right. apply in_flat_map. exists (d, Dir sub). split; [exact Hc|].
    apply String.eqb_neq in H1, H2. rewrite H1, H2. exact IH.
Qed.

(** C8: a missing base directory gives a warning and the empty list; an
    existing one gives the paths of the JSON files below it, those under a
    directory named [_MACOSX] or [.DS_Store] left out, each as often as the
    walk met it, in ascending order of the full path.  Over a directory holding
    [b.json] and [a.json] the result is [a.json] before [b.json]. *)
Theorem find_json_files_contract :
  (forall (fs : string -> option entry) (base_dir : string),
      match fs base_dir with
      | None => find_json_files fs base_dir = ([WarnNoDirectory base_dir], [])
      | Some e =>
          let found := snd (find_json_files fs base_dir) in
          fst (find_json_files fs base_dir) = []
          /\ StronglySorted (fun a b => String.leb a b = true) found
          /\ Permutation (walk base_dir e) found
          /\ (forall p, In p found <-> json_under base_dir e p)
      end)
  /\ find_json_files (fun _ => Some (Dir [("b.json", File); ("a.json", File)])) "data"
     = ([], ["data/a.json"; "data/b.json"]).
Proof.
  split; [|reflexivity].
  intros fs base_dir. unfold find_json_files.
  destruct (fs base_dir) as [e|]; [|reflexivity].
  simpl. repeat split.
  - apply (sort_by_strongly String.leb String.leb_total string_leb_trans).
  - apply sort_by_perm.
  - intro Hin. apply walk_sound. now apply sort_by_In in Hin.
  - intro Hu. apply sort_by_In. now apply walk_complete.
Qed.

(** ** Dicts and cells *)

Lemma dict_get_set_same k v d : dict_get k (dict_set k v d) = Some v.
Proof.
  induction d as [|[k' v'] rest IH]; simpl.
  - now rewrite String.eqb_refl.
  - destruct (String.eqb k' k) eqn:E; simpl; rewrite E; [reflexivity|exact IH].
Qed.

Lemma dict_get_set_other k k' v d :
  k' <> k -> dict_get k' (dict_set k v d) = dict_get k' d.
Proof.
  intro Hne. induction d as [|[k0 v0] rest IH]; simpl.
  - destruct (String.eqb k k') eqn:E; [|reflexivity].
    apply String.eqb_eq in E. congruence.
  - destruct (String.eqb k0 k) eqn:E; simpl.
    + apply String.eqb_eq in E. subst k0.
      destruct (String.eqb k k') eqn:E'; [|reflexivity].
      apply String.eqb_eq in E'. congruence.
    + now rewrite IH.
Qed.

Lemma dict_set_set k v w d : dict_set k v (dict_set k w d) = dict_set k v d.
Proof.
  induction d as [|[k' v'] rest IH]; simpl.
  - now rewrite String.eqb_refl.
  - destruct (String.eqb k' k) eqn:E; simpl; rewrite E; [reflexivity|now rewrite IH].
Qed.

Lemma dict_set_keys k v d : In k (map fst (dict_set k v d)).
Proof.
  induction d as [|[k' v'] rest IH]; simpl.
  - now left.
  - destruct (String.eqb k' k) eqn:E; simpl.
    + left. now apply String.eqb_eq.
    + now right.
Qed.

Lemma dict_get_None k d : dict_get k d = None <-> ~ In k (map fst d).
Proof.
  induction d as [|[k' v'] rest IH]; simpl.
  - tauto.
  - destruct (String.eqb k' k) eqn:E.
    + apply String.eqb_eq in E. split; [discriminate|]. intro H. exfalso. auto.
    + apply String.eqb_neq in E. rewrite IH. tauto.
Qed.

Lemma dict_get_app k d d' :
  dict_get k (d ++ d') =
  match dict_get k d with Some v => Some v | None => dict_get k d' end.
Proof.
  induction d as [|[k' v'] rest IH]; simpl; [reflexivity|].
  now destruct (String.eqb k' k).
Qed.

Lemma dict_get_tabulate (f : string -> pyval) c cols :
  dict_get c (map (fun c => (c, f c)) cols) = if mem c cols then Some (f c) else None.
Proof.
  induction cols as [|c' rest IH]; simpl; [reflexivity|].
  rewrite (String.eqb_sym c c').
  destruct (String.eqb c' c) eqn:E; simpl.
  - apply String.eqb_eq in E. now subst.
  - exact IH.
Qed.

Lemma cell_tabulate (f : string -> pyval) c cols :
  cell c (map (fun c => (c, f c)) cols) = if mem c cols then f c else PNaN.
Proof.
  unfold cell. rewrite dict_get_tabulate. now destruct (mem c cols).
Qed.

(** ** Keys of the hash table *)

Section HkeyInduction.

Variable P : hkey -> Prop.
Hypothesis P_none : P HNone.
Hypothesis P_nan : P HNaN.
Hypothesis P_inf : forall s, P (HInf s).
Hypothesis P_num : forall z, P (HNum z).
Hypothesis P_frac : forall s m e, P (HFrac s m e).
Hypothesis P_str : forall s, P (HStr s).
Hypothesis P_list : forall items, Forall P items -> P (HList items).
Hypothesis P_dict :
  forall fields, Forall (fun f => P (snd f)) fields -> P (HDict fields).

Fixpoint hkey_induction (k : hkey) : P k :=
  match k with
  | HNone => P_none
  | HNaN => P_nan
  | HInf s => P_inf s
  | HNum z => P_num z
  | HFrac s m e => P_frac s m e
  | HStr s => P_str s
  | HList items =>
      P_list items
        ((fix each (l : list hkey) : Forall P l :=
            match l with
            | [] => Forall_nil _
            | x :: rest => Forall_cons x (hkey_induction x) (each rest)
            end) items)
  | HDict fields =>
      P_dict fields
        ((fix each (l : list (string * hkey)) : Forall (fun f => P (snd f)) l :=
            match l with
            | [] => Forall_nil _
            | f :: rest => Forall_cons f (hkey_induction (snd f)) (each rest)
            end) fields)
  end.

End HkeyInduction.

Lemma hkey_eqb_eq a : forall b, hkey_eqb a b = true <-> a = b.
Proof.
  induction a as [| |s|z|s m e|s|items IH|fields IH] using hkey_induction;
    intros [| |s'|z'|s' m' e'|s'|items'|fields']; simpl;
    try (split; [discriminate|discriminate]); try tauto.
  - rewrite Bool.eqb_true_iff. split; congruence.
  - rewrite Z.eqb_eq. split; congruence.
  - rewrite !andb_true_iff, Bool.eqb_true_iff, Pos.eqb_eq, Z.eqb_eq.
    split; [intros [[-> ->] ->]; reflexivity|intro H; inversion H; auto].
  - rewrite String.eqb_eq. split; congruence.
  - revert items'. induction IH as [|x rest Hx _ IHrest]; intros [|y rest'];
      try (split; [discriminate|discriminate]); [tauto|].
    rewrite andb_true_iff, Hx.
    specialize (IHrest rest'). split.
    + intros [-> H]. apply IHrest in H. congruence.
    + intro H. inversion H. subst. split; [reflexivity|]. now apply IHrest.
  - revert fields'. induction IH as [|[k x] rest Hx _ IHrest]; intros [|[k' y] rest'];
      try (split; [discriminate|discriminate]); [tauto|].
    rewrite !andb_true_iff, String.eqb_eq. simpl in Hx. rewrite Hx.
    specialize (IHrest rest'). split.
    + intros [[-> ->] H]. apply IHrest in H. congruence.
    + intro H. inversion H. subst. split; [auto|]. now apply IHrest.
Qed.

Lemma same_key_iff a b : same_key a b = true <-> hash_key a = hash_key b.
Proof. apply hkey_eqb_eq. Qed.

Lemma same_key_refl a : same_key a a = true.
Proof. now apply same_key_iff. Qed.

Lemma same_key_sym a b : same_key a b = same_key b a.
Proof.
  destruct (same_key a b) eqn:E1, (same_key b a) eqn:E2; try reflexivity.
  - apply same_key_iff in E1. symmetry in E1. apply same_key_iff in E1. congruence.
  - apply same_key_iff in E2. symmetry in E2. apply same_key_iff in E2. congruence.
Qed.

Lemma same_key_trans a b c :
  same_key a b = true -> same_key b c = true -> same_key a c = true.
Proof. rewrite !same_key_iff. congruence. Qed.

Lemma same_key_text a b :
  same_key (PStr a) (PStr b) = String.eqb a b.
Proof. reflexivity. Qed.

Lemma float_key_cases x :
  float_key x = HNaN \/ (exists s, float_key x = HInf s)
  \/ (exists z, float_key x = HNum z) \/ (exists s m e, float_key x = HFrac s m e).
Proof.
  destruct x as [s|s| |s m e]; simpl.
  - right. right. left. eauto.
  - right. left. eauto.
  - now left.
  - destruct (Float.odd_part m e) as [m' e'].
    destruct (0 <=? e')%Z; [right; right; left; eauto|right; right; right; eauto].
Qed.

Lemma float_key_nan x : float_key x = HNaN -> x = S754_nan.
Proof.
  destruct x as [s|s| |s m e]; simpl; try discriminate; [reflexivity|].
  destruct (Float.odd_part m e) as [m' e']. destruct (0 <=? e')%Z; discriminate.
Qed.

Lemma same_key_equality : same_key_is_equality.
Proof.
  unfold same_key_is_equality. repeat split.
  - intro H. now apply String.eqb_eq in H.
  - intros ->. apply same_key_refl.
  - intro H. now apply Z.eqb_eq in H.
  - intros ->. apply same_key_refl.
  - intro H. apply same_key_iff in H. destruct v; simpl in H; try discriminate.
    + reflexivity.
    + destruct (float_key_cases x) as [E|[[s E]|[[z E]|[s [m [e E]]]]]];
        rewrite E in H; discriminate.
  - intros ->. reflexivity.
  - intro H. apply same_key_iff in H. destruct v; simpl in H; try discriminate.
    symmetry in H. apply float_key_nan in H. now subst.
  - intros ->. reflexivity.
  - intro H. apply same_key_iff in H. cbn [hash_key] in H. injection H as H.
    revert l' H. induction l as [|a l IH]; intros [|b l'] H; try discriminate;
      constructor.
    + apply same_key_iff. now injection H.
    + apply IH. now injection H.
  - intro H. apply same_key_iff. cbn [hash_key]. f_equal.
    induction H as [|a b l l' Hab _ IH]; [reflexivity|].
    cbn [map]. apply same_key_iff in Hab. now rewrite Hab, IH.
Qed.

(** ** [keep='last'] *)

Section KeepLast.

Variable subset : string.
Let key (r : row) : pyval := cell subset r.

Lemma keep_last_In r rs : In r (keep_last subset rs) -> In r rs.
Proof.
  induction rs as [|x rest IH]; simpl; [tauto|].
  destruct (existsb _ rest); simpl; intuition.
Qed.

Lemma keep_last_NoDup rs :
  NoDup (map (fun r => hash_key (key r)) (keep_last subset rs)).
Proof.
  induction rs as [|x rest IH]; simpl; [constructor|].
  destruct (existsb _ rest) eqn:E; [exact IH|].
  simpl. constructor; [|exact IH].
  intro Hin. apply in_map_iff in Hin. destruct Hin as [o [Hk Ho]].
  apply keep_last_In in Ho.
  assert (Hsame : same_key (cell subset x) (cell subset o) = true)
    by (apply same_key_iff; symmetry; exact Hk).
  assert (Hex : existsb (fun r' => same_key (cell subset x) (cell subset r')) rest = true)
    by (apply existsb_exists; eauto).
  congruence.
Qed.

Lemma keep_last_covers rs :
  forall r, In r rs ->
  exists o, In o (keep_last subset rs) /\ same_key (key r) (key o) = true.
Proof.
  induction rs as [|x rest IH]; simpl; [tauto|].
  intros r Hin.
  assert (Hrestcase : forall r', In r' rest ->
            exists o, In o (if existsb (fun r' => same_key (cell subset x) (cell subset r')) rest
                            then keep_last subset rest
                            else x :: keep_last subset rest)
                      /\ same_key (key r') (key o) = true).
  { intros r' Hr'. destruct (IH _ Hr') as [o [Ho Hs]].
    exists o. split; [|exact Hs]. destruct (existsb _ rest); simpl; auto. }
  destruct Hin as [<-|Hin]; [|now apply Hrestcase].
  destruct (existsb _ rest) eqn:E.
  - apply existsb_exists in E. destruct E as [r' [Hr' Hs]].
    destruct (IH _ Hr') as [o [Ho Hs']].
    exists o. split; [exact Ho|]. eapply same_key_trans; [exact Hs|exact Hs'].
  - exists x. split; [now left|]. apply same_key_refl.
Qed.

Variable leb : row -> row -> bool.
Hypothesis leb_refl : forall a, leb a a = true.

(** In a sorted list the row kept for a key is a greatest row of that key. *)
Lemma keep_last_greatest rs o r :
  StronglySorted (le_of leb) rs ->
  In o (keep_last subset rs) ->
  In r rs ->
  same_key (key r) (key o) = true ->
  leb r o = true.
Proof.
  induction 1 as [|x rest Hs IH Hall]; simpl; [tauto|].
  rewrite Forall_forall in Hall.
  intros Ho Hr Hsame.
  destruct (existsb _ rest) eqn:E.
  - destruct Hr as [<-|Hr]; [|now apply IH].
    apply Hall. now apply keep_last_In.
  - destruct Ho as [<-|Ho].
    + destruct Hr as [<-|Hr]; [apply leb_refl|].
      exfalso. rewrite same_key_sym in Hsame.
      assert (Hex : existsb (fun r' => same_key (cell subset x) (cell subset r')) rest = true)
        by (apply existsb_exists; eauto).
      congruence.
    + destruct Hr as [<-|Hr]; [|now apply IH].
      apply Hall. now apply keep_last_In.
Qed.

End KeepLast.

(** ** The loop over the files *)

Lemma tag_all_In category items ds :
  tag_all category items = Ok ds ->
  forall d, In d ds ->
  exists d0, In (PDict d0) items /\ d = dict_set "category" (PStr category) d0.
Proof.
  revert ds. induction items as [|item rest IH]; simpl; intros ds H d Hd.
  - inversion H. subst. destruct Hd.
  - destruct item; simpl in H; try discriminate.
    destruct (tag_all category rest) as [ds'|e] eqn:E; simpl in H; [|discriminate].
    inversion H. subst ds. destruct Hd as [<-|Hd].
    + eexists. split; [now left|reflexivity].
    + destruct (IH ds' eq_refl d Hd) as [d0 [Hin Heq]].
      exists d0. split; [now right|exact Heq].
Qed.

Lemma ingest_file_In load file_path ds :
  ingest_file load file_path = Ok ds ->
  forall d, In d ds ->
  exists items d0,
    load file_path = Ok (PList items) /\ In (PDict d0) items
    /\ d = dict_set "category" (PStr (category_of file_path)) d0.
Proof.
  unfold ingest_file. destruct (load file_path) as [data|e]; simpl; [|discriminate].
  intros H d Hd.
  destruct data as [| | | |s|items|fields]; simpl in H; try discriminate.
  - destruct s; [|discriminate]. inversion H. subst. destruct Hd.
  - destruct (tag_all_In _ _ _ H d Hd) as [d0 [Hin Heq]]. eauto.
  - destruct fields; [|discriminate]. inversion H. subst. destruct Hd.
Qed.

Lemma collect_cons load file_path rest :
  collect load (file_path :: rest) =
  match ingest_file load file_path with
  | Ok data => (Processed file_path (List.length data) :: fst (collect load rest),
                data ++ snd (collect load rest))
  | Raise e => (ErrorProcessing file_path e :: fst (collect load rest),
                snd (collect load rest))
  end.
Proof.
  simpl. destruct (collect load rest) as [log records].
  now destruct (ingest_file load file_path).
Qed.

Lemma collect_app load l1 l2 :
  collect load (l1 ++ l2) =
  (fst (collect load l1) ++ fst (collect load l2),
   snd (collect load l1) ++ snd (collect load l2)).
Proof.
  induction l1 as [|f rest IH].
  - simpl. now destruct (collect load l2).
  - rewrite <- app_comm_cons, !collect_cons, IH.
    destruct (ingest_file load f); simpl; [now rewrite app_assoc|reflexivity].
Qed.

Lemma all_records_In load json_files d :
  In d (all_records load json_files) ->
  exists file_path items d0,
    In file_path json_files /\ load file_path = Ok (PList items)
    /\ In (PDict d0) items
    /\ d = dict_set "category" (PStr (category_of file_path)) d0.
Proof.
  unfold all_records. induction json_files as [|f rest IH]; [intros []|].
  rewrite collect_cons.
  destruct (ingest_file load f) as [data|e] eqn:E; simpl; intro Hin.
  - apply in_app_or in Hin. destruct Hin as [Hin|Hin].
    + destruct (ingest_file_In _ _ _ E d Hin) as [items [d0 [H1 [H2 H3]]]].
      exists f, items, d0. auto.
    + destruct (IH Hin) as [f' [items [d0 [H0 H]]]].
      exists f', items, d0. split; [now right|exact H].
  - destruct (IH Hin) as [f' [items [d0 [H0 H]]]].
    exists f', items, d0. split; [now right|exact H].
Qed.

Lemma all_records_category load json_files d :
  In d (all_records load json_files) ->
  exists file_path,
    In file_path json_files
    /\ dict_get "category" d = Some (PStr (category_of file_path)).
Proof.
  intro Hin. destruct (all_records_In _ _ _ Hin) as [f [items [d0 [Hf [_ [_ ->]]]]]].
  exists f. split; [exact Hf|apply dict_get_set_same].
Qed.

Lemma all_records_tagged load json_files rec :
  In rec (all_records load json_files) ->
  exists s, dict_get "category" rec = Some (PStr s).
Proof.
  intro Hrec. destruct (all_records_category _ _ _ Hrec) as [f [_ H]]. eauto.
Qed.

(** ** Building the frame *)

Lemma fold_keys_In k ks : forall seen,
  In k (fold_left (fun acc k => if mem k acc then acc else acc ++ [k]) ks seen)
  <-> In k seen \/ In k ks.
Proof.
  induction ks as [|k' rest IH]; intro seen; simpl; [tauto|].
  rewrite IH. destruct (mem k' seen) eqn:E.
  - apply mem_In in E. split; [tauto|]. intros [H|[<-|H]]; auto.
  - rewrite in_app_iff. simpl. tauto.
Qed.

Lemma union_keys_In k records : forall seen,
  In k (union_keys seen records)
  <-> In k seen \/ exists r, In r records /\ In k (map fst r).
Proof.
  induction records as [|r rest IH]; intro seen; simpl.
  - split; [tauto|]. intros [H|[r [[] _]]]. exact H.
  - rewrite IH, fold_keys_In. split.
    + intros [[H|H]|[r' [H1 H2]]]; eauto.
    + intros [H|[r' [[<-|H1] H2]]]; eauto.
Qed.

Lemma rename_get old new c (r : row) :
  c <> old -> c <> new ->
  dict_get c (map (fun '(c, v) => (rename_label old new c, v)) r) = dict_get c r.
Proof.
  intros H1 H2. induction r as [|[k v] rest IH]; simpl; [reflexivity|].
  rewrite IH. unfold rename_label.
  destruct (String.eqb k old) eqn:E; [|reflexivity].
  apply String.eqb_eq in E. subst k.
  apply not_eq_sym in H1, H2.
  apply String.eqb_neq in H1, H2. now rewrite H1, H2.
Qed.

Lemma rename_In old new c cols :
  c <> old -> c <> new -> (In c (map (rename_label old new) cols) <-> In c cols).
Proof.
  intros H1 H2. rewrite in_map_iff. unfold rename_label. split.
  - intros [k [Hk Hin]]. destruct (String.eqb k old); congruence.
  - intro Hin. exists c. split; [|exact Hin].
    apply String.eqb_neq in H1. now rewrite H1.
Qed.

Lemma wf_DataFrame_of_records records : wf_frame (DataFrame_of_records records).
Proof.
  apply Forall_forall. intros r Hr. simpl in *.
  apply in_map_iff in Hr. destruct Hr as [rec [<- _]].
  rewrite map_map. simpl. apply map_id.
Qed.

Lemma wf_rename_column old new df : wf_frame df -> wf_frame (rename_column old new df).
Proof.
  unfold wf_frame. rewrite !Forall_forall. simpl. intros H r Hr.
  apply in_map_iff in Hr. destruct Hr as [r0 [<- Hr0]].
  rewrite <- (H _ Hr0), !map_map. apply map_ext. now intros [c v].
Qed.

Lemma wf_ingested_frame records : wf_frame (ingested_frame records).
Proof.
  unfold ingested_frame. destruct (_ && _).
  - apply wf_rename_column, wf_DataFrame_of_records.
  - apply wf_DataFrame_of_records.
Qed.

Lemma ingested_frame_nonempty records c :
  has_column c (ingested_frame records) = true -> records <> [].
Proof. destruct records; [discriminate|discriminate]. Qed.

(** The category cell of a row of the frame is the category of its record. *)
Lemma ingested_frame_category records r :
  (forall rec, In rec records -> exists s, dict_get "category" rec = Some (PStr s)) ->
  In r (rows (ingested_frame records)) ->
  exists rec s, In rec records
                /\ dict_get "category" rec = Some (PStr s)
                /\ cell "category" r = PStr s.
Proof.
  intros Hcat Hr.
  assert (Hbase : forall r0, In r0 (rows (DataFrame_of_records records)) ->
            exists rec s, In rec records
                          /\ dict_get "category" rec = Some (PStr s)
                          /\ cell "category" r0 = PStr s).
  { intros r0 Hr0. simpl in Hr0. apply in_map_iff in Hr0.
    destruct Hr0 as [rec [<- Hrec]].
    destruct (Hcat _ Hrec) as [s Hs]. exists rec, s. repeat split; auto.
    rewrite cell_tabulate.
    assert (Hmem : mem "category" (union_keys [] records) = true).
    { apply mem_In, union_keys_In. right. exists rec. split; [exact Hrec|].
      destruct (in_dec string_dec "category" (map fst rec)) as [Hin|Hnot]; [exact Hin|].
      apply dict_get_None in Hnot. congruence. }
    rewrite Hmem.
    assert (Hc : cell "category" rec = PStr s) by (unfold cell; now rewrite Hs).
    rewrite Hc. now destruct (infer_dtype _). }
  unfold ingested_frame in Hr. destruct (_ && _); [|now apply Hbase].
  simpl in Hr. apply in_map_iff in Hr. destruct Hr as [r0 [<- Hr0]].
  destruct (Hbase _ Hr0) as [rec [s [H1 [H2 H3]]]].
  exists rec, s. repeat split; auto.
  unfold cell in *. rewrite rename_get; [exact H3|discriminate|discriminate].
Qed.

Lemma ingested_frame_has_category records :
  (forall rec, In rec records -> exists s, dict_get "category" rec = Some (PStr s)) ->
  records <> [] ->
  has_column "category" (ingested_frame records) = true.
Proof.
  intros Hcat Hne. destruct records as [|rec rest]; [congruence|].
  assert (Hbase : In "category" (columns (DataFrame_of_records (rec :: rest)))).
  { cbn [DataFrame_of_records columns]. apply union_keys_In. right. exists rec.
    split; [now left|].
    destruct (Hcat rec (or_introl eq_refl)) as [s Hs].
    destruct (in_dec string_dec "category" (map fst rec)) as [Hin|Hnot]; [exact Hin|].
    apply dict_get_None in Hnot. congruence. }
  unfold ingested_frame, has_column. destruct (_ && _).
  - apply mem_In. cbn [rename_column columns].
    apply rename_In; [discriminate|discriminate|exact Hbase].
  - now apply mem_In.
Qed.

(** ** Sort, deduplicate, normalise *)

Lemma row_leb_total by_ a b : row_leb by_ a b = true \/ row_leb by_ b a = true.
Proof. apply String.leb_total. Qed.

Lemma row_leb_trans by_ a b c :
  row_leb by_ a b = true -> row_leb by_ b c = true -> row_leb by_ a c = true.
Proof. apply string_leb_trans. Qed.

Lemma row_leb_refl by_ a : row_leb by_ a a = true.
Proof. apply string_leb_refl. Qed.

Lemma sort_then_dedup df :
  has_column "category" df = true ->
  has_column "sku" df = true ->
  (sorted <- sort_values "category" df ;; drop_duplicates "sku" sorted)
  = Ok (mkFrame (columns df)
                (keep_last "sku" (sort_by (row_leb "category") (rows df)))).
Proof.
  intros Hcat Hsku. unfold sort_values. rewrite Hcat. simpl.
  unfold drop_duplicates, has_column, column in *. simpl.
  destruct (sort_by (row_leb "category") (rows df)) as [|r rest] eqn:Hsorted;
    [now destruct (columns df)|].
  destruct (columns df) as [|c cols] eqn:Hcols; [discriminate|].
  now rewrite Hsku.
Qed.

Lemma ensure_columns_extend cols : forall df,
  exists added,
    ensure_columns cols df = (map WarnMissingColumn added, extend_frame added df)
    /\ (forall c, In c added -> In c cols /\ has_column c df = false)
    /\ (forall c, In c cols -> has_column c (extend_frame added df) = true).
Proof.
  induction cols as [|col rest IH]; intro df; simpl.
  - exists []. simpl. repeat split; try tauto.
    unfold extend_frame. simpl. rewrite app_nil_r.
    destruct df as [cs rs]. simpl. f_equal. f_equal.
    rewrite <- (map_id rs) at 1. apply map_ext. intro r. now rewrite app_nil_r.
  - destruct (has_column col df) eqn:Hcol.
    + destruct (IH df) as [added [H1 [H2 H3]]]. exists added.
      split; [exact H1|]. split.
      * intros c Hc. destruct (H2 c Hc). auto.
      * intros c [<-|Hc]; [|now apply H3].
        unfold has_column in *. apply mem_In. simpl. apply in_or_app. left.
        now apply mem_In.
    + destruct (IH (add_column col (PStr "") df)) as [added [H1 [H2 H3]]].
      exists (col :: added). rewrite H1.
      assert (Heq : extend_frame added (add_column col (PStr "") df)
                    = extend_frame (col :: added) df).
      { unfold extend_frame, add_column. simpl. rewrite <- app_assoc. simpl.
        f_equal. rewrite map_map. apply map_ext. intro r.
        now rewrite <- app_assoc. }
      rewrite Heq in *. split; [reflexivity|]. split.
      * intros c [<-|Hc]; [auto|].
        destruct (H2 c Hc) as [Ha Hb]. split; [now right|].
        unfold has_column in *. simpl in Hb. apply mem_not_In. apply mem_not_In in Hb.
        intro Hin. apply Hb, in_or_app. now left.
      * intros c [<-|Hc]; [|now apply H3].
        unfold has_column. apply mem_In. simpl. apply in_or_app. right. now left.
Qed.

Lemma first_missing_None cols df :
  (forall c, In c cols -> has_column c df = true) -> first_missing cols df = None.
Proof.
  induction cols as [|c rest IH]; simpl; intro H; [reflexivity|].
  rewrite (H c (or_introl eq_refl)). apply IH. auto.
Qed.

Lemma normalise_frame df :
  wf_frame df ->
  exists added,
    ensure_columns required_columns df
    = (map WarnMissingColumn added, extend_frame added df)
    /\ (forall c, In c added <-> In c required_columns /\ has_column c df = false)
    /\ select_columns required_columns (extend_frame added df)
       = Ok (mkFrame required_columns (map (output_row df) (rows df))).
Proof.
  intro Hwf.
  destruct (ensure_columns_extend required_columns df) as [added [H1 [H2 H3]]].
  exists added. split; [exact H1|].
  assert (Hadded : forall c, In c required_columns -> has_column c df = false ->
                             In c added).
  { intros c Hc Hno. specialize (H3 c Hc). unfold has_column in *.
    apply mem_In in H3. simpl in H3. apply in_app_or in H3.
    destruct H3 as [H3|H3]; [|exact H3]. apply mem_In in H3. congruence. }
  split; [intro c; split; [apply H2|intros [Ha Hb]; now apply Hadded]|].
  unfold select_columns. rewrite (first_missing_None _ _ H3).
  f_equal. f_equal. cbn [rows extend_frame]. rewrite map_map.
  apply map_ext_in. intros r Hr.
  unfold wf_frame in Hwf. rewrite Forall_forall in Hwf. specialize (Hwf r Hr).
  unfold output_row. apply map_ext_in. intros c Hc. f_equal.
  unfold cell. rewrite dict_get_app.
  destruct (has_column c df) eqn:Hcol.
  - unfold has_column in Hcol. apply mem_In in Hcol. rewrite <- Hwf in Hcol.
    destruct (dict_get c r) eqn:Hget; [reflexivity|].
    apply dict_get_None in Hget. contradiction.
  - assert (Hnone : dict_get c r = None).
    { apply dict_get_None. rewrite Hwf. now apply mem_not_In. }
    rewrite Hnone, (dict_get_tabulate (fun _ => PStr "")).
    assert (Hm : mem c added = true) by (apply mem_In; now apply Hadded).
    now rewrite Hm.
Qed.

Lemma wf_subset df rs :
  wf_frame df -> (forall r, In r rs -> In r (rows df)) -> wf_frame (mkFrame (columns df) rs).
Proof.
  unfold wf_frame. rewrite !Forall_forall. simpl. auto.
Qed.

Lemma NoDup_map_In_inj {A B : Type} (f : A -> B) l :
  NoDup (map f l) -> forall a b, In a l -> In b l -> f a = f b -> a = b.
Proof.
  induction l as [|x rest IH]; simpl; intros Hnd a b Ha Hb Heq; [tauto|].
  inversion Hnd as [|? ? Hnot Hrest]. subst.
  destruct Ha as [<-|Ha], Hb as [<-|Hb]; auto.
  - exfalso. apply Hnot. rewrite Heq. now apply in_map.
  - exfalso. apply Hnot. rewrite <- Heq. now apply in_map.
Qed.

Lemma output_row_cell df r c :
  In c required_columns -> has_column c df = true ->
  cell c (output_row df r) = cell c r.
Proof.
  intros Hc Hcol. unfold output_row.
  rewrite (cell_tabulate (fun c => if has_column c df then cell c r else PStr "")).
  apply mem_In in Hc. now rewrite Hc, Hcol.
Qed.

(** What [merge_json_files] returns when the frame has a [sku] column. *)
Lemma merge_json_files_ok load json_files :
  let df := ingested_frame (all_records load json_files) in
  has_column "sku" df = true ->
  exists added,
    merge_json_files load json_files
    = (fst (collect load json_files) ++ map WarnMissingColumn added,
       Ok (mkFrame required_columns
             (map (output_row df)
                  (keep_last "sku" (sort_by (row_leb "category") (rows df))))))
    /\ (forall c, In c added <-> In c required_columns /\ has_column c df = false).
Proof.
  intros df Hsku.
  pose proof (all_records_tagged load json_files) as Hcatkey.
  assert (Hcat : has_column "category" df = true).
  { apply ingested_frame_has_category; [exact Hcatkey|].
    eapply ingested_frame_nonempty. exact Hsku. }
  unfold merge_json_files. unfold all_records in df.
  destruct (collect load json_files) as [log records] eqn:Hcollect.
  simpl in df. fold df.
  rewrite (sort_then_dedup df Hcat Hsku).
  set (kept := mkFrame (columns df) _).
  assert (Hwf : wf_frame kept).
  { apply wf_subset; [apply wf_ingested_frame|].
    intros r Hr. apply keep_last_In in Hr. now apply sort_by_In in Hr. }
  destruct (normalise_frame kept Hwf) as [added [H1 [H2 H3]]].
  exists added. rewrite H1, H3. split; [reflexivity|exact H2].
Qed.

(** The table returned is the frame deduplicated by sku. *)
Lemma merge_json_files_keeps_greatest load json_files :
  let df := ingested_frame (all_records load json_files) in
  has_column "sku" df = true ->
  exists out,
    snd (merge_json_files load json_files) = Ok out
    /\ keeps_greatest_per_sku df out.
Proof.
  intros df Hsku.
  destruct (merge_json_files_ok load json_files Hsku) as [added [Hrun _]].
  fold df in Hrun. rewrite Hrun. eexists. split; [reflexivity|].
  set (sorted := sort_by (row_leb "category") (rows df)).
  assert (Hsorted : StronglySorted (le_of (row_leb "category")) sorted)
    by (apply sort_by_strongly; [apply row_leb_total|apply row_leb_trans]).
  assert (Hkeys : map (fun o => hash_key (cell "sku" o))
                      (map (output_row df) (keep_last "sku" sorted))
                  = map (fun r => hash_key (cell "sku" r)) (keep_last "sku" sorted)).
  { rewrite map_map. apply map_ext. intro r.
    rewrite output_row_cell; [reflexivity|simpl; auto|exact Hsku]. }
  assert (Hnodup : NoDup (map (fun r => hash_key (cell "sku" r)) (keep_last "sku" sorted)))
    by apply keep_last_NoDup.
  assert (Hone : forall v o1 o2,
             In o1 (map (output_row df) (keep_last "sku" sorted)) ->
             In o2 (map (output_row df) (keep_last "sku" sorted)) ->
             cell "sku" o1 = v -> cell "sku" o2 = v -> o1 = o2).
  { intros v o1 o2 H1 H2 E1 E2.
    apply (NoDup_map_In_inj (fun o => hash_key (cell "sku" o))
             (map (output_row df) (keep_last "sku" sorted)));
      [now rewrite Hkeys|exact H1|exact H2|now rewrite E1, E2]. }
  unfold keeps_greatest_per_sku. cbn [columns rows].
  split; [reflexivity|]. split; [now rewrite Hkeys|].
  split; [|split; [|split; [apply Hone|apply Hone]]].
  - intros r Hr.
    destruct (keep_last_covers "sku" sorted r) as [o [Ho Hs]];
      [now apply sort_by_In|].
    exists (output_row df o). split; [now apply in_map|].
    rewrite output_row_cell; [exact Hs|simpl; auto|exact Hsku].
  - intros o Ho. apply in_map_iff in Ho. destruct Ho as [r [<- Hr]].
    exists r. split; [apply keep_last_In in Hr; now apply sort_by_In in Hr|].
    split; [reflexivity|].
    intros r' Hr' Hsame.
    assert (Hle : row_leb "category" r' r = true).
    { apply (keep_last_greatest "sku" (row_leb "category") (row_leb_refl "category")
               sorted r r' Hsorted Hr); [now apply sort_by_In|exact Hsame]. }
    pose proof (all_records_tagged load json_files) as Hcatkey.
    assert (Hr0 : In r (rows df))
      by (apply keep_last_In in Hr; now apply sort_by_In in Hr).
    destruct (ingested_frame_category _ r' Hcatkey Hr') as [_ [c' [_ [_ Hc']]]].
    destruct (ingested_frame_category _ r Hcatkey Hr0) as [_ [c [_ [_ Hc]]]].
    exists c', c. repeat split; auto.
    unfold row_leb in Hle. now rewrite Hc', Hc in Hle.
Qed.


(** C1 as the code has it: when some record has a [sku] or an [id],
    [merge_json_files] returns the catalog table with one row for each sku
    of the frame, the row kept being one whose category is greatest among
    the rows of that sku.  Two skus are the same when they are equal as the
    frame stores them: strings and integers by value, a string never equal
    to an integer, NaN, the cell of a record without the field, only to NaN
    and [None] only to [None].  For the two files of P3 the table is the
    single row with sku 1, name Y and category home, in either order of the
    files. *)
Theorem merge_json_files_dedup :
  (forall (load : string -> result pyval) (json_files : list string),
      let df := ingested_frame (all_records load json_files) in
      has_column "sku" df = true ->
      exists out,
        snd (merge_json_files load json_files) = Ok out
        /\ keeps_greatest_per_sku df out)
  /\ same_key_is_equality
  /\ snd (merge_json_files p3_load p3_files)
     = Ok (mkFrame required_columns
             [[("sku", PInt 1); ("name", PStr "Y"); ("brand", PStr "");
               ("category", PStr "home")]])
  /\ snd (merge_json_files p3_load (rev p3_files))
     = snd (merge_json_files p3_load p3_files).
Proof.
  split; [exact merge_json_files_keeps_greatest|].
  split; [exact same_key_equality|split; reflexivity].
Qed.

Lemma merge_json_files_dedup_witness :
  exists out,
    snd (merge_json_files p3_load p3_files) = Ok out
    /\ keeps_greatest_per_sku (ingested_frame (all_records p3_load p3_files)) out.
Proof.
  exact (proj1 merge_json_files_dedup p3_load p3_files eq_refl).
Defined.

(** C1, the claim refuted.  One file holds a record with sku A, a record
    whose sku is null and a record without sku: the table keeps the two
    rows that lack a sku value, one under [None] and one under NaN, so they
    are two groups.  Another file holds the ids 2^53 + 1 and 2^53 and a
    record without id: the column is stored as floats, the two ids are the
    same float, and the table has one row for the two of them. *)
Lemma merge_json_files_dedup_fails :
  (exists out o1 o2,
      snd (merge_json_files null_sku_load ["data/a.json"]) = Ok out
      /\ List.length (rows out) = 3%nat
      /\ In o1 (rows out) /\ In o2 (rows out)
      /\ cell "sku" o1 = PNone /\ cell "sku" o2 = PNaN /\ o1 <> o2)
  /\ (exists out,
         snd (merge_json_files big_id_load ["data/a.json"]) = Ok out
         /\ List.length (all_records big_id_load ["data/a.json"]) = 3%nat
         /\ List.length (rows out) = 2%nat
         /\ Forall (fun v => v = PFloat (Float.of_Z (2 ^ 53)) \/ v = PNaN)
                   (column "sku" out)).
Proof.
  split.
  - do 3 eexists. split; [reflexivity|]. split; [reflexivity|].
    split; [right; left; reflexivity|]. split; [right; right; left; reflexivity|].
    split; [reflexivity|]. split; [reflexivity|discriminate].
  - eexists. split; [vm_compute; reflexivity|].
    split; [reflexivity|]. split; [reflexivity|].
    constructor; [now left|]. constructor; [now right|]. constructor.
Qed.

Lemma sort_then_dedup_no_sku df :
  has_column "category" df = true ->
  rows df <> [] ->
  has_column "sku" df = false ->
  (sorted <- sort_values "category" df ;; drop_duplicates "sku" sorted)
  = Raise (KeyError "sku").
Proof.
  intros Hcat Hrows Hsku. unfold sort_values. rewrite Hcat. simpl.
  unfold drop_duplicates, has_column in *. simpl.
  destruct (sort_by (row_leb "category") (rows df)) as [|r rest] eqn:Hsorted.
  - exfalso. apply Hrows.
    assert (Hlen : List.length (rows df) = 0%nat).
    { rewrite (Permutation_length (sort_by_perm (row_leb "category") (rows df))).
      now rewrite Hsorted. }
    now destruct (rows df).
  - destruct (columns df) as [|c cols]; [discriminate|]. now rewrite Hsku.
Qed.

Lemma ingested_frame_rows_length records :
  List.length (rows (ingested_frame records)) = List.length records.
Proof.
  unfold ingested_frame. destruct (_ && _); simpl; now rewrite ?length_map.
Qed.

(** C2: with no record at all the sort by [category] raises [KeyError]
    before any required column is created: no table is returned. *)
Theorem merge_json_files_empty_raises
        (load : string -> result pyval) (json_files : list string) :
  all_records load json_files = [] ->
  snd (merge_json_files load json_files) = Raise (KeyError "category").
Proof.
  unfold all_records, merge_json_files.
  destruct (collect load json_files) as [log records]. simpl.
  intros ->. reflexivity.
Qed.

Lemma merge_json_files_empty_raises_witness :
  snd (merge_json_files empty_load ["data/broken.json"; "data/none.json"])
  = Raise (KeyError "category").
Proof.
  exact (merge_json_files_empty_raises
           empty_load ["data/broken.json"; "data/none.json"] eq_refl).
Defined.

(** C3: a missing [name] or [brand] is created, filled with the empty string
    and reported; records with neither [sku] nor [id] make the deduplication
    raise [KeyError], so the [sku] column is never created. *)
Theorem merge_json_files_missing_columns
        (load : string -> result pyval) (json_files : list string) :
  let df := ingested_frame (all_records load json_files) in
  (has_column "sku" df = true ->
   forall c, c = "name" \/ c = "brand" ->
             has_column c df = false ->
             exists log out,
               merge_json_files load json_files = (log, Ok out)
               /\ In (WarnMissingColumn c) log
               /\ In c (columns out)
               /\ forall o, In o (rows out) -> cell c o = PStr "")
  /\ (all_records load json_files <> [] ->
      has_column "sku" df = false ->
      snd (merge_json_files load json_files) = Raise (KeyError "sku")).
Proof.
  intro df. split.
  - intros Hsku c Hc Hno.
    destruct (merge_json_files_ok load json_files Hsku) as [added [Hrun Hadded]].
    fold df in Hrun, Hadded. rewrite Hrun. do 2 eexists.
    split; [reflexivity|].
    assert (Hreq : In c required_columns) by (destruct Hc as [->| ->]; simpl; auto).
    split; [|split].
    + apply in_or_app. right. apply in_map. apply Hadded. auto.
    + exact Hreq.
    + cbn [rows]. intros o Ho. apply in_map_iff in Ho. destruct Ho as [r [<- _]].
      unfold output_row.
      rewrite (cell_tabulate (fun c => if has_column c df then cell c r else PStr "")).
      apply mem_In in Hreq. now rewrite Hreq, Hno.
  - intros Hne Hsku.
    pose proof (all_records_tagged load json_files) as Hcatkey.
    assert (Hcat : has_column "category" df = true)
      by (now apply ingested_frame_has_category).
    assert (Hrows : rows df <> []).
    { intro Hnil. apply Hne.
      pose proof (ingested_frame_rows_length (all_records load json_files)) as Hlen.
      fold df in Hlen. rewrite Hnil in Hlen.
      now destruct (all_records load json_files). }
    unfold merge_json_files. unfold all_records in *.
    destruct (collect load json_files) as [log records]. simpl in *. fold df.
    now rewrite (sort_then_dedup_no_sku df Hcat Hrows Hsku).
Qed.

Lemma merge_json_files_missing_columns_witness :
  snd (merge_json_files no_sku_load ["data/tools.json"]) = Raise (KeyError "sku").
Proof.
  refine (proj2 (merge_json_files_missing_columns no_sku_load ["data/tools.json"]) _ eq_refl).
  discriminate.
Defined.

(** ** Text coercion *)

Lemma astype_row_keys col r : map fst (astype_row col r) = map fst r.
Proof.
  unfold astype_row. rewrite map_map. apply map_ext.
  intros [c v]. now destruct (String.eqb c col).
Qed.

Lemma dict_get_astype_row col c r :
  dict_get c (astype_row col r)
  = if String.eqb c col
    then option_map (fun v => PStr (py_str v)) (dict_get c r)
    else dict_get c r.
Proof.
  induction r as [|[k v] rest IH]; simpl.
  - now destruct (String.eqb c col).
  - destruct (String.eqb k col) eqn:Ek; simpl;
      destruct (String.eqb k c) eqn:Ec; try exact IH.
    + apply String.eqb_eq in Ek, Ec. subst. now rewrite String.eqb_refl.
    + apply String.eqb_eq in Ec. subst k. now rewrite Ek.
Qed.

Lemma cell_astype_key col r :
  In col (map fst r) -> cell col (astype_row col r) = PStr (py_str (cell col r)).
Proof.
  intro Hin. unfold cell. rewrite dict_get_astype_row, String.eqb_refl.
  destruct (dict_get col r) eqn:E; [reflexivity|].
  apply dict_get_None in E. contradiction.
Qed.

Lemma cell_astype_other col c r : c <> col -> cell c (astype_row col r) = cell c r.
Proof.
  intro Hne. unfold cell. rewrite dict_get_astype_row.
  apply String.eqb_neq in Hne. now rewrite Hne.
Qed.

Lemma astype_row_strings col r :
  (forall v, In (col, v) r -> exists s, v = PStr s) -> astype_row col r = r.
Proof.
  induction r as [|[k v] rest IH]; simpl; intro H; [reflexivity|].
  rewrite IH by (intros v' Hv'; apply H; now right).
  destruct (String.eqb k col) eqn:E; [|reflexivity].
  apply String.eqb_eq in E. subst k.
  destruct (H v (or_introl eq_refl)) as [s ->]. reflexivity.
Qed.

Lemma wf_astype_str col df : wf_frame df -> wf_frame (astype_str col df).
Proof.
  unfold wf_frame. rewrite !Forall_forall. simpl. intros H r Hr.
  apply in_map_iff in Hr. destruct Hr as [r0 [<- Hr0]].
  rewrite astype_row_keys. now apply H.
Qed.

Lemma wf_key_present df c r :
  wf_frame df -> has_column c df = true -> In r (rows df) -> In c (map fst r).
Proof.
  unfold wf_frame, has_column. rewrite Forall_forall. intros Hwf Hc Hr.
  rewrite (Hwf r Hr). now apply mem_In.
Qed.

(** ** Left join *)

Lemma filter_map_comm {A B : Type} (p : B -> bool) (g : A -> B) l :
  filter p (map g l) = map g (filter (fun x => p (g x)) l).
Proof.
  induction l as [|x rest IH]; simpl; [reflexivity|].
  rewrite IH. now destruct (p (g x)).
Qed.

Lemma left_join_rows_map matches matched unmatched (f g : row -> row) left right :
  left_join_rows matches matched unmatched (map f left) (map g right)
  = left_join_rows (fun l r => matches (f l) (g r))
                   (fun l r => matched (f l) (g r))
                   (fun l => unmatched (f l)) left right.
Proof.
  unfold left_join_rows. induction left as [|l rest IH]; [reflexivity|].
  cbn [map flat_map]. rewrite IH. f_equal.
  unfold join_one. rewrite filter_map_comm.
  destruct (filter (fun x => matches (f l) (g x)) right) as [|m ms]; [reflexivity|].
  simpl. now rewrite map_map.
Qed.

Lemma left_join_rows_ext m1 m2 matched unmatched left right :
  (forall l r, In l left -> In r right -> m1 l r = m2 l r) ->
  left_join_rows m1 matched unmatched left right
  = left_join_rows m2 matched unmatched left right.
Proof.
  intro H. unfold left_join_rows. induction left as [|l rest IH]; [reflexivity|].
  cbn [flat_map]. rewrite IH by (intros; apply H; simpl; auto).
  f_equal. unfold join_one. rewrite (filter_ext_in (m1 l) (m2 l)); [reflexivity|].
  intros r Hr. apply H; simpl; auto.
Qed.

Lemma dict_get_promote cols c r :
  dict_get c (promote cols r)
  = option_map (fun v => if mem c cols then float_cell v else v) (dict_get c r).
Proof.
  induction r as [|[k v] rest IH]; simpl; [reflexivity|].
  destruct (mem k cols) eqn:Ek; simpl; destruct (String.eqb k c) eqn:Ec;
    try exact IH; apply String.eqb_eq in Ec; subst k; simpl; now rewrite Ek.
Qed.

Lemma cell_promote cols c r :
  cell c (promote cols r) = if mem c cols then float_cell (cell c r) else cell c r.
Proof.
  unfold cell. rewrite dict_get_promote.
  destruct (dict_get c r); simpl; [reflexivity|]. now destruct (mem c cols).
Qed.

Lemma cell_promote_text cols c r s :
  cell c r = PStr s -> cell c (promote cols r) = PStr s.
Proof. intro H. rewrite cell_promote, H. now destruct (mem c cols). Qed.

(** What [join_csv_files] hands to [pd.merge] when both key columns exist. *)
Lemma join_csv_files_merge read_csv merged_df input_csv_path input_df :
  read_csv input_csv_path = Ok input_df ->
  let join_column := fst (resolve_join_column (columns input_df)) in
  has_column join_column input_df = true ->
  has_column "sku" merged_df = true ->
  joined (join_csv_files read_csv merged_df input_csv_path)
  = pd_merge_left (astype_str join_column input_df) (astype_str "sku" merged_df)
                  join_column "sku".
Proof.
  intros Hread jc Hjc Hsku.
  unfold join_csv_files. rewrite Hread.
  destruct (resolve_join_column (columns input_df)) as [jc' log] eqn:Hres.
  simpl in jc. subst jc. now rewrite Hjc, Hsku.
Qed.

(** The merge of two frames that have their key columns: [MergeError] when
    the suffixes repeat a label, the left join of the rows otherwise, the
    cells of some columns of the right frame stored as floats. *)
Lemma pd_merge_left_keys left right left_on right_on :
  has_column left_on left = true ->
  has_column right_on right = true ->
  let left_cols := columns left in
  let right_cols := right_labels left_on right_on right in
  if suffix_clash left_cols right_cols
  then pd_merge_left left right left_on right_on = Raise MergeError
  else exists float_cols,
      pd_merge_left left right left_on right_on
      = Ok (mkFrame
              (merged_labels left_cols right_cols)
              (left_join_rows
                 (fun l r => same_key (cell left_on l) (cell right_on r))
                 (fun l r => left_cells left_cols right_cols l
                             ++ right_cells left_cols right_cols (promote float_cols r))
                 (fun l => left_cells left_cols right_cols l
                           ++ null_cells left_cols right_cols)
                 (rows left) (rows right))).
Proof.
  intros Hl Hr left_cols right_cols. unfold pd_merge_left.
  rewrite Hl, Hr. cbn [negb]. fold left_cols right_cols.
  destruct (suffix_clash left_cols right_cols); [reflexivity|].
  eexists. reflexivity.
Qed.

(** With a key column on each side and no repeated label the join is the
    left join of the rows as they were given, keys compared by their
    text. *)
Lemma join_csv_files_by_text read_csv merged_df input_csv_path input_df :
  read_csv input_csv_path = Ok input_df ->
  wf_frame input_df ->
  wf_frame merged_df ->
  let join_column := fst (resolve_join_column (columns input_df)) in
  has_column join_column input_df = true ->
  has_column "sku" merged_df = true ->
  let left_cols := columns input_df in
  let right_cols := right_labels join_column "sku" merged_df in
  suffix_clash left_cols right_cols = false ->
  exists float_cols,
    joined (join_csv_files read_csv merged_df input_csv_path)
    = Ok (mkFrame
            (merged_labels left_cols right_cols)
            (left_join_rows
               (text_keys_match join_column)
               (fun l r => left_cells left_cols right_cols (astype_row join_column l)
                           ++ right_cells left_cols right_cols
                                (promote float_cols (astype_row "sku" r)))
               (fun l => left_cells left_cols right_cols (astype_row join_column l)
                         ++ null_cells left_cols right_cols)
               (rows input_df) (rows merged_df))).
Proof.
  intros Hread Hwfl Hwfr jc Hjc Hsku left_cols right_cols Hclash.
  rewrite (join_csv_files_merge read_csv merged_df input_csv_path input_df
             Hread Hjc Hsku).
  fold jc.
  pose proof (pd_merge_left_keys (astype_str jc input_df) (astype_str "sku" merged_df)
                jc "sku" Hjc Hsku) as Hmerge.
  cbv zeta in Hmerge.
  change (right_labels jc "sku" (astype_str "sku" merged_df)) with right_cols in Hmerge.
  change (columns (astype_str jc input_df)) with left_cols in Hmerge.
  rewrite Hclash in Hmerge. destruct Hmerge as [float_cols ->].
  exists float_cols. f_equal. f_equal. cbn [rows astype_str].
  rewrite left_join_rows_map. apply left_join_rows_ext.
  intros l r Hl Hr. unfold text_keys_match.
  rewrite (cell_astype_key jc l)
    by (apply (wf_key_present input_df); assumption).
  rewrite (cell_astype_key "sku" r)
    by (apply (wf_key_present merged_df); assumption).
  apply same_key_text.
Qed.

Lemma join_csv_files_clash read_csv merged_df input_csv_path input_df :
  read_csv input_csv_path = Ok input_df ->
  let join_column := fst (resolve_join_column (columns input_df)) in
  has_column join_column input_df = true ->
  has_column "sku" merged_df = true ->
  suffix_clash (columns input_df) (right_labels join_column "sku" merged_df) = true ->
  joined (join_csv_files read_csv merged_df input_csv_path) = Raise MergeError.
Proof.
  intros Hread jc Hjc Hsku Hclash.
  rewrite (join_csv_files_merge read_csv merged_df input_csv_path input_df
             Hread Hjc Hsku).
  fold jc.
  pose proof (pd_merge_left_keys (astype_str jc input_df) (astype_str "sku" merged_df)
                jc "sku" Hjc Hsku) as Hmerge.
  cbv zeta in Hmerge.
  change (right_labels jc "sku" (astype_str "sku" merged_df))
    with (right_labels jc "sku" merged_df) in Hmerge.
  change (columns (astype_str jc input_df)) with (columns input_df) in Hmerge.
  now rewrite Hclash in Hmerge.
Qed.

(** C7: both key columns are turned into text before the comparison, so a
    row of the external CSV is joined with the catalog rows whose sku has the
    same text as its key, whatever the types were.  The frame returned is
    the left join under that comparison: the cells of the external row, its
    key as text, followed by the cells of the catalog row, its sku as text
    and the cells of some of its integer columns as floats, or by NaN.  When
    the suffixes of the merge would repeat a label no frame is returned.
    The catalog sku ["100"] joins with the external key [100]. *)
Theorem join_csv_files_compares_text :
  (forall (read_csv : string -> result DataFrame) (merged_df : DataFrame)
          (input_csv_path : string) (input_df : DataFrame),
      read_csv input_csv_path = Ok input_df ->
      wf_frame input_df ->
      wf_frame merged_df ->
      let join_column := fst (resolve_join_column (columns input_df)) in
      has_column join_column input_df = true ->
      has_column "sku" merged_df = true ->
      let left_cols := columns input_df in
      let right_cols := right_labels join_column "sku" merged_df in
      if suffix_clash left_cols right_cols
      then joined (join_csv_files read_csv merged_df input_csv_path) = Raise MergeError
      else
        exists float_cols,
          joined (join_csv_files read_csv merged_df input_csv_path)
          = Ok (mkFrame
                  (merged_labels left_cols right_cols)
                  (left_join_rows
                     (text_keys_match join_column)
                     (fun l r =>
                        left_cells left_cols right_cols (astype_row join_column l)
                        ++ right_cells left_cols right_cols
                             (promote float_cols (astype_row "sku" r)))
                     (fun l =>
                        left_cells left_cols right_cols (astype_row join_column l)
                        ++ null_cells left_cols right_cols)
                     (rows input_df) (rows merged_df))))
  /\ (forall float_cols r,
         In "sku" (map fst r) ->
         cell "sku" (promote float_cols (astype_row "sku" r))
         = PStr (py_str (cell "sku" r)))
  /\ joined (join_csv_files p8_csv p8_catalog "input.csv")
     = Ok (mkFrame
             ["product_sku"; "qty"; "sku"; "name"; "brand"; "category"]
             [[("product_sku", PStr "100"); ("qty", PInt 2); ("sku", PStr "100");
               ("name", PStr "Widget"); ("brand", PStr "Acme");
               ("category", PStr "tools")]]).
Proof.
  split; [|split; [|reflexivity]].
  - intros read_csv merged_df input_csv_path input_df Hread Hwfl Hwfr jc Hjc Hsku
           left_cols right_cols.
    destruct (suffix_clash left_cols right_cols) eqn:Hclash.
    + now apply (join_csv_files_clash read_csv merged_df input_csv_path input_df).
    + now apply join_csv_files_by_text.
  - intros float_cols r Hin. apply cell_promote_text. now apply cell_astype_key.
Qed.

(** A catalog whose ids are stored as floats: the id 1, beside a record
    without id, is the sku 1.0; its text is [1.0], which is not the text of
    the external key 1. *)
Example join_csv_files_float_sku :
  forall catalog,
    snd (merge_json_files partial_id_load ["data/a.json"; "data/b.json"]) = Ok catalog ->
    column "sku" catalog = [PFloat (Float.of_Z 1); PNaN]
    /\ column "sku" (merged_df_after (join_csv_files one_key_csv catalog "input.csv"))
       = [PStr "1.0"; PStr "nan"]
    /\ exists out,
         joined (join_csv_files one_key_csv catalog "input.csv") = Ok out
         /\ rows out = [[("product_sku", PStr "1"); ("sku", PNaN); ("name", PNaN);
                         ("brand", PNaN); ("category", PNaN)]].
Proof.
  intros catalog H. vm_compute in H. injection H as <-.
  split; [reflexivity|]. split; [vm_compute; reflexivity|].
  eexists. split; vm_compute; reflexivity.
Qed.

Lemma p8_csv_wf : wf_frame (mkFrame ["product_sku"; "qty"]
                                    [[("product_sku", PInt 100); ("qty", PInt 2)]]).
Proof. repeat constructor. Qed.

Lemma p8_catalog_wf : wf_frame p8_catalog.
Proof. repeat constructor. Qed.

(** ** The join key *)

Lemma filter_none {A : Type} (p : A -> bool) l :
  (forall x, In x l -> p x = false) -> filter p l = [].
Proof.
  induction l as [|x rest IH]; simpl; intro H; [reflexivity|].
  rewrite (H x (or_introl eq_refl)). apply IH. auto.
Qed.

(** C4: without [product_sku] and without a column whose lowercased name
    contains [sku], the warning and the list of columns are printed and the
    join is attempted on the label [product_sku]; [pd.merge] then raises
    [KeyError] for that label, so no table is returned. *)
Theorem join_csv_files_no_key_column
        (read_csv : string -> result DataFrame) (merged_df : DataFrame)
        (input_csv_path : string) (input_df : DataFrame) :
  read_csv input_csv_path = Ok input_df ->
  mem "product_sku" (columns input_df) = false ->
  (forall col, In col (columns input_df) ->
               Str.contains "sku" (Str.lower col) = false) ->
  has_column "sku" merged_df = true ->
  join_log (join_csv_files read_csv merged_df input_csv_path)
  = [WarnNoProductSku; AvailableColumns (columns input_df)]
  /\ joined (join_csv_files read_csv merged_df input_csv_path)
     = Raise (KeyError "product_sku").
Proof.
  intros Hread Hno Hcand Hsku.
  assert (Hcol : has_column "product_sku" input_df = false) by exact Hno.
  unfold join_csv_files, resolve_join_column. rewrite Hread, Hno.
  rewrite (filter_none _ _ Hcand), Hcol, Hsku.
  cbn [join_log joined]. split; [reflexivity|].
  unfold pd_merge_left.
  change (has_column "sku" (astype_str "sku" merged_df)) with (has_column "sku" merged_df).
  now rewrite Hsku, Hcol.
Qed.

(** ** The catalog frame across the join *)

Lemma Forall2_map_right {A B : Type} (R : A -> B -> Prop) (f : A -> B) l :
  (forall x, In x l -> R x (f x)) -> Forall2 R l (map f l).
Proof.
  induction l as [|x rest IH]; simpl; intro H; constructor; auto.
Qed.

Lemma astype_str_strings col df :
  (forall r v, In r (rows df) -> In (col, v) r -> exists s, v = PStr s) ->
  astype_str col df = df.
Proof.
  intro H. destruct df as [cs rs]. unfold astype_str. simpl in *. f_equal.
  rewrite <- (map_id rs) at 2. apply map_ext_in. intros r Hr.
  apply astype_row_strings. eauto.
Qed.

(** C9 as the code has it: the call leaves the caller's catalog frame with
    the same labels, the same rows in the same order and the same cells
    under every label but [sku]; when the CSV was read and the frame has a
    [sku] column, each sku cell has been replaced by its text.  The frame is
    the same afterwards when every sku cell was a string already. *)
Theorem join_csv_files_catalog_effect
        (read_csv : string -> result DataFrame) (merged_df : DataFrame)
        (input_csv_path : string) :
  let catalog_after := merged_df_after (join_csv_files read_csv merged_df input_csv_path) in
  catalog_after = match read_csv input_csv_path with
                  | Ok _ => if has_column "sku" merged_df
                            then astype_str "sku" merged_df else merged_df
                  | Raise _ => merged_df
                  end
  /\ columns catalog_after = columns merged_df
  /\ Forall2 (fun r r' =>
                map fst r' = map fst r
                /\ (forall c, c <> "sku" -> cell c r' = cell c r)
                /\ (cell "sku" r' = cell "sku" r
                    \/ cell "sku" r' = PStr (py_str (cell "sku" r))))
             (rows merged_df) (rows catalog_after)
  /\ ((forall r v, In r (rows merged_df) -> In ("sku", v) r -> exists s, v = PStr s) ->
      catalog_after = merged_df).
Proof.
  intro catalog_after.
  assert (Hafter : catalog_after = match read_csv input_csv_path with
                           | Ok _ => if has_column "sku" merged_df
                                     then astype_str "sku" merged_df else merged_df
                           | Raise _ => merged_df
                           end).
  { subst catalog_after. unfold join_csv_files.
    destruct (read_csv input_csv_path) as [input_df|e]; [|reflexivity].
    destruct (resolve_join_column (columns input_df)) as [jc log].
    reflexivity. }
  assert (Hsame : Forall2 (fun r r' =>
                map fst r' = map fst r
                /\ (forall c, c <> "sku" -> cell c r' = cell c r)
                /\ (cell "sku" r' = cell "sku" r
                    \/ cell "sku" r' = PStr (py_str (cell "sku" r))))
             (rows merged_df) (rows merged_df)).
  { rewrite <- (map_id (rows merged_df)) at 2.
    apply Forall2_map_right. intros r _. auto. }
  assert (Htext : Forall2 (fun r r' =>
                map fst r' = map fst r
                /\ (forall c, c <> "sku" -> cell c r' = cell c r)
                /\ (cell "sku" r' = cell "sku" r
                    \/ cell "sku" r' = PStr (py_str (cell "sku" r))))
             (rows merged_df) (rows (astype_str "sku" merged_df))).
  { cbn [rows astype_str]. apply Forall2_map_right. intros r _.
    split; [apply astype_row_keys|]. split; [intros c Hc; now apply cell_astype_other|].
    destruct (in_dec string_dec "sku" (map fst r)) as [Hin|Hnot].
    - right. now apply cell_astype_key.
    - left. unfold cell. rewrite dict_get_astype_row. simpl.
      apply dict_get_None in Hnot. now rewrite Hnot. }
  split; [exact Hafter|]. rewrite Hafter.
  destruct (read_csv input_csv_path) as [input_df|e];
    [destruct (has_column "sku" merged_df)|]; repeat split; auto.
  intro H. now apply astype_str_strings.
Qed.

(** ** Cardinality of the join *)

Lemma filter_at_most_one {A B : Type} (f : A -> B) (p : A -> bool) (k : B) l :
  NoDup (map f l) ->
  (forall x, In x l -> p x = true -> f x = k) ->
  (List.length (filter p l) <= 1)%nat.
Proof.
  induction l as [|x rest IH]; simpl; intros Hnd Hk; [lia|].
  inversion Hnd as [|? ? Hnot Hrest]. subst.
  destruct (p x) eqn:Hp; [|apply IH; auto].
  assert (Hnone : filter p rest = []).
  { apply filter_none. intros y Hy. destruct (p y) eqn:Hpy; [|reflexivity].
    exfalso. apply Hnot.
    rewrite (Hk x (or_introl eq_refl) Hp), <- (Hk y (or_intror Hy) Hpy).
    now apply in_map. }
  rewrite Hnone. simpl. lia.
Qed.

Lemma join_one_single matches matched unmatched right l :
  (List.length (filter (matches l) right) <= 1)%nat ->
  exists o, join_one matches matched unmatched right l = [o]
            /\ (o = unmatched l \/ exists r, In r right /\ o = matched l r).
Proof.
  unfold join_one. intro Hlen.
  destruct (filter (matches l) right) as [|m [|m' ms]] eqn:E.
  - eexists. split; [reflexivity|now left].
  - eexists. split; [reflexivity|]. right. exists m. split; [|reflexivity].
    assert (Hm : In m (filter (matches l) right)) by (rewrite E; now left).
    now apply filter_In in Hm.
  - simpl in Hlen. lia.
Qed.

Lemma left_join_rows_one_each matches matched unmatched left right :
  (forall l, In l left -> (List.length (filter (matches l) right) <= 1)%nat) ->
  Forall2 (fun l o => o = unmatched l \/ exists r, In r right /\ o = matched l r)
          left (left_join_rows matches matched unmatched left right).
Proof.
  unfold left_join_rows. induction left as [|l rest IH]; intro H; [constructor|].
  cbn [flat_map].
  destruct (join_one_single matches matched unmatched right l
              (H l (or_introl eq_refl))) as [o [-> Ho]].
  simpl. constructor; [exact Ho|]. apply IH. intros; apply H; now right.
Qed.

Lemma firstn_length_app {A : Type} (a b : list A) : firstn (List.length a) (a ++ b) = a.
Proof. induction a as [|x rest IH]; simpl; [reflexivity|now rewrite IH]. Qed.

Lemma left_cells_values left_cols right_cols l tail :
  firstn (List.length left_cols) (map snd (left_cells left_cols right_cols l ++ tail))
  = map (fun c => cell c l) left_cols.
Proof.
  rewrite map_app.
  assert (Hvals : map snd (left_cells left_cols right_cols l)
                  = map (fun c => cell c l) left_cols)
    by (unfold left_cells; rewrite map_map; reflexivity).
  rewrite Hvals.
  rewrite <- (length_map (fun c => cell c l) left_cols) at 1.
  apply firstn_length_app.
Qed.

(** C5 as the code has it: when the external CSV has a key column, the
    suffixes of the merge repeat no label and the skus of the catalog have
    pairwise different text, the join returns one row for each row of the
    CSV, in order, starting with the cells of that row (its key as text). *)
Theorem join_csv_files_row_count
        (read_csv : string -> result DataFrame) (merged_df : DataFrame)
        (input_csv_path : string) (input_df : DataFrame) :
  read_csv input_csv_path = Ok input_df ->
  wf_frame input_df ->
  wf_frame merged_df ->
  let join_column := fst (resolve_join_column (columns input_df)) in
  has_column join_column input_df = true ->
  has_column "sku" merged_df = true ->
  suffix_clash (columns input_df) (right_labels join_column "sku" merged_df) = false ->
  NoDup (map (fun r => py_str (cell "sku" r)) (rows merged_df)) ->
  exists out,
    joined (join_csv_files read_csv merged_df input_csv_path) = Ok out
    /\ List.length (rows out) = List.length (rows input_df)
    /\ Forall2 (fun l o =>
                  firstn (List.length (columns input_df)) (map snd o)
                  = map (fun c => cell c (astype_row join_column l)) (columns input_df))
               (rows input_df) (rows out).
Proof.
  intros Hread Hwfl Hwfr jc Hjc Hsku Hclash Hnd.
  destruct (join_csv_files_by_text read_csv merged_df input_csv_path input_df
              Hread Hwfl Hwfr Hjc Hsku Hclash) as [float_cols ->].
  eexists. split; [reflexivity|]. cbn [rows]. fold jc.
  match goal with
  | |- context [left_join_rows ?m ?f ?g ?l ?r] =>
      pose proof (left_join_rows_one_each m f g l r) as Hone
  end.
  cbv beta in Hone.
  assert (Hle : forall l, In l (rows input_df) ->
            (List.length (filter (text_keys_match jc l) (rows merged_df)) <= 1)%nat).
  { intros l _.
    apply (filter_at_most_one (fun r => py_str (cell "sku" r)) _
                              (py_str (cell jc l)) _ Hnd).
    intros r _ Hm. unfold text_keys_match in Hm.
    apply String.eqb_eq in Hm. now symmetry. }
  specialize (Hone Hle).
  split.
  - symmetry. eapply Forall2_length. exact Hone.
  - eapply Forall2_impl; [|exact Hone].
    intros l o [->|[r [_ ->]]]; apply left_cells_values.
Qed.

Lemma one_key_csv_wf : wf_frame (mkFrame ["product_sku"] [[("product_sku", PInt 1)]]).
Proof. repeat constructor. Qed.

(** ** A file that fails *)

Lemma merge_json_files_records load files1 files2 :
  all_records load files1 = all_records load files2 ->
  snd (merge_json_files load files1) = snd (merge_json_files load files2).
Proof.
  unfold all_records, merge_json_files.
  destruct (collect load files1) as [log1 records1].
  destruct (collect load files2) as [log2 records2]. cbn [snd]. intros ->.
  destruct (sorted <- sort_values "category" (ingested_frame records2) ;;
            drop_duplicates "sku" sorted) as [df|e]; [|reflexivity].
  now destruct (ensure_columns required_columns df).
Qed.

Lemma merge_json_files_finish load json_files :
  merge_json_files load json_files
  = (fst (collect load json_files) ++ fst (finish (all_records load json_files)),
     snd (finish (all_records load json_files))).
Proof.
  unfold merge_json_files, finish, all_records.
  destruct (collect load json_files) as [log records]. cbn [fst snd].
  destruct (sorted <- sort_values "category" (ingested_frame records) ;;
            drop_duplicates "sku" sorted) as [df|e].
  - now destruct (ensure_columns required_columns df).
  - cbn [fst snd]. now rewrite app_nil_r.
Qed.

Lemma finish_warnings records :
  exists created, fst (finish records) = map WarnMissingColumn created.
Proof.
  unfold finish.
  destruct (sorted <- sort_values "category" (ingested_frame records) ;;
            drop_duplicates "sku" sorted) as [df|e].
  - destruct (ensure_columns_extend required_columns df) as [added [H _]].
    rewrite H. now exists added.
  - now exists [].
Qed.

(** C6: a file whose loading or tagging raises is reported by
    [merge_json_files], at its place among the lines of the other files,
    and adds no record; the files before and after it are processed as if
    it were not in the list, and when the records they give have a sku the
    table is returned, deduplicated as without the file.  Loading errors, a
    top-level value that is not a list, and a list holding something that
    is not an object are such failures; the only non-list values that do
    not raise, the empty object and the empty string, add no record
    either.  But when no other file gives a record the run does not go on:
    the sort raises [KeyError] for [category], as for a malformed file
    alone. *)
Theorem merge_json_files_skips_failed_file :
  (forall (load : string -> result pyval) (before after_ : list string)
          (bad : string) (e : exn),
      ingest_file load bad = Raise e ->
      let others := all_records load before ++ all_records load after_ in
      (exists created,
          fst (merge_json_files load (before ++ bad :: after_))
          = fst (collect load before)
            ++ ErrorProcessing bad e :: fst (collect load after_)
            ++ map WarnMissingColumn created
          /\ fst (merge_json_files load (before ++ after_))
             = fst (collect load before) ++ fst (collect load after_)
               ++ map WarnMissingColumn created)
      /\ all_records load (before ++ bad :: after_) = others
      /\ snd (merge_json_files load (before ++ bad :: after_))
         = snd (merge_json_files load (before ++ after_))
      /\ (has_column "sku" (ingested_frame others) = true ->
          exists out,
            snd (merge_json_files load (before ++ bad :: after_)) = Ok out
            /\ keeps_greatest_per_sku (ingested_frame others) out)
      /\ (others = [] ->
          merge_json_files load (before ++ bad :: after_)
          = (fst (collect load before)
             ++ ErrorProcessing bad e :: fst (collect load after_),
             Raise (KeyError "category"))))
  /\ (forall load file_path e,
         load file_path = Raise e -> ingest_file load file_path = Raise e)
  /\ (forall load file_path data,
         load file_path = Ok data ->
         (forall items, data <> PList items) ->
         ingest_file load file_path = Raise TypeError
         \/ ingest_file load file_path = Ok [])
  /\ (forall load file_path items item,
         load file_path = Ok (PList items) ->
         In item items ->
         (forall d, item <> PDict d) ->
         ingest_file load file_path = Raise TypeError)
  /\ merge_json_files empty_load ["data/broken.json"]
     = ([ErrorProcessing "data/broken.json" JSONDecodeError],
        Raise (KeyError "category")).
Proof.
  split; [|split; [|split; [|split; [|reflexivity]]]].
  - intros load before after_ bad e Hbad others.
    assert (Hcollect : collect load (before ++ bad :: after_)
              = (fst (collect load before)
                 ++ ErrorProcessing bad e :: fst (collect load after_),
                 others)).
    { unfold others, all_records. rewrite !collect_app, collect_cons, Hbad.
      reflexivity. }
    assert (Hrecords : all_records load (before ++ bad :: after_) = others)
      by (unfold all_records at 1; now rewrite Hcollect).
    assert (Hwithout : all_records load (before ++ after_) = others)
      by (unfold others, all_records; now rewrite collect_app).
    split; [|split; [exact Hrecords|split; [|split]]].
    + destruct (finish_warnings others) as [created Hcreated]. exists created.
      rewrite !merge_json_files_finish, Hrecords, Hwithout, Hcollect, collect_app.
      cbn [fst]. rewrite Hcreated. now rewrite <- !app_assoc.
    + apply merge_json_files_records. now rewrite Hrecords, Hwithout.
    + intro Hsku.
      destruct (merge_json_files_keeps_greatest load (before ++ bad :: after_))
        as [out [Hout Hkeeps]]; [now rewrite Hrecords|].
      rewrite Hrecords in Hkeeps. eauto.
    + intro Hnone. rewrite merge_json_files_finish, Hrecords, Hcollect, Hnone.
      cbn [fst snd finish]. now rewrite app_nil_r.
  - intros load file_path e H. unfold ingest_file. now rewrite H.
  - intros load file_path data H Hshape. unfold ingest_file. rewrite H. simpl.
    destruct data as [| | | |s|items|fields]; simpl; auto.
    + destruct s; auto.
    + exfalso. now apply (Hshape items).
    + destruct fields; auto.
  - intros load file_path items item H Hin Hitem. unfold ingest_file. rewrite H.
    simpl. clear H. induction items as [|x rest IH]; [destruct Hin|].
    simpl. destruct Hin as [->|Hin].
    + destruct item; try reflexivity. exfalso. now apply (Hitem fields).
    + destruct x; try reflexivity. simpl. now rewrite (IH Hin).
Qed.

Lemma merge_json_files_skips_failed_file_witness :
  merge_json_files empty_load ([] ++ "data/broken.json" :: [])
  = (fst (collect empty_load [])
     ++ ErrorProcessing "data/broken.json" JSONDecodeError :: fst (collect empty_load []),
     Raise (KeyError "category")).
Proof.
  exact (proj2 (proj2 (proj2 (proj2
           (proj1 merge_json_files_skips_failed_file empty_load
                  [] [] "data/broken.json" JSONDecodeError eq_refl)))) eq_refl).
Defined.

(** ** The category of a record *)

Lemma sort_values_rows by_ df sorted :
  sort_values by_ df = Ok sorted ->
  has_column by_ df = true
  /\ columns sorted = columns df
  /\ forall r, In r (rows sorted) -> In r (rows df).
Proof.
  unfold sort_values. destruct (has_column by_ df); [|discriminate].
  intro H. inversion H. subst. simpl. repeat split; auto.
  intros r Hr. now apply sort_by_In in Hr.
Qed.

Lemma drop_duplicates_rows subset df kept :
  drop_duplicates subset df = Ok kept ->
  columns kept = columns df /\ forall r, In r (rows kept) -> In r (rows df).
Proof.
  unfold drop_duplicates.
  destruct (rows df) as [|r0 rest] eqn:Hrows.
  - intro H. inversion H. subst. rewrite Hrows. auto.
  - destruct (columns df) as [|c cols] eqn:Hcols.
    + intro H. inversion H. subst. rewrite Hrows. auto.
    + destruct (negb (has_column subset df)); [discriminate|].
      intro H. injection H as <-. cbn [rows columns]. split; [auto|].
      intros r Hr. change (In r (keep_last subset (r0 :: rest))) in Hr.
      now apply keep_last_In in Hr.
Qed.

Lemma tag_all_own_category category v items :
  tag_all category
          (map (fun item =>
                  match item with
                  | PDict d => if mem "category" (map fst d)
                               then PDict (dict_set "category" v d) else item
                  | _ => item
                  end) items)
  = tag_all category items.
Proof.
  induction items as [|item rest IH]; [reflexivity|].
  cbn [map tag_all]. rewrite IH.
  destruct item as [| | | | | |d]; try reflexivity.
  destruct (mem "category" (map fst d)); [|reflexivity].
  simpl. now rewrite dict_set_set.
Qed.

Lemma ingest_file_own_category v load file_path :
  ingest_file (load_with_own_category v load) file_path = ingest_file load file_path.
Proof.
  unfold ingest_file, load_with_own_category.
  destruct (load file_path) as [data|e]; [|reflexivity]. simpl.
  destruct data; try reflexivity. simpl. apply tag_all_own_category.
Qed.

Lemma collect_own_category v load json_files :
  collect (load_with_own_category v load) json_files = collect load json_files.
Proof.
  induction json_files as [|f rest IH]; [reflexivity|].
  now rewrite !collect_cons, IH, ingest_file_own_category.
Qed.

(** C10: every record collected carries the category of the file it came
    from, whether or not the source record had a [category] field; the value
    such a field had has no effect on what [merge_json_files] prints or
    returns, and every row of the table returned has the category of one of
    the files.  A record of [electronics.json] that says [category: legacy]
    comes out with category [electronics]. *)
Theorem merge_json_files_category :
  (forall load json_files d,
      In d (all_records load json_files) ->
      exists file_path items d0,
        In file_path json_files
        /\ load file_path = Ok (PList items)
        /\ In (PDict d0) items
        /\ d = dict_set "category" (PStr (category_of file_path)) d0
        /\ dict_get "category" d = Some (PStr (category_of file_path)))
  /\ (forall v load json_files,
         merge_json_files (load_with_own_category v load) json_files
         = merge_json_files load json_files)
  /\ (forall load json_files out o,
         snd (merge_json_files load json_files) = Ok out ->
         In o (rows out) ->
         exists file_path,
           In file_path json_files
           /\ cell "category" o = PStr (category_of file_path))
  /\ snd (merge_json_files legacy_load ["data/electronics.json"])
     = Ok (mkFrame required_columns
             [[("sku", PInt 7); ("name", PStr "Radio"); ("brand", PStr "");
               ("category", PStr "electronics")]]).
Proof.
  split; [|split; [|split; [|reflexivity]]].
  - intros load json_files d Hd.
    destruct (all_records_In _ _ _ Hd) as [f [items [d0 [H1 [H2 [H3 H4]]]]]].
    exists f, items, d0. repeat split; auto.
    rewrite H4. apply dict_get_set_same.
  - intros v load json_files. unfold merge_json_files.
    now rewrite collect_own_category.
  - intros load json_files out o Hout Ho.
    pose proof (all_records_tagged load json_files) as Hcatkey.
    unfold merge_json_files in Hout.
    pose proof (fun r => ingested_frame_category (all_records load json_files) r Hcatkey)
      as Hcell.
    pose proof (wf_ingested_frame (all_records load json_files)) as Hwf.
    unfold all_records in Hcell, Hwf.
    pose proof (all_records_category load json_files) as Hfile.
    unfold all_records in Hfile.
    destruct (collect load json_files) as [log records]. simpl in Hcell, Hwf, Hfile.
    set (df := ingested_frame records) in *.
    destruct (sort_values "category" df) as [sorted|e] eqn:Hsort;
      cbn [bind] in Hout; [|discriminate].
    destruct (drop_duplicates "sku" sorted) as [kept|e] eqn:Hdrop;
      [|discriminate].
    destruct (sort_values_rows _ _ _ Hsort) as [Hcat [Hcols Hrows]].
    destruct (drop_duplicates_rows _ _ _ Hdrop) as [Hcols' Hrows'].
    assert (Hwfk : wf_frame kept).
    { unfold wf_frame in *. rewrite Forall_forall in *. intros r Hr.
      rewrite Hcols', Hcols. auto. }
    destruct (normalise_frame kept Hwfk) as [added [H1 [_ H3]]].
    rewrite H1 in Hout. cbn [snd] in Hout. rewrite H3 in Hout.
    injection Hout as <-. cbn [rows] in Ho.
    apply in_map_iff in Ho. destruct Ho as [r [<- Hr]].
    destruct (Hcell r (Hrows _ (Hrows' _ Hr))) as [rec [s [Hrec [Hs Hc]]]].
    destruct (Hfile rec Hrec) as [f [Hf Hget]].
    exists f. split; [exact Hf|].
    rewrite output_row_cell.
    + rewrite Hc. congruence.
    + simpl. auto.
    + unfold has_column in *. now rewrite Hcols', Hcols.
Qed.

(** * Further properties of the code *)

(** ** The outcome of the merge *)

(** The result of [merge_json_files] in closed form. *)
Lemma merge_json_files_result load json_files :
  let records := all_records load json_files in
  let df := ingested_frame records in
  snd (merge_json_files load json_files)
  = match records with
    | [] => Raise (KeyError "category")
    | _ :: _ =>
        if negb (has_column "sku" df) then Raise (KeyError "sku")
        else Ok (mkFrame required_columns
                   (map (output_row df)
                        (keep_last "sku" (sort_by (row_leb "category") (rows df)))))
    end.
Proof.
  intros records df.
  destruct records as [|rec rest] eqn:Hrecords.
  - unfold merge_json_files. unfold records, all_records in Hrecords.
    destruct (collect load json_files) as [log rs]. simpl in Hrecords. now subst rs.
  - assert (Hne : all_records load json_files <> []) by (fold records; congruence).
    destruct (has_column "sku" df) eqn:Hsku; cbn [negb].
    + destruct (merge_json_files_ok load json_files) as [added [Hrun _]];
        [fold records; rewrite Hrecords; exact Hsku|].
      fold records in Hrun. rewrite Hrecords in Hrun. fold df in Hrun.
      now rewrite Hrun.
    + pose proof (all_records_tagged load json_files) as Hcatkey.
      assert (Hcat : has_column "category" df = true).
      { unfold df. rewrite <- Hrecords. unfold records.
        now apply ingested_frame_has_category. }
      assert (Hrows : rows df <> []).
      { intro Hnil.
        pose proof (ingested_frame_rows_length (rec :: rest)) as Hlen.
        fold df in Hlen. rewrite Hnil in Hlen. discriminate. }
      unfold merge_json_files. unfold records, all_records in Hrecords.
      destruct (collect load json_files) as [log rs]. simpl in Hrecords. subst rs.
      fold df. now rewrite (sort_then_dedup_no_sku df Hcat Hrows Hsku).
Qed.

Lemma merge_json_files_inv load json_files out :
  snd (merge_json_files load json_files) = Ok out ->
  let df := ingested_frame (all_records load json_files) in
  has_column "sku" df = true
  /\ out = mkFrame required_columns
                   (map (output_row df)
                        (keep_last "sku" (sort_by (row_leb "category") (rows df)))).
Proof.
  intros Hout df. rewrite merge_json_files_result in Hout. fold df in Hout.
  destruct (all_records load json_files); [discriminate|].
  destruct (has_column "sku" df); [|discriminate].
  cbn [negb] in Hout. injection Hout as <-. auto.
Qed.

(** X1: [merge_json_files] returns a table exactly when the frame has a
    [sku] column, from [sku] or from [id], whatever the skus are: a sku that
    is a list or an object is a key as any other.  Then the table has at
    least one row.  The merge raises nothing but [KeyError], for [category]
    when there is no record and for [sku] when no record has one. *)
Theorem merge_json_files_returns_iff
        (load : string -> result pyval) (json_files : list string) :
  let records := all_records load json_files in
  let df := ingested_frame records in
  ((exists out, snd (merge_json_files load json_files) = Ok out) <->
   has_column "sku" df = true)
  /\ (forall out, snd (merge_json_files load json_files) = Ok out -> rows out <> [])
  /\ (forall e,
         snd (merge_json_files load json_files) = Raise e ->
         (e = KeyError "category" /\ records = [])
         \/ (e = KeyError "sku" /\ records <> [] /\ has_column "sku" df = false)).
Proof.
  intros records df. pose proof (merge_json_files_result load json_files) as Hres.
  cbv zeta in Hres. fold records in Hres. fold df in Hres.
  split; [|split].
  - split.
    + intros [out Hout]. now destruct (merge_json_files_inv _ _ _ Hout) as [H1 _].
    + intro Hsku. rewrite Hres.
      destruct records eqn:Hrecords.
      * apply ingested_frame_nonempty in Hsku. congruence.
      * rewrite Hsku. cbn [negb]. eauto.
  - intros out Hout. destruct (merge_json_files_inv _ _ _ Hout) as [Hsku ->].
    fold records in Hsku |- *. fold df in Hsku |- *. cbn [rows].
    pose proof (ingested_frame_nonempty _ _ Hsku) as Hne.
    pose proof (ingested_frame_rows_length records) as Hlen. fold df in Hlen.
    destruct (rows df) as [|r rest] eqn:Hrows.
    { destruct records; [congruence|discriminate]. }
    destruct (keep_last_covers "sku" (sort_by (row_leb "category") (r :: rest)) r)
      as [o [Ho _]]; [apply sort_by_In; now left|].
    intro Hnil. apply map_eq_nil in Hnil. rewrite Hnil in Ho. destruct Ho.
  - intros e He. rewrite Hres in He.
    destruct records eqn:Hrecords; [injection He as <-; auto|].
    destruct (has_column "sku" df) eqn:Hsku; cbn [negb] in He; [discriminate|].
    injection He as <-. right. repeat split; congruence.
Qed.

Lemma merge_json_files_returns_iff_witness :
  exists out, snd (merge_json_files nested_sku_load ["data/kits.json"]) = Ok out.
Proof.
  exact (proj2 (proj1 (merge_json_files_returns_iff nested_sku_load ["data/kits.json"]))
               eq_refl).
Defined.

(** Skus that are lists are deduplicated by value, as any other sku. *)
Example merge_json_files_list_sku :
  snd (merge_json_files kits_load ["data/a.json"; "data/b.json"])
  = Ok (mkFrame required_columns
          [[("sku", PList [PInt 1; PInt 2]); ("name", PStr "Set"); ("brand", PStr "");
            ("category", PStr "b")]]).
Proof. reflexivity. Qed.

Lemma output_row_keys df r : map fst (output_row df r) = required_columns.
Proof. reflexivity. Qed.

(** X2: a table returned by [merge_json_files] has the four labels [sku],
    [name], [brand], [category] in this order, and every row holds exactly
    one cell for each of them: any other field of the records is dropped. *)
Theorem merge_json_files_schema
        (load : string -> result pyval) (json_files : list string) (out : DataFrame) :
  snd (merge_json_files load json_files) = Ok out ->
  columns out = ["sku"; "name"; "brand"; "category"]
  /\ Forall (fun o => map fst o = ["sku"; "name"; "brand"; "category"]) (rows out).
Proof.
  intro Hout. destruct (merge_json_files_inv _ _ _ Hout) as [_ ->].
  split; [reflexivity|]. cbn [rows]. apply Forall_forall. intros o Ho.
  apply in_map_iff in Ho. destruct Ho as [r [<- _]]. apply output_row_keys.
Qed.

Lemma merge_json_files_schema_witness :
  columns (mkFrame required_columns
             [[("sku", PInt 7); ("name", PStr "Radio"); ("brand", PStr "");
               ("category", PStr "electronics")]])
  = ["sku"; "name"; "brand"; "category"]
  /\ Forall (fun o => map fst o = ["sku"; "name"; "brand"; "category"])
            (rows (mkFrame required_columns
                     [[("sku", PInt 7); ("name", PStr "Radio"); ("brand", PStr "");
                       ("category", PStr "electronics")]])).
Proof.
  exact (merge_json_files_schema legacy_load ["data/electronics.json"] _ eq_refl).
Defined.

(** ** Order and number of the rows *)

Lemma keep_last_sorted (R : row -> row -> Prop) subset rs :
  StronglySorted R rs -> StronglySorted R (keep_last subset rs).
Proof.
  induction 1 as [|x rest Hs IH Hall]; simpl; [constructor|].
  destruct (existsb _ rest); [exact IH|].
  constructor; [exact IH|].
  rewrite Forall_forall in *. intros o Ho. apply Hall.
  now apply keep_last_In in Ho.
Qed.

Lemma keep_last_length subset rs :
  (List.length (keep_last subset rs) <= List.length rs)%nat.
Proof.
  induction rs as [|x rest IH]; simpl; [lia|].
  destruct (existsb _ rest); simpl; lia.
Qed.

Lemma keep_last_distinct subset rs :
  NoDup (map (fun r => hash_key (cell subset r)) rs) ->
  keep_last subset rs = rs.
Proof.
  induction rs as [|x rest IH]; simpl; intro Hnd; [reflexivity|].
  inversion Hnd as [|? ? Hnot Hrest]. subst.
  rewrite (IH Hrest).
  destruct (existsb _ rest) eqn:E; [|reflexivity].
  exfalso. apply existsb_exists in E. destruct E as [r' [Hr' Hsame]].
  apply same_key_iff in Hsame.
  apply Hnot. rewrite Hsame.
  now apply (in_map (fun r => hash_key (cell subset r))).
Qed.

Lemma StronglySorted_map {A B : Type} (R : A -> A -> Prop) (Q : B -> B -> Prop)
      (f : A -> B) l :
  (forall a b, In a l -> In b l -> R a b -> Q (f a) (f b)) ->
  StronglySorted R l -> StronglySorted Q (map f l).
Proof.
  intros HRQ Hs. induction Hs as [|x rest Hs IH Hall]; simpl; [constructor|].
  constructor.
  - apply IH. intros a b Ha Hb. apply HRQ; now right.
  - rewrite Forall_forall in *. intros y Hy.
    apply in_map_iff in Hy. destruct Hy as [b [<- Hb]].
    apply HRQ; [now left|now right|]. now apply Hall.
Qed.

(** X3: the rows of a table returned by [merge_json_files] are in ascending
    order of category: each row's category is a string that is not greater
    than the category of any row after it. *)
Theorem merge_json_files_sorted
        (load : string -> result pyval) (json_files : list string) (out : DataFrame) :
  snd (merge_json_files load json_files) = Ok out ->
  StronglySorted
    (fun a b => exists ca cb, cell "category" a = PStr ca
                              /\ cell "category" b = PStr cb
                              /\ String.leb ca cb = true)
    (rows out).
Proof.
  intro Hout. destruct (merge_json_files_inv _ _ _ Hout) as [Hsku ->].
  set (df := ingested_frame (all_records load json_files)) in *.
  cbn [rows].
  pose proof (all_records_tagged load json_files) as Hcatkey.
  assert (Hcat : has_column "category" df = true).
  { apply ingested_frame_has_category; [exact Hcatkey|].
    eapply ingested_frame_nonempty. exact Hsku. }
  apply (StronglySorted_map (le_of (row_leb "category"))).
  - intros a b Ha Hb Hle.
    apply keep_last_In in Ha, Hb. apply sort_by_In in Ha, Hb.
    destruct (ingested_frame_category _ a Hcatkey Ha) as [_ [ca [_ [_ Hca]]]].
    destruct (ingested_frame_category _ b Hcatkey Hb) as [_ [cb [_ [_ Hcb]]]].
    exists ca, cb.
    rewrite !output_row_cell by (simpl; auto).
    repeat split; auto.
    unfold le_of, row_leb in Hle. now rewrite Hca, Hcb in Hle.
  - apply keep_last_sorted, sort_by_strongly;
      [apply row_leb_total|apply row_leb_trans].
Qed.

Lemma merge_json_files_sorted_witness :
  StronglySorted
    (fun a b => exists ca cb, cell "category" a = PStr ca
                              /\ cell "category" b = PStr cb
                              /\ String.leb ca cb = true)
    [[("sku", PInt 1); ("name", PStr "Widget"); ("brand", PStr "Acme");
      ("category", PStr "a")];
     [("sku", PInt 2); ("name", PStr "Gadget"); ("brand", PStr "Zenith");
      ("category", PStr "b")]].
Proof.
  exact (merge_json_files_sorted e2e_load ["data/b.json"; "data/a.json"] _ eq_refl).
Defined.

(** X4: a table returned by [merge_json_files] has at most one row for each
    record collected, and when no two rows of the frame have the same sku,
    as the frame stores it, its rows are the records, each projected on the
    required columns, in some order: nothing is dropped. *)
Theorem merge_json_files_row_count
        (load : string -> result pyval) (json_files : list string) (out : DataFrame) :
  snd (merge_json_files load json_files) = Ok out ->
  let df := ingested_frame (all_records load json_files) in
  (List.length (rows out) <= List.length (all_records load json_files))%nat
  /\ (NoDup (map (fun r => hash_key (cell "sku" r)) (rows df)) ->
      Permutation (map (output_row df) (rows df)) (rows out)
      /\ List.length (rows out) = List.length (all_records load json_files)).
Proof.
  intros Hout df. destruct (merge_json_files_inv _ _ _ Hout) as [Hsku ->].
  fold df in Hsku |- *. cbn [rows].
  pose proof (ingested_frame_rows_length (all_records load json_files)) as Hlen.
  fold df in Hlen.
  pose proof (sort_by_perm (row_leb "category") (rows df)) as Hperm.
  split.
  - rewrite length_map, <- Hlen, (Permutation_length Hperm). apply keep_last_length.
  - intro Hnd.
    assert (Hkeep : keep_last "sku" (sort_by (row_leb "category") (rows df))
                    = sort_by (row_leb "category") (rows df)).
    { apply keep_last_distinct.
      eapply Permutation_NoDup; [|exact Hnd].
      now apply Permutation_map. }
    rewrite Hkeep. split; [now apply Permutation_map|].
    now rewrite length_map, <- (Permutation_length Hperm).
Qed.

Lemma merge_json_files_row_count_witness :
  exists out,
    snd (merge_json_files mixed_load ["data/a.json"; "data/b.json"]) = Ok out
    /\ (List.length (rows out) <= 2)%nat
    /\ Permutation
         (map (output_row (ingested_frame
                             (all_records mixed_load ["data/a.json"; "data/b.json"])))
              (rows (ingested_frame
                       (all_records mixed_load ["data/a.json"; "data/b.json"]))))
         (rows out)
    /\ List.length (rows out) = 2%nat.
Proof.
  eexists. split; [reflexivity|].
  destruct (merge_json_files_row_count mixed_load ["data/a.json"; "data/b.json"] _ eq_refl)
    as [Hle Hall].
  split; [exact Hle|]. apply Hall.
  simpl. repeat constructor; simpl; intuition discriminate.
Defined.

(** ** The rename of [id] *)

Lemma rename_get_new old new (r : row) :
  dict_get new r = None ->
  dict_get new (map (fun '(c, v) => (rename_label old new c, v)) r) = dict_get old r.
Proof.
  induction r as [|[k v] rest IH]; simpl; [reflexivity|].
  destruct (String.eqb k new) eqn:Enew; [discriminate|].
  intro Hrest. unfold rename_label at 1.
  destruct (String.eqb k old) eqn:Eold.
  - now rewrite String.eqb_refl.
  - rewrite Enew. now apply IH.
Qed.

(** X5: the frame built from the records is renamed only when it has an
    [id] column and no [sku] column; then [sku] takes the place of [id],
    every row's sku cell is the id cell it had, and the other cells are
    untouched.  When some record has a [sku] field the [id] column is left
    as it is. *)
Theorem ingested_frame_rename (records : list pydict) :
  let df0 := DataFrame_of_records records in
  let df := ingested_frame records in
  (has_column "sku" df0 = true -> df = df0)
  /\ (has_column "id" df0 = false -> df = df0)
  /\ (has_column "id" df0 = true ->
      has_column "sku" df0 = false ->
      has_column "sku" df = true
      /\ has_column "id" df = false
      /\ List.length (columns df) = List.length (columns df0)
      /\ Forall2 (fun r0 r =>
                    cell "sku" r = cell "id" r0
                    /\ forall c, c <> "id" -> c <> "sku" -> cell c r = cell c r0)
                 (rows df0) (rows df)).
Proof.
  intros df0 df. unfold df, ingested_frame. fold df0.
  split; [|split].
  - intros ->. now rewrite andb_false_r.
  - now intros ->.
  - intros Hid Hsku. rewrite Hid, Hsku. cbn [andb negb].
    unfold has_column in *. cbn [rename_column columns rows].
    split; [|split; [|split]].
    + apply mem_In. apply in_map_iff. exists "id". split; [reflexivity|].
      now apply mem_In.
    + apply mem_not_In. intro Hin. apply in_map_iff in Hin.
      destruct Hin as [c [Hc _]]. unfold rename_label in Hc.
      destruct (String.eqb c "id") eqn:E; [discriminate|].
      apply String.eqb_neq in E. contradiction.
    + apply length_map.
    + apply Forall2_map_right. intros r0 Hr0.
      pose proof (wf_DataFrame_of_records records) as Hwf. fold df0 in Hwf.
      unfold wf_frame in Hwf. rewrite Forall_forall in Hwf.
      split.
      * unfold cell. rewrite rename_get_new; [reflexivity|].
        apply dict_get_None. rewrite (Hwf r0 Hr0). now apply mem_not_In.
      * intros c H1 H2. unfold cell. now rewrite rename_get.
Qed.

(** ** The log of the loop *)

(** X6: the loop prints one line for each file of the list, in the order of
    the list: the number of its records when the file was read, the
    exception otherwise; the records collected are those of the files that
    were read, in the same order; and [merge_json_files] prints these lines
    first, whatever happens afterwards, followed only by the warnings for
    columns it creates. *)
Theorem collect_reports_every_file
        (load : string -> result pyval) (json_files : list string) :
  Forall2 (fun file_path d =>
             match ingest_file load file_path with
             | Ok data => d = Processed file_path (List.length data)
             | Raise e => d = ErrorProcessing file_path e
             end)
          json_files (fst (collect load json_files))
  /\ all_records load json_files
     = flat_map (fun file_path =>
                   match ingest_file load file_path with
                   | Ok data => data
                   | Raise _ => []
                   end) json_files
  /\ exists created,
       fst (merge_json_files load json_files)
       = fst (collect load json_files) ++ map WarnMissingColumn created.
Proof.
  split; [|split].
  - induction json_files as [|f rest IH]; [constructor|].
    rewrite collect_cons.
    destruct (ingest_file load f) as [data|e] eqn:E; cbn [fst];
      constructor; try exact IH; now rewrite E.
  - unfold all_records. induction json_files as [|f rest IH]; [reflexivity|].
    rewrite collect_cons. cbn [flat_map].
    destruct (ingest_file load f) as [data|e]; cbn [snd]; now rewrite IH.
  - unfold merge_json_files.
    destruct (collect load json_files) as [log records]. cbn [fst].
    destruct (sorted <- sort_values "category" (ingested_frame records) ;;
              drop_duplicates "sku" sorted) as [df|e].
    + destruct (ensure_columns_extend required_columns df) as [added [H _]].
      rewrite H. now exists added.
    + exists []. cbn [map fst]. now rewrite app_nil_r.
Qed.

Lemma ingested_frame_rename_witness :
  has_column "sku" (ingested_frame (all_records p3_load p3_files)) = true
  /\ has_column "id" (ingested_frame (all_records p3_load p3_files)) = false
  /\ List.length (columns (ingested_frame (all_records p3_load p3_files)))
     = List.length (columns (DataFrame_of_records (all_records p3_load p3_files)))
  /\ Forall2 (fun r0 r =>
                cell "sku" r = cell "id" r0
                /\ forall c, c <> "id" -> c <> "sku" -> cell c r = cell c r0)
             (rows (DataFrame_of_records (all_records p3_load p3_files)))
             (rows (ingested_frame (all_records p3_load p3_files))).
Proof.
  exact (proj2 (proj2 (ingested_frame_rename (all_records p3_load p3_files)))
               eq_refl eq_refl).
Defined.

(** ** The choice of the join column *)

Lemma resolve_join_column_contains cols :
  Str.contains "sku" (Str.lower (fst (resolve_join_column cols))) = true.
Proof.
  unfold resolve_join_column. destruct (mem "product_sku" cols); [reflexivity|].
  destruct (filter (fun col => Str.contains "sku" (Str.lower col)) cols)
    as [|c rest] eqn:E; [reflexivity|].
  assert (Hc : In c (filter (fun col => Str.contains "sku" (Str.lower col)) cols))
    by (rewrite E; now left).
  apply filter_In in Hc. exact (proj2 Hc).
Qed.

Lemma resolve_join_column_In cols :
  In (fst (resolve_join_column cols)) cols
  <-> exists c, In c cols /\ Str.contains "sku" (Str.lower c) = true.
Proof.
  split.
  - intro Hin. eexists. split; [exact Hin|apply resolve_join_column_contains].
  - intros [c [Hc Hsku]]. unfold resolve_join_column.
    destruct (mem "product_sku" cols) eqn:Hp; [now apply mem_In|].
    destruct (filter (fun col => Str.contains "sku" (Str.lower col)) cols)
      as [|c' rest] eqn:E.
    + assert (Hin : In c (filter (fun col => Str.contains "sku" (Str.lower col)) cols))
        by (apply filter_In; auto).
      rewrite E in Hin. destruct Hin.
    + assert (Hin : In c' (filter (fun col => Str.contains "sku" (Str.lower col)) cols))
        by (rewrite E; now left).
      apply filter_In in Hin. exact (proj1 Hin).
Qed.

(** X7: the join column is [product_sku] whenever the CSV has that column,
    even after another column that mentions sku; otherwise it is the first
    column, in the order of the CSV, whose lowercased name contains [sku],
    and the choice is printed.  The column chosen is a column of the CSV
    exactly when some column name contains [sku] in some letter case. *)
Theorem resolve_join_column_choice (cols : list string) :
  (In "product_sku" cols -> resolve_join_column cols = ("product_sku", []))
  /\ (forall before c after_,
         cols = before ++ c :: after_ ->
         ~ In "product_sku" cols ->
         (forall b, In b before -> Str.contains "sku" (Str.lower b) = false) ->
         Str.contains "sku" (Str.lower c) = true ->
         resolve_join_column cols = (c, [UsingColumn c]))
  /\ (In (fst (resolve_join_column cols)) cols
      <-> exists c, In c cols /\ Str.contains "sku" (Str.lower c) = true).
Proof.
  split; [|split].
  - intro Hin. unfold resolve_join_column.
    apply mem_In in Hin. now rewrite Hin.
  - intros before c after_ -> Hno Hbefore Hc. unfold resolve_join_column.
    apply mem_not_In in Hno. rewrite Hno.
    rewrite filter_app, (filter_none _ _ Hbefore). cbn [filter app].
    now rewrite Hc.
  - apply resolve_join_column_In.
Qed.

Lemma resolve_join_column_choice_witness :
  resolve_join_column ["id"; "Item_SKU"; "sku_code"] = ("Item_SKU", [UsingColumn "Item_SKU"]).
Proof.
  refine (proj1 (proj2 (resolve_join_column_choice ["id"; "Item_SKU"; "sku_code"]))
                ["id"] "Item_SKU" ["sku_code"] eq_refl _ _ eq_refl).
  - simpl. intuition discriminate.
  - intros b [<-|[]]. reflexivity.
Defined.

(** The Kelvin sign lowers to [k]: a column named S, Kelvin sign, U is a
    sku column. *)
Example resolve_join_column_kelvin :
  resolve_join_column ["qty"; String "S" (String "226" (String "132" (String "170" "U")))]
  = (String "S" (String "226" (String "132" (String "170" "U"))),
     [UsingColumn (String "S" (String "226" (String "132" (String "170" "U"))))]).
Proof. reflexivity. Qed.

(** ** Rows of the join *)

Lemma join_one_rows matches matched unmatched right l :
  join_one matches matched unmatched right l <> []
  /\ forall o, In o (join_one matches matched unmatched right l) ->
               o = unmatched l \/ exists r, In r right /\ o = matched l r.
Proof.
  unfold join_one. destruct (filter (matches l) right) as [|m ms] eqn:E.
  - split; [discriminate|]. intros o [<-|[]]. now left.
  - split; [discriminate|]. intros o Ho. right.
    apply in_map_iff in Ho. destruct Ho as [r [<- Hr]].
    exists r. split; [|reflexivity].
    rewrite <- E in Hr. now apply filter_In in Hr.
Qed.

Lemma left_join_rows_length matches matched unmatched left right :
  (List.length left
   <= List.length (left_join_rows matches matched unmatched left right))%nat.
Proof.
  unfold left_join_rows. induction left as [|l rest IH]; [simpl; lia|].
  cbn [flat_map]. rewrite length_app.
  destruct (join_one_rows matches matched unmatched right l) as [Hne _].
  destruct (join_one matches matched unmatched right l); [congruence|].
  simpl. lia.
Qed.

Lemma left_join_rows_sound matches matched unmatched left right o :
  In o (left_join_rows matches matched unmatched left right) ->
  exists l, In l left
            /\ (o = unmatched l \/ exists r, In r right /\ o = matched l r).
Proof.
  unfold left_join_rows. intro Ho. apply in_flat_map in Ho.
  destruct Ho as [l [Hl Ho]]. exists l. split; [exact Hl|].
  now apply (proj2 (join_one_rows matches matched unmatched right l)).
Qed.

Lemma left_join_rows_covers matches matched unmatched left right l :
  In l left ->
  exists o, In o (left_join_rows matches matched unmatched left right)
            /\ (o = unmatched l \/ exists r, In r right /\ o = matched l r).
Proof.
  intro Hl. destruct (join_one_rows matches matched unmatched right l) as [Hne Hall].
  destruct (join_one matches matched unmatched right l) as [|o os] eqn:E; [congruence|].
  exists o. split.
  - unfold left_join_rows. apply in_flat_map. exists l. split; [exact Hl|].
    rewrite E. now left.
  - apply Hall. now left.
Qed.

(** What [join_csv_files] returns when both key columns exist and the
    suffixes repeat no label. *)
Lemma join_csv_files_rows read_csv merged_df input_csv_path input_df :
  read_csv input_csv_path = Ok input_df ->
  let join_column := fst (resolve_join_column (columns input_df)) in
  has_column join_column input_df = true ->
  has_column "sku" merged_df = true ->
  let left_cols := columns input_df in
  let right_cols := right_labels join_column "sku" merged_df in
  suffix_clash left_cols right_cols = false ->
  exists float_cols,
    joined (join_csv_files read_csv merged_df input_csv_path)
    = Ok (mkFrame
            (merged_labels left_cols right_cols)
            (left_join_rows
               (fun l r => same_key (cell join_column l) (cell "sku" r))
               (fun l r => left_cells left_cols right_cols l
                           ++ right_cells left_cols right_cols (promote float_cols r))
               (fun l => left_cells left_cols right_cols l
                         ++ null_cells left_cols right_cols)
               (map (astype_row join_column) (rows input_df))
               (map (astype_row "sku") (rows merged_df)))).
Proof.
  intros Hread jc Hjc Hsku left_cols right_cols Hclash.
  rewrite (join_csv_files_merge read_csv merged_df input_csv_path input_df
             Hread Hjc Hsku).
  fold jc.
  pose proof (pd_merge_left_keys (astype_str jc input_df) (astype_str "sku" merged_df)
                jc "sku" Hjc Hsku) as Hmerge.
  cbv zeta in Hmerge.
  change (right_labels jc "sku" (astype_str "sku" merged_df)) with right_cols in Hmerge.
  change (columns (astype_str jc input_df)) with left_cols in Hmerge.
  rewrite Hclash in Hmerge. exact Hmerge.
Qed.

(** X8: with a key column on each side and suffixes that repeat no label
    the join never loses and never invents an external row: it returns at
    least as many rows as the CSV has, every row of the CSV is the beginning
    of some row returned, and every row returned begins with the cells of
    some row of the CSV (the key as text). *)
Theorem join_csv_files_keeps_rows
        (read_csv : string -> result DataFrame) (merged_df : DataFrame)
        (input_csv_path : string) (input_df : DataFrame) :
  read_csv input_csv_path = Ok input_df ->
  let join_column := fst (resolve_join_column (columns input_df)) in
  has_column join_column input_df = true ->
  has_column "sku" merged_df = true ->
  suffix_clash (columns input_df) (right_labels join_column "sku" merged_df) = false ->
  let begins_with := fun (o l : row) =>
    firstn (List.length (columns input_df)) (map snd o)
    = map (fun c => cell c (astype_row join_column l)) (columns input_df) in
  exists out,
    joined (join_csv_files read_csv merged_df input_csv_path) = Ok out
    /\ (List.length (rows input_df) <= List.length (rows out))%nat
    /\ (forall l, In l (rows input_df) -> exists o, In o (rows out) /\ begins_with o l)
    /\ (forall o, In o (rows out) -> exists l, In l (rows input_df) /\ begins_with o l).
Proof.
  intros Hread jc Hjc Hsku Hclash begins_with.
  destruct (join_csv_files_rows read_csv merged_df input_csv_path input_df
              Hread Hjc Hsku Hclash) as [float_cols ->].
  fold jc. eexists. split; [reflexivity|]. cbn [rows].
  split; [|split].
  - rewrite <- (length_map (astype_row jc) (rows input_df)) at 1.
    apply left_join_rows_length.
  - intros l Hl.
    match goal with
    | |- context [left_join_rows ?m ?f ?g ?ls ?rs] =>
        destruct (left_join_rows_covers m f g ls rs (astype_row jc l))
          as [o [Ho Hform]]; [now apply in_map|]
    end.
    exists o. split; [exact Ho|].
    unfold begins_with.
    destruct Hform as [->|[r [_ ->]]]; apply left_cells_values.
  - intros o Ho. apply left_join_rows_sound in Ho.
    destruct Ho as [l' [Hl' Hform]].
    apply in_map_iff in Hl'. destruct Hl' as [l [<- Hl]].
    exists l. split; [exact Hl|].
    unfold begins_with.
    destruct Hform as [->|[r [_ ->]]]; apply left_cells_values.
Qed.

(** ** The join called again *)

Lemma astype_row_idem col r : astype_row col (astype_row col r) = astype_row col r.
Proof.
  unfold astype_row. rewrite map_map. apply map_ext. intros [c v].
  destruct (String.eqb c col) eqn:E; now rewrite E.
Qed.

Lemma astype_str_idem col df : astype_str col (astype_str col df) = astype_str col df.
Proof.
  unfold astype_str. cbn [columns rows]. f_equal.
  rewrite map_map. apply map_ext. intro r. apply astype_row_idem.
Qed.

(** X9: the conversion of the catalog's sku column in place is idempotent:
    a second call of [join_csv_files] on the catalog as the first call left
    it prints the same, returns the same frame or raises the same exception,
    and leaves the catalog as it found it. *)
Theorem join_csv_files_again
        (read_csv : string -> result DataFrame) (merged_df : DataFrame)
        (input_csv_path : string) :
  let first := join_csv_files read_csv merged_df input_csv_path in
  let second := join_csv_files read_csv (merged_df_after first) input_csv_path in
  join_log second = join_log first
  /\ joined second = joined first
  /\ merged_df_after second = merged_df_after first.
Proof.
  cbv zeta. unfold join_csv_files.
  destruct (read_csv input_csv_path) as [input_df|e]; [|auto].
  destruct (resolve_join_column (columns input_df)) as [jc log].
  cbn [merged_df_after join_log joined].
  destruct (has_column "sku" merged_df) eqn:Hsku.
  - change (has_column "sku" (astype_str "sku" merged_df))
      with (has_column "sku" merged_df).
    rewrite Hsku, astype_str_idem. auto.
  - rewrite Hsku. auto.
Qed.

(** ** The join of a merged catalog *)

Lemma wf_select_columns cols df out :
  select_columns cols df = Ok out -> wf_frame out /\ columns out = cols.
Proof.
  unfold select_columns. destruct (first_missing cols df); [discriminate|].
  intro H. injection H as <-. split; [|reflexivity].
  apply Forall_forall. cbn [rows columns]. intros r Hr.
  apply in_map_iff in Hr. destruct Hr as [r0 [<- _]].
  rewrite map_map. apply map_id.
Qed.

(** X10: a table returned by [merge_json_files] is well formed and has the
    [sku] column, so [join_csv_files] on it raises only the error of
    reading the CSV, [KeyError] for [product_sku] when no column name of
    the CSV contains [sku], or [MergeError] when the suffixes repeat a
    label of the CSV; with a sku column and no such label it returns a
    frame whose labels are those of the CSV followed by those of the
    catalog. *)
Theorem join_csv_files_after_merge
        (load : string -> result pyval) (json_files : list string)
        (read_csv : string -> result DataFrame) (input_csv_path : string)
        (catalog : DataFrame) :
  snd (merge_json_files load json_files) = Ok catalog ->
  wf_frame catalog
  /\ has_column "sku" catalog = true
  /\ (forall e,
         joined (join_csv_files read_csv catalog input_csv_path) = Raise e ->
         read_csv input_csv_path = Raise e
         \/ exists input_df,
              read_csv input_csv_path = Ok input_df
              /\ ((e = KeyError "product_sku"
                   /\ forall c, In c (columns input_df) ->
                                Str.contains "sku" (Str.lower c) = false)
                  \/ (e = MergeError
                      /\ suffix_clash
                           (columns input_df)
                           (right_labels (fst (resolve_join_column (columns input_df)))
                                         "sku" catalog) = true)))
  /\ (forall input_df,
         read_csv input_csv_path = Ok input_df ->
         (exists c, In c (columns input_df)
                    /\ Str.contains "sku" (Str.lower c) = true) ->
         suffix_clash (columns input_df)
                      (right_labels (fst (resolve_join_column (columns input_df)))
                                    "sku" catalog) = false ->
         exists out,
           joined (join_csv_files read_csv catalog input_csv_path) = Ok out
           /\ columns out
              = merged_labels
                  (columns input_df)
                  (right_labels (fst (resolve_join_column (columns input_df)))
                                "sku" catalog)).
Proof.
  intro Hout. destruct (merge_json_files_inv _ _ _ Hout) as [_ Hcat].
  assert (Hwf : wf_frame catalog).
  { subst catalog. apply Forall_forall. cbn [rows columns]. intros o Ho.
    apply in_map_iff in Ho. destruct Ho as [r [<- _]]. apply output_row_keys. }
  assert (Hsku : has_column "sku" catalog = true) by (now subst catalog).
  split; [exact Hwf|]. split; [exact Hsku|]. split.
  - intros e He.
    destruct (read_csv input_csv_path) as [input_df|e'] eqn:Hread.
    + right. exists input_df. split; [reflexivity|].
      destruct (has_column (fst (resolve_join_column (columns input_df))) input_df)
        eqn:Hjc.
      * right.
        destruct (suffix_clash (columns input_df)
                    (right_labels (fst (resolve_join_column (columns input_df)))
                                  "sku" catalog)) eqn:Hclash.
        -- rewrite (join_csv_files_clash read_csv catalog input_csv_path input_df
                      Hread Hjc Hsku Hclash) in He.
           injection He as <-. auto.
        -- destruct (join_csv_files_rows read_csv catalog input_csv_path input_df
                       Hread Hjc Hsku Hclash) as [float_cols Hrun].
           rewrite Hrun in He. discriminate.
      * left.
        assert (Hnone : forall c, In c (columns input_df) ->
                                  Str.contains "sku" (Str.lower c) = false).
        { intros c Hc. destruct (Str.contains "sku" (Str.lower c)) eqn:E; [|reflexivity].
          exfalso. unfold has_column in Hjc. apply mem_not_In in Hjc. apply Hjc.
          apply resolve_join_column_In. eauto. }
        split; [|exact Hnone].
        assert (Hno : mem "product_sku" (columns input_df) = false).
        { apply mem_not_In. intro Hin. apply Hnone in Hin. discriminate. }
        assert (Hcol : has_column "product_sku" input_df = false) by exact Hno.
        unfold join_csv_files, resolve_join_column in He.
        rewrite Hread, Hno, (filter_none _ _ Hnone), Hcol, Hsku in He.
        cbn [joined] in He. unfold pd_merge_left in He.
        change (has_column "sku" (astype_str "sku" catalog))
          with (has_column "sku" catalog) in He.
        rewrite Hsku, Hcol in He. cbn [negb] in He. now injection He as <-.
    + left. unfold join_csv_files in He. rewrite Hread in He.
      cbn [joined] in He. exact He.
  - intros input_df Hread Hcol Hclash.
    assert (Hjc : has_column (fst (resolve_join_column (columns input_df))) input_df
                  = true).
    { unfold has_column. apply mem_In. now apply resolve_join_column_In. }
    destruct (join_csv_files_rows read_csv catalog input_csv_path input_df
                Hread Hjc Hsku Hclash) as [float_cols ->].
    eexists. split; reflexivity.
Qed.

(** ** The search for the external CSV *)

Lemma first_some_Some {A B : Type} (f : A -> option B) l b :
  first_some f l = Some b -> exists x, In x l /\ f x = Some b.
Proof.
  induction l as [|x rest IH]; simpl; [discriminate|].
  destruct (f x) as [b'|] eqn:E.
  - intro H. injection H as <-. exists x. auto.
  - intro H. destruct (IH H) as [y [Hy Hf]]. exists y. auto.
Qed.

Lemma first_some_None {A B : Type} (f : A -> option B) l :
  first_some f l = None <-> forall x, In x l -> f x = None.
Proof.
  induction l as [|x rest IH]; simpl; [tauto|].
  destruct (f x) as [b|] eqn:E.
  - split; [discriminate|]. intro H. rewrite <- E. apply H. now left.
  - rewrite IH. split.
    + intros H y [<-|Hy]; auto.
    + intros H y Hy. apply H. now right.
Qed.

Lemma file_names_In name (children : list (string * entry)) :
  In name (map fst (filter (fun c => is_file (snd c)) children))
  <-> In (name, File) children.
Proof.
  rewrite in_map_iff. split.
  - intros [[n e] [Hn Hc]]. simpl in Hn. subst n.
    apply filter_In in Hc. destruct Hc as [Hc Hf].
    destruct e; [exact Hc|discriminate].
  - intro H. exists (name, File). split; [reflexivity|].
    apply filter_In. auto.
Qed.

Lemma locate_sound name e : forall root p,
  locate name root e = Some p -> file_under name root e p.
Proof.
  induction e as [|children IH] using entry_induction; intros root p H.
  - discriminate.
  - simpl in H.
    destruct (mem name (map fst (filter (fun c => is_file (snd c)) children))) eqn:Hm.
    + injection H as <-. apply file_here. apply file_names_In. now apply mem_In.
    + apply first_some_Some in H. destruct H as [[d sub] [Hc Hp]].
      destruct sub as [|ch]; [discriminate|].
      rewrite Forall_forall in IH. specialize (IH _ Hc). simpl in IH.
      eapply file_below; [exact Hc|]. now apply IH.
Qed.

Lemma locate_complete name root e p :
  file_under name root e p -> exists q, locate name root e = Some q.
Proof.
  induction 1 as [root children Hc|root children d sub p Hc _ IH]; simpl.
  - apply file_names_In, mem_In in Hc. rewrite Hc. eauto.
  - destruct (mem name (map fst (filter (fun c => is_file (snd c)) children)));
      [eauto|].
    destruct IH as [q Hq].
    match goal with
    | |- exists q, first_some ?f children = Some q =>
        destruct (first_some f children) as [q'|] eqn:E; [eauto|]
    end.
    exfalso. rewrite first_some_None in E. specialize (E _ Hc).
    cbv beta iota in E. congruence.
Qed.

(** X11: [main] reads the external CSV from [input.csv] when that path
    exists, silently.  Otherwise it warns and walks the working directory:
    when some directory of the tree holds a file named [input.csv] the path
    chosen is the path of such a file (the one at the top when there is one)
    and it is printed; when there is none the path stays [input.csv]. *)
Theorem resolve_input_csv_choice (fs : string -> option entry) :
  (fs "input.csv" <> None -> resolve_input_csv fs = ("input.csv", []))
  /\ (forall e,
         fs "input.csv" = None ->
         fs "." = Some e ->
         (forall p, resolve_input_csv fs
                    = (p, [WarnInputNotFound "input.csv"; FoundInput p]) ->
                    file_under "input.csv" "." e p)
         /\ ((exists p, file_under "input.csv" "." e p) ->
             exists p, resolve_input_csv fs
                       = (p, [WarnInputNotFound "input.csv"; FoundInput p]))
         /\ ((forall p, ~ file_under "input.csv" "." e p) ->
             resolve_input_csv fs = ("input.csv", [WarnInputNotFound "input.csv"]))
         /\ (forall children,
                e = Dir children -> In ("input.csv", File) children ->
                resolve_input_csv fs
                = ("./input.csv", [WarnInputNotFound "input.csv";
                                   FoundInput "./input.csv"])))
  /\ (fs "input.csv" = None ->
      fs "." = None ->
      resolve_input_csv fs = ("input.csv", [WarnInputNotFound "input.csv"])).
Proof.
  unfold resolve_input_csv. split; [|split].
  - intro H. now destruct (fs "input.csv").
  - intros e Hno Hdot. rewrite Hno, Hdot. split; [|split; [|split]].
    + intros p H. destruct (locate "input.csv" "." e) as [q|] eqn:E; [|discriminate].
      injection H as <-. now apply locate_sound.
    + intros [p Hp]. destruct (locate_complete _ _ _ _ Hp) as [q Hq].
      rewrite Hq. eauto.
    + intro Hnone. destruct (locate "input.csv" "." e) as [q|] eqn:E; [|reflexivity].
      exfalso. apply (Hnone q). now apply locate_sound.
    + intros children -> Hin. simpl.
      apply file_names_In, mem_In in Hin. now rewrite Hin.
  - intros Hno Hdot. now rewrite Hno, Hdot.
Qed.

Lemma resolve_input_csv_choice_witness :
  exists p, resolve_input_csv nested_fs
            = (p, [WarnInputNotFound "input.csv"; FoundInput p]).
Proof.
  refine (proj1 (proj2 (proj1 (proj2 (resolve_input_csv_choice nested_fs))
                          _ eq_refl eq_refl)) _).
  exists "./incoming/input.csv".
  eapply file_below; [right; left; reflexivity|].
  apply (file_here "input.csv" "./incoming"). now left.
Defined.

(** ** The driver *)

Lemma join_csv_files_returns read_csv merged_df input_csv_path out :
  joined (join_csv_files read_csv merged_df input_csv_path) = Ok out ->
  exists input_df,
    read_csv input_csv_path = Ok input_df
    /\ has_column (fst (resolve_join_column (columns input_df))) input_df = true
    /\ has_column "sku" merged_df = true
    /\ suffix_clash (columns input_df)
                    (right_labels (fst (resolve_join_column (columns input_df)))
                                  "sku" merged_df) = false.
Proof.
  intro Hout.
  destruct (read_csv input_csv_path) as [input_df|e] eqn:Hread;
    [|unfold join_csv_files in Hout; rewrite Hread in Hout; discriminate].
  exists input_df. split; [reflexivity|].
  destruct (has_column (fst (resolve_join_column (columns input_df))) input_df) eqn:Hjc;
    destruct (has_column "sku" merged_df) eqn:Hsku.
  - split; [reflexivity|]. split; [reflexivity|].
    destruct (suffix_clash _ _) eqn:Hclash; [|reflexivity].
    rewrite (join_csv_files_clash read_csv merged_df input_csv_path input_df
               Hread Hjc Hsku Hclash) in Hout. discriminate.
  - exfalso. unfold join_csv_files in Hout. rewrite Hread in Hout.
    destruct (resolve_join_column (columns input_df)) as [jc log].
    rewrite Hsku in Hout. cbn [joined] in Hout. unfold pd_merge_left in Hout.
    rewrite Hsku in Hout. discriminate.
  - exfalso. unfold join_csv_files in Hout. rewrite Hread in Hout.
    destruct (resolve_join_column (columns input_df)) as [jc log].
    cbn [fst] in Hjc. rewrite Hjc, Hsku in Hout. cbn [joined] in Hout.
    unfold pd_merge_left in Hout.
    change (has_column "sku" (astype_str "sku" merged_df))
      with (has_column "sku" merged_df) in Hout.
    rewrite Hsku, Hjc in Hout. discriminate.
  - exfalso. unfold join_csv_files in Hout. rewrite Hread in Hout.
    destruct (resolve_join_column (columns input_df)) as [jc log].
    rewrite Hsku in Hout. cbn [joined] in Hout. unfold pd_merge_left in Hout.
    rewrite Hsku in Hout. discriminate.
Qed.

Lemma join_csv_files_length read_csv merged_df input_csv_path input_df out :
  read_csv input_csv_path = Ok input_df ->
  joined (join_csv_files read_csv merged_df input_csv_path) = Ok out ->
  (List.length (rows input_df) <= List.length (rows out))%nat.
Proof.
  intros Hread Hout.
  destruct (join_csv_files_returns _ _ _ _ Hout)
    as [input_df' [Hread' [Hjc [Hsku Hclash]]]].
  assert (input_df' = input_df) by congruence. subst input_df'.
  destruct (join_csv_files_rows read_csv merged_df input_csv_path input_df
              Hread Hjc Hsku Hclash) as [float_cols Hrun].
  rewrite Hrun in Hout. injection Hout as <-. cbn [rows].
  rewrite <- (length_map (astype_row (fst (resolve_join_column (columns input_df))))
                         (rows input_df)) at 1.
  apply left_join_rows_length.
Qed.

(** X12: when discovery finds no JSON file, neither under [data] nor in the
    working directory, [main] says so and returns: it writes nothing, raises
    nothing, and neither loads a JSON file nor reads the CSV. *)
Theorem main_without_json_files
        (fs : string -> option entry) (load load' : string -> result pyval)
        (read_csv read_csv' : string -> result DataFrame) :
  snd (find_json_files fs "data") = [] ->
  snd (find_json_files fs ".") = [] ->
  written (main fs load read_csv) = []
  /\ main_raised (main fs load read_csv) = None
  /\ (exists log, main_log (main fs load read_csv) = log ++ [NoJsonFiles])
  /\ main fs load' read_csv' = main fs load read_csv.
Proof.
  intros Hdata Hbase. unfold main, discover.
  destruct (resolve_input_csv fs) as [path log0].
  destruct (find_json_files fs "data") as [log1 files1]. cbn [snd] in Hdata. subst files1.
  destruct (find_json_files fs ".") as [log2 files2]. cbn [snd] in Hbase. subst files2.
  cbn [written main_raised main_log]. repeat split.
  exists (log0 ++ map Stage (log1 ++ log2)). now rewrite app_assoc.
Qed.

(** X13: with JSON files found, [main] writes [merged_output.csv] as soon as
    the merge returns, holding the table as [merge_json_files] returned it,
    before the join turns its skus into text; the file stays written when
    the join raises.  [joined_output.csv] is written after it, only when the
    join returns, and then [main] ends without exception, its last line
    giving the rows of the CSV and of the join, the first number never
    above the second.  An exception of the merge or of the join ends
    [main]. *)
Theorem main_artifacts
        (fs : string -> option entry) (load : string -> result pyval)
        (read_csv : string -> result DataFrame) :
  let run := main fs load read_csv in
  let all_json_files := snd (discover fs) in
  let input_csv_path := fst (resolve_input_csv fs) in
  all_json_files <> [] ->
  match snd (merge_json_files load all_json_files) with
  | Raise e => written run = [] /\ main_raised run = Some e
  | Ok merged_df =>
      match joined (join_csv_files read_csv merged_df input_csv_path) with
      | Raise e =>
          written run = [("merged_output.csv", merged_df)]
          /\ main_raised run = Some e
      | Ok joined_df =>
          written run = [("merged_output.csv", merged_df);
                         ("joined_output.csv", joined_df)]
          /\ main_raised run = None
          /\ exists log input_df,
               main_log run
               = log ++ [RowCounts (List.length (rows input_df))
                                   (List.length (rows joined_df))]
               /\ read_csv input_csv_path = Ok input_df
               /\ (List.length (rows input_df) <= List.length (rows joined_df))%nat
      end
  end.
Proof.
  intros run all_json_files input_csv_path Hfiles.
  unfold run, main. unfold all_json_files, input_csv_path in *.
  destruct (resolve_input_csv fs) as [path log0].
  destruct (discover fs) as [log1 files]. cbn [fst snd] in *.
  destruct files as [|f rest]; [congruence|].
  destruct (merge_json_files load (f :: rest)) as [merge_log merged]. cbn [snd].
  destruct merged as [merged_df|e]; [|auto].
  destruct (joined (join_csv_files read_csv merged_df path)) as [joined_df|e] eqn:Hjoin;
    [|auto].
  destruct (join_csv_files_returns _ _ _ _ Hjoin) as [input_df [Hread _]].
  pose proof (join_csv_files_length _ _ _ _ _ Hread Hjoin) as Hlen.
  rewrite Hread. cbn [written main_raised main_log].
  split; [reflexivity|]. split; [reflexivity|].
  eexists. exists input_df.
  split; [|split; [reflexivity|exact Hlen]].
  rewrite !app_assoc. reflexivity.
Qed.

(** ** The category of a discovered file *)

Lemma string_length_app a b :
  String.length (a ++ b) = (String.length a + String.length b)%nat.
Proof. induction a as [|c a IH]; simpl; [reflexivity|now rewrite IH]. Qed.

Lemma string_app_assoc (a b c : string) : ((a ++ b) ++ c = a ++ (b ++ c))%string.
Proof. induction a as [|x a IH]; simpl; [reflexivity|now rewrite IH]. Qed.

Lemma substring_whole s : substring 0 (String.length s) s = s.
Proof. induction s as [|c s IH]; simpl; [reflexivity|now rewrite IH]. Qed.

Lemma substring_prefix a b : substring 0 (String.length a) (a ++ b) = a.
Proof.
  induction a as [|c a IH]; simpl; [now destruct b|now rewrite IH].
Qed.

Lemma substring_skip a b m : substring (String.length a) m (a ++ b) = substring 0 m b.
Proof. induction a as [|c a IH]; simpl; [reflexivity|exact IH]. Qed.

Lemma rfind_from_app c a : forall b i last,
  Str.rfind_from c (a ++ b) i last
  = Str.rfind_from c b (i + Z.of_nat (String.length a)) (Str.rfind_from c a i last).
Proof.
  induction a as [|x a IH]; intros b i last; simpl String.length.
  - simpl. now rewrite Z.add_0_r.
  - cbn [append Str.rfind_from]. rewrite IH. f_equal. lia.
Qed.

Lemma rfind_from_absent c s : forall i last,
  has_char c s = false -> Str.rfind_from c s i last = last.
Proof.
  induction s as [|x s IH]; intros i last H; simpl in *; [reflexivity|].
  apply orb_false_iff in H. destruct H as [Hx Hs].
  rewrite Hx. now apply IH.
Qed.

Lemma rfind_last c a b :
  has_char c b = false ->
  Str.rfind c (a ++ String c b) = Z.of_nat (String.length a).
Proof.
  intro H. unfold Str.rfind. rewrite rfind_from_app. cbn [Str.rfind_from].
  rewrite Ascii.eqb_refl. rewrite rfind_from_absent by exact H. lia.
Qed.

Lemma has_char_app c a b : has_char c (a ++ b) = has_char c a || has_char c b.
Proof.
  induction a as [|x a IH]; simpl; [reflexivity|]. now rewrite IH, orb_assoc.
Qed.

Lemma endswith_sep s :
  Str.endswith s "/" = true -> exists d, s = (d ++ "/")%string.
Proof.
  unfold Str.endswith. simpl String.length.
  induction s as [|c s IH]; [discriminate|].
  destruct s as [|c' s'].
  - simpl. intro H. exists EmptyString.
    destruct (Ascii.eqb c "/") eqn:E; [|discriminate].
    apply Ascii.eqb_eq in E. now subst c.
  - intro H.
    assert (Hrest : (if Nat.leb 1 (String.length (String c' s'))
                     then String.eqb
                            (substring (String.length (String c' s') - 1) 1
                                       (String c' s')) "/"
                     else false) = true).
    { simpl String.length in *. cbn [Nat.leb] in *.
      replace (S (S (String.length s')) - 1)%nat with (S (String.length s')) in H by lia.
      replace (S (String.length s') - 1)%nat with (String.length s') by lia.
      exact H. }
    destruct (IH Hrest) as [d Hd]. exists (String c d). simpl. now rewrite Hd.
Qed.

Lemma basename_after_sep d name :
  has_char "/" name = false ->
  Path.basename (d ++ String "/" name) = name.
Proof.
  intro H. unfold Path.basename, Path.sep, Str.slice_from.
  rewrite (rfind_last "/" d name H).
  replace (Z.to_nat (Z.of_nat (String.length d) + 1)) with (S (String.length d)) by lia.
  replace (d ++ String "/" name)%string with ((d ++ "/") ++ name)%string
    by (now rewrite string_app_assoc).
  assert (Hlen : String.length (d ++ "/") = S (String.length d))
    by (rewrite string_length_app; simpl; lia).
  set (pre := (d ++ "/")%string) in *.
  rewrite <- Hlen, (string_length_app pre name).
  replace (String.length pre + String.length name - String.length pre)%nat
    with (String.length name) by lia.
  rewrite substring_skip. apply substring_whole.
Qed.

Lemma basename_plain name :
  has_char "/" name = false -> Path.basename name = name.
Proof.
  intro H. unfold Path.basename, Path.sep, Str.slice_from, Str.rfind.
  rewrite rfind_from_absent by exact H. simpl Z.to_nat.
  rewrite Nat.sub_0_r. apply substring_whole.
Qed.

Lemma basename_join root name :
  has_char "/" name = false -> Path.basename (Path.join root name) = name.
Proof.
  intro H. unfold Path.join.
  assert (Hp : prefix "/" name = false).
  { destruct name as [|c name]; [reflexivity|].
    cbn [has_char] in H. cbn [prefix].
    apply orb_false_iff in H. destruct H as [Hc _].
    destruct (ascii_dec "/" c) as [Heq|]; [|reflexivity].
    subst c. discriminate. }
  rewrite Hp.
  destruct (String.eqb root "") eqn:Eroot; cbn [orb].
  - apply String.eqb_eq in Eroot. subst root. now apply basename_plain.
  - destruct (Str.endswith root "/") eqn:Eend.
    + destruct (endswith_sep _ Eend) as [d ->].
      rewrite string_app_assoc. now apply basename_after_sep.
    + now apply basename_after_sep.
Qed.

Lemma splitext_json_name stem :
  has_char "/" stem = false ->
  fst (Path.splitext (stem ++ ".json"))
  = if Str.all_char "." stem then (stem ++ ".json")%string else stem.
Proof.
  intro Hstem.
  unfold Path.splitext, Path.sep, Path.extsep.
  assert (Hsep : Str.rfind "/" (stem ++ ".json") = (-1)%Z).
  { unfold Str.rfind. apply rfind_from_absent.
    rewrite has_char_app, Hstem. reflexivity. }
  assert (Hdot : Str.rfind "." (stem ++ ".json") = Z.of_nat (String.length stem))
    by (apply (rfind_last "." stem "json"); reflexivity).
  rewrite Hsep, Hdot.
  assert (Hlt : Z.ltb (-1) (Z.of_nat (String.length stem)) = true)
    by (apply Z.ltb_lt; lia).
  rewrite Hlt.
  replace (Z.to_nat (-1 + 1)) with 0%nat by reflexivity.
  replace (Z.to_nat (Z.of_nat (String.length stem) - (-1 + 1)))
    with (String.length stem) by lia.
  rewrite substring_prefix.
  destruct (Str.all_char "." stem); [reflexivity|].
  cbn [fst]. unfold Str.slice_to. rewrite Nat2Z.id. apply substring_prefix.
Qed.

(** X14: for a file named [stem.json] in any directory, the category is
    [stem], dots inside the stem included; only when the stem is empty or
    made of dots alone is the category the whole file name, so a file named
    [.json] has the category [.json]. *)
Theorem category_of_json_file (root stem : string) :
  has_char "/" stem = false ->
  category_of (Path.join root (stem ++ ".json"))
  = if Str.all_char "." stem then (stem ++ ".json")%string else stem.
Proof.
  intro Hstem. unfold category_of.
  rewrite basename_join by (rewrite has_char_app, Hstem; reflexivity).
  now apply splitext_json_name.
Qed.

Lemma category_of_json_file_witness :
  category_of (Path.join "data/shop" ("home.goods" ++ ".json"))
  = if Str.all_char "." "home.goods" then ("home.goods" ++ ".json")%string
    else "home.goods".
Proof.
  exact (category_of_json_file "data/shop" "home.goods" eq_refl).
Defined.

(** ** The order of the directory listing *)

Lemma sorted_perm_unique {A : Type} (leb : A -> A -> bool) :
  (forall a b, leb a b = true -> leb b a = true -> a = b) ->
  forall l1 l2,
    StronglySorted (le_of leb) l1 -> StronglySorted (le_of leb) l2 ->
    Permutation l1 l2 -> l1 = l2.
Proof.
  intros Hanti l1. induction l1 as [|x r1 IH]; intros l2 H1 H2 Hp.
  - apply Permutation_nil in Hp. now subst.
  - destruct l2 as [|y r2];
      [apply Permutation_sym, Permutation_nil in Hp; discriminate|].
    inversion H1 as [|? ? Hs1 Hall1]. inversion H2 as [|? ? Hs2 Hall2]. subst.
    rewrite Forall_forall in Hall1, Hall2.
    assert (Hxy : x = y).
    { assert (Hy : In y (x :: r1))
        by (eapply Permutation_in; [apply Permutation_sym, Hp|now left]).
      assert (Hx : In x (y :: r2))
        by (eapply Permutation_in; [exact Hp|now left]).
      destruct Hy as [Hy|Hy]; [exact Hy|].
      destruct Hx as [Hx|Hx]; [now symmetry|].
      apply Hanti; [now apply Hall1|now apply Hall2]. }
    subst y. f_equal. apply IH; auto.
    now apply Permutation_cons_inv in Hp.
Qed.

Lemma walk_contributions root children :
  Permutation (walk root (Dir children)) (flat_map (contribution root) children).
Proof.
  cbn [walk]. induction children as [|[n e] rest IH]; [constructor|].
  destruct e as [|ch]; cbn - [Str.endswith Path.join mem walk exclude_dirs].
  - destruct (Str.endswith n ".json"); cbn - [Str.endswith Path.join mem walk exclude_dirs].
    + now apply perm_skip.
    + exact IH.
  - apply Permutation_sym.
    eapply perm_trans; [apply Permutation_app_head, Permutation_sym, IH|].
    rewrite !app_assoc. apply Permutation_app_tail, Permutation_app_comm.
Qed.

Lemma reordered_walk e1 e2 :
  reordered e1 e2 -> forall root, Permutation (walk root e1) (walk root e2).
Proof.
  intro H.
  induction H using reordered_mut
    with (P0 := fun l1 l2 =>
                  forall root, Permutation (flat_map (contribution root) l1)
                                           (flat_map (contribution root) l2));
    intro root.
  - constructor.
  - eapply perm_trans; [apply walk_contributions|].
    eapply perm_trans; [apply IHreordered|].
    apply Permutation_sym, walk_contributions.
  - constructor.
  - cbn [flat_map]. apply Permutation_app; [|apply IHreordered0].
    unfold contribution. cbn [fst snd].
    inversion H; subst; [reflexivity|].
    destruct (mem name exclude_dirs); [constructor|apply IHreordered].
  - cbn [flat_map]. rewrite !app_assoc.
    apply Permutation_app_tail, Permutation_app_comm.
  - eapply perm_trans; [apply IHreordered|apply IHreordered0].
Qed.

(** X15: the list returned by [find_json_files] does not depend on the order
    in which the directories list their entries: two trees that differ only
    in that order, at any depth, give the same list. *)
Theorem find_json_files_scan_order
        (fs1 fs2 : string -> option entry) (base_dir : string) (e1 e2 : entry) :
  fs1 base_dir = Some e1 ->
  fs2 base_dir = Some e2 ->
  reordered e1 e2 ->
  find_json_files fs1 base_dir = find_json_files fs2 base_dir.
Proof.
  intros H1 H2 Hre. unfold find_json_files. rewrite H1, H2. f_equal.
  apply (sorted_perm_unique String.leb String.leb_antisym).
  - apply sort_by_strongly; [apply String.leb_total|apply string_leb_trans].
  - apply sort_by_strongly; [apply String.leb_total|apply string_leb_trans].
  - eapply perm_trans; [apply Permutation_sym, sort_by_perm|].
    eapply perm_trans; [apply (reordered_walk _ _ Hre)|apply sort_by_perm].
Qed.

Lemma find_json_files_scan_order_witness :
  find_json_files nested_fs "data" = find_json_files shuffled_fs "data".
Proof.
  refine (find_json_files_scan_order nested_fs shuffled_fs "data" _ _
            eq_refl eq_refl _).
  apply reordered_dir, reordered_swap.
Defined.

(** ** The category of what discovery returns *)

Lemma substring_split s : forall k,
  (k <= String.length s)%nat ->
  s = (substring 0 k s ++ substring k (String.length s - k) s)%string.
Proof.
  induction s as [|c s IH]; intros k Hk.
  - simpl in Hk. assert (k = 0%nat) by lia. now subst.
  - destruct k as [|k].
    + cbn [substring append String.length Nat.sub]. now rewrite substring_whole.
    + cbn [substring append String.length Nat.sub]. f_equal. apply IH.
      simpl in Hk. lia.
Qed.

Lemma endswith_split s suffix :
  Str.endswith s suffix = true -> exists stem, s = (stem ++ suffix)%string.
Proof.
  unfold Str.endswith.
  destruct (Nat.leb (String.length suffix) (String.length s)) eqn:Hle; [|discriminate].
  apply Nat.leb_le in Hle. intro H. apply String.eqb_eq in H.
  set (m := String.length suffix) in *.
  set (k := (String.length s - m)%nat) in *.
  assert (Hm : (String.length s - k = m)%nat) by (unfold k; lia).
  exists (substring 0 k s).
  rewrite (substring_split s k) at 1 by (unfold k; lia).
  now rewrite Hm, H.
Qed.

Lemma walk_files e : forall root p,
  In p (walk root e) <->
  exists dir name, json_file_in root e dir name /\ p = Path.join dir name.
Proof.
  induction e as [|children IH] using entry_induction; intros root p.
  - split; [intros []|]. intros [dir [name [H _]]]. inversion H.
  - split.
    + intro Hin. cbn [walk] in Hin. apply in_app_or in Hin. destruct Hin as [Hin|Hin].
      * apply in_map_iff in Hin. destruct Hin as [name [<- Hname]].
        apply filter_In in Hname. destruct Hname as [Hname Hext].
        apply file_names_In in Hname.
        exists root, name. split; [|reflexivity]. now apply json_file_here.
      * apply in_flat_map in Hin. destruct Hin as [[d sub] [Hc Hp]].
        destruct sub as [|ch]; cbv beta iota in Hp; [destruct Hp|].
        destruct (mem d exclude_dirs) eqn:Hex; [destruct Hp|].
        rewrite Forall_forall in IH. specialize (IH _ Hc). simpl in IH.
        apply IH in Hp. destruct Hp as [dir [name [Hf ->]]].
        exists dir, name. split; [|reflexivity].
        eapply json_file_below; eassumption.
    + intros [dir [name [Hf ->]]].
      inversion Hf as [? ? ? Hc Hext|? ? d sub ? ? Hc Hex Hsub]; subst;
        cbn [walk]; apply in_or_app.
      * left. apply in_map. apply filter_In. split; [|exact Hext].
        now apply file_names_In.
      * right. apply in_flat_map. exists (d, Dir sub). split; [exact Hc|].
        cbv beta iota. rewrite Hex.
        rewrite Forall_forall in IH. specialize (IH _ Hc). simpl in IH.
        apply IH. eauto.
Qed.

(** X16: the paths returned by [find_json_files] are the joins of a
    directory it walks and the name of a JSON file in that directory; every
    such file is returned, its name is [stem.json], and, the name being free
    of [/] as file names are, the category [merge_json_files] derives from
    the path is the stem, or the whole name when the stem is empty or only
    dots. *)
Theorem find_json_files_categories
        (fs : string -> option entry) (base_dir : string) (e : entry) :
  fs base_dir = Some e ->
  (forall p, In p (snd (find_json_files fs base_dir)) ->
             exists dir name, json_file_in base_dir e dir name /\ p = Path.join dir name)
  /\ (forall dir name,
         json_file_in base_dir e dir name ->
         In (Path.join dir name) (snd (find_json_files fs base_dir))
         /\ exists stem,
              name = (stem ++ ".json")%string
              /\ (has_char "/" name = false ->
                  category_of (Path.join dir name)
                  = if Str.all_char "." stem then name else stem)).
Proof.
  intro Hfs. unfold find_json_files. rewrite Hfs. cbn [snd]. split.
  - intros p Hin. apply sort_by_In in Hin. now apply walk_files.
  - intros dir name Hf. split.
    + apply sort_by_In. apply walk_files. eauto.
    + assert (Hext : Str.endswith name ".json" = true).
      { clear Hfs. induction Hf; assumption. }
      destruct (endswith_split _ _ Hext) as [stem ->].
      exists stem. split; [reflexivity|]. intro Hname.
      unfold category_of. rewrite basename_join by exact Hname.
      apply splitext_json_name.
      rewrite has_char_app in Hname. now apply orb_false_iff in Hname.
Qed.

Lemma find_json_files_categories_witness :
  In (Path.join "data" "a.json") (snd (find_json_files nested_fs "data"))
  /\ exists stem,
       "a.json" = (stem ++ ".json")%string
       /\ (has_char "/" "a.json" = false ->
           category_of (Path.join "data" "a.json")
           = if Str.all_char "." stem then "a.json" else stem).
Proof.
  refine (proj2 (find_json_files_categories nested_fs "data" _ eq_refl) "data" "a.json" _).
  apply json_file_here; [now left|reflexivity].
Defined.
End Pipeline.

(** * The statements on the examples

    [repr] consults the table of printable characters only for a character
    outside ASCII; the examples are stated for the table of Latin-1. *)

Lemma join_csv_files_compares_text_witness :
  exists float_cols,
    joined (join_csv_files Utf8.latin1_printable p8_csv p8_catalog "input.csv")
    = Ok (mkFrame
            (merged_labels ["product_sku"; "qty"]
                           (right_labels "product_sku" "sku" p8_catalog))
            (left_join_rows
               (text_keys_match Utf8.latin1_printable "product_sku")
               (fun l r =>
                  left_cells ["product_sku"; "qty"]
                             (right_labels "product_sku" "sku" p8_catalog)
                             (astype_row Utf8.latin1_printable "product_sku" l)
                  ++ right_cells ["product_sku"; "qty"]
                                 (right_labels "product_sku" "sku" p8_catalog)
                                 (promote float_cols
                                    (astype_row Utf8.latin1_printable "sku" r)))
               (fun l =>
                  left_cells ["product_sku"; "qty"]
                             (right_labels "product_sku" "sku" p8_catalog)
                             (astype_row Utf8.latin1_printable "product_sku" l)
                  ++ null_cells ["product_sku"; "qty"]
                                (right_labels "product_sku" "sku" p8_catalog))
               [[("product_sku", PInt 100); ("qty", PInt 2)]]
               (rows p8_catalog))).
Proof.
  exact (proj1 (join_csv_files_compares_text Utf8.latin1_printable)
               p8_csv p8_catalog "input.csv" _
               eq_refl p8_csv_wf p8_catalog_wf eq_refl eq_refl).
Defined.

Lemma join_csv_files_no_key_column_witness :
  join_log (join_csv_files Utf8.latin1_printable no_key_csv p8_catalog "input.csv")
  = [WarnNoProductSku; AvailableColumns ["code"; "qty"]]
  /\ joined (join_csv_files Utf8.latin1_printable no_key_csv p8_catalog "input.csv")
     = Raise (KeyError "product_sku").
Proof.
  refine (join_csv_files_no_key_column Utf8.latin1_printable
            no_key_csv p8_catalog "input.csv" _ eq_refl eq_refl _ eq_refl).
  intros col [<-|[<-|[]]]; reflexivity.
Defined.

(** C9, the claim refuted: the catalog made from the files of P3 holds the
    sku [1] as an integer before the call and as the string ["1"] after. *)
Lemma join_csv_files_changes_catalog :
  exists catalog,
    snd (merge_json_files p3_load p3_files) = Ok catalog
    /\ column "sku" catalog = [PInt 1]
    /\ column "sku" (merged_df_after
                       (join_csv_files Utf8.latin1_printable p8_csv catalog "input.csv"))
       = [PStr "1"]
    /\ merged_df_after (join_csv_files Utf8.latin1_printable p8_csv catalog "input.csv")
       <> catalog.
Proof.
  eexists. split; [reflexivity|]. split; [reflexivity|]. split; [reflexivity|].
  discriminate.
Qed.

Lemma join_csv_files_row_count_witness :
  exists out,
    joined (join_csv_files Utf8.latin1_printable one_key_csv p8_catalog "input.csv")
    = Ok out
    /\ List.length (rows out) = 1%nat
    /\ Forall2 (fun l o =>
                  firstn 1 (map snd o)
                  = map (fun c => cell c (astype_row Utf8.latin1_printable
                                                     "product_sku" l))
                        ["product_sku"])
               [[("product_sku", PInt 1)]] (rows out).
Proof.
  refine (join_csv_files_row_count Utf8.latin1_printable
            one_key_csv p8_catalog "input.csv" _
            eq_refl one_key_csv_wf p8_catalog_wf eq_refl eq_refl eq_refl _).
  repeat constructor. simpl. tauto.
Defined.

(** C5, the claim refuted: the files [a.json] and [b.json] give a catalog of
    two rows whose skus differ, the integer [1] and the string ["1"]; the
    external CSV has one row, with key [1], and the join returns two. *)
Lemma join_csv_files_row_count_fails :
  exists catalog input_df out,
    snd (merge_json_files mixed_load ["data/a.json"; "data/b.json"]) = Ok catalog
    /\ NoDup (map (fun o => hash_key (cell "sku" o)) (rows catalog))
    /\ one_key_csv "input.csv" = Ok input_df
    /\ joined (join_csv_files Utf8.latin1_printable one_key_csv catalog "input.csv")
       = Ok out
    /\ List.length (rows input_df) = 1%nat
    /\ List.length (rows out) = 2%nat.
Proof.
  do 3 eexists. split; [reflexivity|]. split.
  - simpl. repeat constructor; simpl; intuition discriminate.
  - repeat split; reflexivity.
Qed.

Lemma join_csv_files_keeps_rows_witness :
  exists out,
    joined (join_csv_files Utf8.latin1_printable one_key_csv p8_catalog "input.csv")
    = Ok out
    /\ (1 <= List.length (rows out))%nat
    /\ (forall l, In l [[("product_sku", PInt 1)]] ->
                  exists o, In o (rows out)
                            /\ firstn 1 (map snd o)
                               = map (fun c => cell c (astype_row Utf8.latin1_printable
                                                                  "product_sku" l))
                                     ["product_sku"])
    /\ (forall o, In o (rows out) ->
                  exists l, In l [[("product_sku", PInt 1)]]
                            /\ firstn 1 (map snd o)
                               = map (fun c => cell c (astype_row Utf8.latin1_printable
                                                                  "product_sku" l))
                                     ["product_sku"]).
Proof.
  exact (join_csv_files_keeps_rows Utf8.latin1_printable
           one_key_csv p8_catalog "input.csv" _ eq_refl eq_refl eq_refl eq_refl).
Defined.

Lemma join_csv_files_after_merge_witness :
  joined (join_csv_files Utf8.latin1_printable clash_csv
            (mkFrame required_columns
               [[("sku", PInt 7); ("name", PStr "Radio"); ("brand", PStr "");
                 ("category", PStr "electronics")]])
            "input.csv")
  = Raise MergeError
  /\ wf_frame (mkFrame required_columns
                 [[("sku", PInt 7); ("name", PStr "Radio"); ("brand", PStr "");
                   ("category", PStr "electronics")]]).
Proof.
  destruct (join_csv_files_after_merge Utf8.latin1_printable
              legacy_load ["data/electronics.json"]
              clash_csv "input.csv" _ eq_refl) as [Hwf _].
  split; [reflexivity|exact Hwf].
Defined.

Lemma main_without_json_files_witness :
  written (main Utf8.latin1_printable empty_fs e2e_load e2e_csv) = []
  /\ main_raised (main Utf8.latin1_printable empty_fs e2e_load e2e_csv) = None
  /\ (exists log, main_log (main Utf8.latin1_printable empty_fs e2e_load e2e_csv)
                  = log ++ [NoJsonFiles])
  /\ main Utf8.latin1_printable empty_fs p3_load p8_csv
     = main Utf8.latin1_printable empty_fs e2e_load e2e_csv.
Proof.
  exact (main_without_json_files Utf8.latin1_printable
           empty_fs e2e_load p3_load e2e_csv p8_csv eq_refl eq_refl).
Defined.

Lemma main_artifacts_witness :
  written (main Utf8.latin1_printable nested_fs e2e_load e2e_csv)
  = [("merged_output.csv",
      mkFrame required_columns
        [[("sku", PInt 1); ("name", PStr "Widget"); ("brand", PStr "Acme");
          ("category", PStr "a")];
         [("sku", PInt 2); ("name", PStr "Gadget"); ("brand", PStr "Zenith");
          ("category", PStr "b")]])]
  /\ main_raised (main Utf8.latin1_printable nested_fs e2e_load e2e_csv) = Some OSError.
Proof.
  refine (main_artifacts Utf8.latin1_printable nested_fs e2e_load e2e_csv _).
  discriminate.
Defined.
